(** * GCodeWriter: machine-state tracker and numeric formatter

    Shallow embedding of [src/libslic3r/GCodeWriter.cpp] (BambuStudio), and
    of the flag class [TransformationType] of [src/slic3r/GUI/Selection.hpp].

    Conventions of the embedding:
    - a C++ [double] is an exact rational ([Q]); comparisons are the
      numeric ones ([Qeq_bool], [Qle_bool]), never structural equality.
      Sums, differences and products are exact where the code rounds them
      to the nearest double; infinities and NaN are outside the model.
      Where a result depends on the side of a comparison a rounded number
      falls on, the rounded number is given: [Machine.will_move_z] and
      [Machine.travel_to_z] take the subtraction of the machine as an
      operation, [emit_axis_int] takes the integer [std::round] returned;
    - [unsigned int] accelerations and temperatures are [N], [int] is [Z],
      filament and extruder indices are [nat];
    - a [std::string] is a [string]; the formatter's [char buf[256]] is a
      [list ascii] addressed by offset;
    - a method of the writer is a function [GCodeWriter -> option (string * GCodeWriter)];
      [None] stands for undefined behaviour of the C++ code (dereferencing
      a null [filament()], indexing a vector out of range). *)

From Stdlib Require Import ZArith NArith QArith Qabs Qround Qminmax.
From Stdlib Require Import List String Ascii Bool Sorted Permutation Lia Lqa.
Import ListNotations.

Local Open Scope Z_scope.

(* ------------------------------------------------------------------ *)
(** ** Characters, decimal rendering *)

Definition chr (s : string) : ascii :=
  match s with
  | String c _ => c
  | EmptyString => Ascii.zero
  end.

Definition digit_char (d : Z) : ascii := ascii_of_nat (48 + Z.to_nat d).

(** Decimal digits of a non-negative integer, most significant first.
    20 rounds are enough for any 64-bit value. *)
Fixpoint to_digits (fuel : nat) (n : Z) (acc : list ascii) : list ascii :=
  let acc' := digit_char (n mod 10) :: acc in
  match fuel with
  | O => acc'
  | S f => if n / 10 =? 0 then acc' else to_digits f (n / 10) acc'
  end.

(** [std::to_chars] on an [int64_t]: optional minus sign, then the digits. *)
Definition to_chars (v : Z) : list ascii :=
  (if v <? 0 then [chr "-"] else []) ++ to_digits 20 (Z.abs v) [].

(** [operator<<] of an integer into an [ostringstream], and [std::to_string]. *)
Definition show_Z (v : Z) : string := string_of_list_ascii (to_chars v).
Definition show_N (v : N) : string := show_Z (Z.of_N v).
Definition show_nat (v : nat) : string := show_Z (Z.of_nat v).

(* ------------------------------------------------------------------ *)
(** ** Doubles as rationals *)

Definition Qlt_bool (a b : Q) : bool := negb (Qle_bool b a).

(** [std::round]: nearest integer, halfway cases away from zero. *)
Definition round_half_away (q : Q) : Z :=
  if Qle_bool 0 q then Qfloor (q + (1 # 2))%Q else (- Qfloor (- q + (1 # 2))%Q)%Z.

Definition EPSILON : Q := (1 # 10000)%Q.

(* ------------------------------------------------------------------ *)
(** ** GCodeFormatter *)

(** [*(p) = c] on a character array; a write outside the array is not
    modelled (the array is left as it is). *)
Fixpoint poke (buf : list ascii) (i : nat) (c : ascii) : list ascii :=
  match buf, i with
  | [], _ => []
  | _ :: t, O => c :: t
  | h :: t, S j => h :: poke t j c
  end.

Definition peek (buf : list ascii) (i : Z) : ascii := nth (Z.to_nat i) buf Ascii.zero.

Definition pokeZ (buf : list ascii) (i : Z) (c : ascii) : list ascii :=
  poke buf (Z.to_nat i) c.

Definition pow_10 (digits : nat) : Z := 10 ^ Z.of_nat digits.

(** [for (from = hi, to = hi + k; from >= lo; --to, --from) *to = *from;]
    run for [n] iterations, [from] starting at [hi]. *)
Fixpoint shift_right (n : nat) (buf : list ascii) (from k : Z) : list ascii :=
  match n with
  | O => buf
  | S m => shift_right m (pokeZ buf (from + k) (peek buf from)) (from - 1) k
  end.

(** [memset(p, c, n)]. *)
Fixpoint memset (buf : list ascii) (p : Z) (c : ascii) (n : nat) : list ascii :=
  match n with
  | O => buf
  | S m => memset (pokeZ buf p c) (p + 1) c m
  end.

(** The trimming loop: at most [digits] times, step [ptr] back over a
    character zero and stop at the first other character. *)
Fixpoint trim_zeros (digits : nat) (buf : list ascii) (ptr : Z) : Z :=
  match digits with
  | O => ptr
  | S d => if Ascii.eqb (peek buf ptr) (chr "0") then trim_zeros d buf (ptr - 1) else ptr
  end.

(** Write the characters of a list starting at [p]; returns the buffer and the
    pointer past the last character written. *)
Fixpoint write_chars (buf : list ascii) (p : Z) (cs : list ascii) : list ascii * Z :=
  match cs with
  | [] => (buf, p)
  | c :: r => write_chars (pokeZ buf p c) (p + 1) r
  end.

(** The body of [GCodeFormatter::emit_axis] after [base_ptr] has been taken.
    [win] is the buffer from [base_ptr] on, every offset is relative to
    [base_ptr]; the result is the buffer and the final [ptr_err.ptr]. *)
Definition emit_number (v_int : Z) (digits : nat) (win : list ascii) : list ascii * Z :=
  let '(win, ptr) := write_chars win 0 (to_chars v_int) in
  let writen_digits := ptr - (if v_int <? 0 then 1 else 0) in
  let '(win, ptr) :=
    if writen_digits <? Z.of_nat digits then
      let remaining_digits := Z.of_nat digits - writen_digits in
      let win := shift_right (Z.to_nat writen_digits) win (ptr - 1) remaining_digits in
      let win := memset win (ptr - writen_digits) (chr "0") (Z.to_nat remaining_digits) in
      (win, ptr + remaining_digits)
    else (win, ptr) in
  let win := shift_right digits win (ptr - 1) 1 in
  let win := pokeZ win (ptr - Z.of_nat digits) (chr ".") in
  let ptr := trim_zeros digits win ptr in
  let ptr := if Ascii.eqb (peek win ptr) (chr ".") then ptr - 1 else ptr in
  let '(win, ptr) :=
    if (ptr + 1 =? 0) || Ascii.eqb (peek win ptr) (chr "-")
    then (pokeZ win (ptr + 1) (chr "0"), ptr + 1)
    else (win, ptr) in
  (win, ptr + 1).

(** The text of the number just written: the characters from [base_ptr] up
    to the final pointer. *)
Definition mantissa (v_int : Z) (digits : nat) (win : list ascii) : string :=
  let '(win', ptr) := emit_number v_int digits win in
  string_of_list_ascii (firstn (Z.to_nat ptr) win').

Record GCodeFormatter := {
  buf : list ascii;
  ptr : nat
}.

Definition buflen : nat := 256.

(** [GCodeFormatter::emit_axis] with the scaled and rounded value given. *)
Definition emit_axis_int (axis : ascii) (v_int : Z) (digits : nat) (f : GCodeFormatter)
  : GCodeFormatter :=
  let b := poke (poke (buf f) (ptr f) (chr " ")) (S (ptr f)) axis in
  let base_ptr := S (S (ptr f)) in
  let '(win, p) := emit_number v_int digits (skipn base_ptr b) in
  {| buf := firstn base_ptr b ++ win; ptr := base_ptr + Z.to_nat p |}.

(** [GCodeFormatter::emit_axis].  The product [v * pow_10[digits]] is exact
    here; the code rounds it to a double before [std::round] sees it. *)
Definition emit_axis (axis : ascii) (v : Q) (digits : nat) (f : GCodeFormatter)
  : GCodeFormatter :=
  emit_axis_int axis (round_half_away (v * inject_Z (pow_10 digits))) digits f.

(** Modelled from the spec: the line-assembly part of the formatter lives in
    GCodeWriter.hpp, which is not among the sources.  Section 4.1 and 6 of
    the specification give its shape: a command word, axis fragments with a
    fixed digit count (three for X, Y, Z, I, J and F, five for E), an
    optional literal, an optional comment written only when comments are
    enabled, and one terminating newline.  The buffer of a new formatter is
    filled with NUL characters here; in C++ it is uninitialised. *)
Definition XYZF_EXPORT_DIGITS : nat := 3.
Definition E_EXPORT_DIGITS : nat := 5.

Definition blank_buf : list ascii := repeat Ascii.zero buflen.

Definition GCodeG1Formatter : GCodeFormatter :=
  {| buf := poke (poke blank_buf 0 (chr "G")) 1 (chr "1"); ptr := 2 |}.

Definition GCodeG2G3Formatter (is_ccw : bool) : GCodeFormatter :=
  {| buf := poke (poke blank_buf 0 (chr "G")) 1 (if is_ccw then chr "3" else chr "2");
     ptr := 2 |}.

Definition put_char (c : ascii) (f : GCodeFormatter) : GCodeFormatter :=
  {| buf := poke (buf f) (ptr f) c; ptr := S (ptr f) |}.

Fixpoint emit_string (s : string) (f : GCodeFormatter) : GCodeFormatter :=
  match s with
  | EmptyString => f
  | String c r => emit_string r (put_char c f)
  end.

Definition emit_comment (allow_comments : bool) (comment : string) (f : GCodeFormatter)
  : GCodeFormatter :=
  if allow_comments && negb (String.eqb comment "")
  then emit_string comment (put_char (chr " ") (put_char (chr ";") (put_char (chr " ") f)))
  else f.

Definition fmt_string (f : GCodeFormatter) : string :=
  let f := put_char (chr (String "010" "")) f in
  string_of_list_ascii (firstn (ptr f) (buf f)).

Record Vec2d := { x2 : Q; y2 : Q }.
Record Vec3d := { x3 : Q; y3 : Q; z3 : Q }.

Definition to_2d (p : Vec3d) : Vec2d := {| x2 := x3 p; y2 := y3 p |}.

Definition Vec3d_eqb (a b : Vec3d) : bool :=
  Qeq_bool (x3 a) (x3 b) && Qeq_bool (y3 a) (y3 b) && Qeq_bool (z3 a) (z3 b).

Definition emit_xy (p : Vec2d) (f : GCodeFormatter) : GCodeFormatter :=
  emit_axis (chr "Y") (y2 p) XYZF_EXPORT_DIGITS (emit_axis (chr "X") (x2 p) XYZF_EXPORT_DIGITS f).

Definition emit_xyz (p : Vec3d) (f : GCodeFormatter) : GCodeFormatter :=
  emit_axis (chr "Z") (z3 p) XYZF_EXPORT_DIGITS
    (emit_axis (chr "Y") (y3 p) XYZF_EXPORT_DIGITS
      (emit_axis (chr "X") (x3 p) XYZF_EXPORT_DIGITS f)).

Definition emit_z (z : Q) (f : GCodeFormatter) : GCodeFormatter :=
  emit_axis (chr "Z") z XYZF_EXPORT_DIGITS f.

Definition emit_ij (p : Vec2d) (f : GCodeFormatter) : GCodeFormatter :=
  emit_axis (chr "J") (y2 p) XYZF_EXPORT_DIGITS (emit_axis (chr "I") (x2 p) XYZF_EXPORT_DIGITS f).

Definition emit_e (v : Q) (f : GCodeFormatter) : GCodeFormatter :=
  emit_axis (chr "E") v E_EXPORT_DIGITS f.

Definition emit_f (speed : Q) (f : GCodeFormatter) : GCodeFormatter :=
  emit_axis (chr "F") speed XYZF_EXPORT_DIGITS f.

(* ------------------------------------------------------------------ *)
(** ** Floating-point library *)

Local Open Scope Q_scope.

(** The transcendental functions of [<cmath>] and the default rendering of a
    [double] by an [ostringstream] have no rational model; the writer takes
    them from its environment.  They only enter the text of spiral and
    slope lift moves and of the Klipper accel-to-decel command. *)
Class Libm := {
  PI : Q;
  atan_d : Q -> Q;
  tan_d : Q -> Q;
  atan2_d : Q -> Q -> Q;
  sqrt_d : Q -> Q;
  show_double : Q -> string
}.

(* ------------------------------------------------------------------ *)
(** ** Configuration, extruders, writer state *)

Inductive GCodeFlavor :=
| gcfMarlinLegacy | gcfKlipper | gcfRepRapSprinter | gcfRepRapFirmware
| gcfRepetier | gcfTeacup | gcfMakerWare | gcfMarlinFirmware | gcfSailfish
| gcfMach3 | gcfMachinekit | gcfSmoothie | gcfNoExtrusion.

Definition flavor_eqb (a b : GCodeFlavor) : bool :=
  match a, b with
  | gcfMarlinLegacy, gcfMarlinLegacy | gcfKlipper, gcfKlipper
  | gcfRepRapSprinter, gcfRepRapSprinter | gcfRepRapFirmware, gcfRepRapFirmware
  | gcfRepetier, gcfRepetier | gcfTeacup, gcfTeacup | gcfMakerWare, gcfMakerWare
  | gcfMarlinFirmware, gcfMarlinFirmware | gcfSailfish, gcfSailfish
  | gcfMach3, gcfMach3 | gcfMachinekit, gcfMachinekit | gcfSmoothie, gcfSmoothie
  | gcfNoExtrusion, gcfNoExtrusion => true
  | _, _ => false
  end.

Inductive LiftType := NormalLift | SpiralLift | SlopeLift.

Definition LiftType_eqb (a b : LiftType) : bool :=
  match a, b with
  | NormalLift, NormalLift | SpiralLift, SpiralLift | SlopeLift, SlopeLift => true
  | _, _ => false
  end.

(** The options of [GCodeConfig] the writer reads.  A vector-valued option
    is given by its accessor [get_at]; the per-filament accessors of
    [Extruder] that only read the configuration are kept here as well, as is
    the lookup of the physical extruder of a filament. *)
Record GCodeConfig := {
  gcode_flavor : GCodeFlavor;
  use_relative_e_distances : bool;
  use_firmware_retraction : bool;
  single_extruder_multi_material : bool;
  accel_to_decel_enable : bool;
  accel_to_decel_factor : Q;
  travel_speed : nat -> Q;
  travel_speed_z : nat -> Q;
  retract_lift_above : nat -> Q;
  retract_lift_below : nat -> Q;
  z_hop : nat -> Q;
  prime_tower_lift_height : Q;
  prime_tower_lift_speed : Q;
  retraction_length : nat -> Q;
  retract_before_wipe : nat -> Q;
  retract_restart_extra : nat -> Q;
  retract_length_toolchange : nat -> Q;
  retract_restart_extra_toolchange : nat -> Q;
  retract_speed : nat -> Q;
  deretract_speed : nat -> Q;
  filament_extruder : nat -> nat;
  get_extruder_index : nat -> nat
}.

(** Modelled from the spec: the class [Extruder] (Extruder.hpp, Extruder.cpp)
    is not among the sources.  Section 3 and 4.2 of the specification give
    its state and its four operations. *)
Record Extruder := {
  id : nat;
  E : Q;
  retracted : Q;
  restart_extra : Q
}.

Definition new_Extruder (filament_id : nat) : Extruder :=
  {| id := filament_id; E := 0; retracted := 0; restart_extra := 0 |}.

Definition extruder_id (cfg : GCodeConfig) (e : Extruder) : nat :=
  filament_extruder cfg (id e).

(** Modelled from the spec: [extrude(delta)] adds delta to cumulative E and
    returns the new E. *)
Definition Extruder_extrude (dE : Q) (e : Extruder) : Q * Extruder :=
  let e' := {| id := id e; E := E e + dE; retracted := retracted e;
               restart_extra := restart_extra e |} in
  (E e', e').

(** Modelled from the spec: [retract(length, restart_extra)]: if the tool is
    not already retracted by at least [length], decreases E by the
    outstanding amount and records the restart-extra amount; returns the E
    delta applied, zero if already sufficiently retracted. *)
Definition Extruder_retract (length restart : Q) (e : Extruder) : Q * Extruder :=
  let to_retract := Qmax 0 (length - retracted e) in
  if Qlt_bool 0 to_retract then
    (to_retract,
     {| id := id e; E := E e - to_retract; retracted := retracted e + to_retract;
        restart_extra := restart |})
  else (to_retract, e).

(** Modelled from the spec: [unretract()] returns E to its pre-retraction
    value plus restart-extra and returns the applied delta, zero if not
    currently retracted. *)
Definition Extruder_unretract (e : Extruder) : Q * Extruder :=
  let dE := retracted e + restart_extra e in
  (dE, {| id := id e; E := E e + dE; retracted := 0; restart_extra := 0 |}).

(** Modelled from the spec: [reset_E()] zeroes cumulative E. *)
Definition Extruder_reset_E (e : Extruder) : Extruder :=
  {| id := id e; E := 0; retracted := retracted e; restart_extra := restart_extra e |}.

(** The members of [GCodeWriter] the modelled methods read or write.  A
    pointer into [m_filament_extruders] is the index of the element. *)
Record GCodeWriter := {
  config : GCodeConfig;
  multiple_extruders : bool;
  m_is_bbl_printer : bool;
  m_single_extruder_multi_material : bool;
  m_filament_extruders : list Extruder;
  m_curr_extruder_id : Z;
  m_curr_filament_extruder : nat -> option nat;
  m_acceleration : N;
  m_travel_accelerations : list N;
  m_first_layer_travel_accelerations : list N;
  m_is_first_layer : bool;
  m_last_acceleration : N;
  m_max_acceleration : N;
  m_last_bed_temperature : Z;
  m_last_bed_temperature_reached : bool;
  m_pos : Vec3d;
  m_lifted : Q;
  m_to_lift : Q;
  m_to_lift_type : LiftType;
  m_x_offset : Q;
  m_y_offset : Q;
  m_is_current_position_clear : bool
}.

Definition full_gcode_comment : bool := false.

Local Open Scope string_scope.

Definition nl : string := String "010" "".

(** Field updates. *)
Definition set_filament_extruders (v : list Extruder) (w : GCodeWriter) : GCodeWriter :=
  {| config := config w; multiple_extruders := multiple_extruders w;
     m_is_bbl_printer := m_is_bbl_printer w;
     m_single_extruder_multi_material := m_single_extruder_multi_material w;
     m_filament_extruders := v;
     m_curr_extruder_id := m_curr_extruder_id w;
     m_curr_filament_extruder := m_curr_filament_extruder w;
     m_acceleration := m_acceleration w;
     m_travel_accelerations := m_travel_accelerations w;
     m_first_layer_travel_accelerations := m_first_layer_travel_accelerations w;
     m_is_first_layer := m_is_first_layer w;
     m_last_acceleration := m_last_acceleration w;
     m_max_acceleration := m_max_acceleration w;
     m_last_bed_temperature := m_last_bed_temperature w;
     m_last_bed_temperature_reached := m_last_bed_temperature_reached w;
     m_pos := m_pos w; m_lifted := m_lifted w; m_to_lift := m_to_lift w;
     m_to_lift_type := m_to_lift_type w;
     m_x_offset := m_x_offset w; m_y_offset := m_y_offset w;
     m_is_current_position_clear := m_is_current_position_clear w |}.

Definition set_multiple_extruders (v : bool) (w : GCodeWriter) : GCodeWriter :=
  {| config := config w; multiple_extruders := v;
     m_is_bbl_printer := m_is_bbl_printer w;
     m_single_extruder_multi_material := m_single_extruder_multi_material w;
     m_filament_extruders := m_filament_extruders w;
     m_curr_extruder_id := m_curr_extruder_id w;
     m_curr_filament_extruder := m_curr_filament_extruder w;
     m_acceleration := m_acceleration w;
     m_travel_accelerations := m_travel_accelerations w;
     m_first_layer_travel_accelerations := m_first_layer_travel_accelerations w;
     m_is_first_layer := m_is_first_layer w;
     m_last_acceleration := m_last_acceleration w;
     m_max_acceleration := m_max_acceleration w;
     m_last_bed_temperature := m_last_bed_temperature w;
     m_last_bed_temperature_reached := m_last_bed_temperature_reached w;
     m_pos := m_pos w; m_lifted := m_lifted w; m_to_lift := m_to_lift w;
     m_to_lift_type := m_to_lift_type w;
     m_x_offset := m_x_offset w; m_y_offset := m_y_offset w;
     m_is_current_position_clear := m_is_current_position_clear w |}.

Definition set_current (eid : Z) (tbl : nat -> option nat) (w : GCodeWriter) : GCodeWriter :=
  {| config := config w; multiple_extruders := multiple_extruders w;
     m_is_bbl_printer := m_is_bbl_printer w;
     m_single_extruder_multi_material := m_single_extruder_multi_material w;
     m_filament_extruders := m_filament_extruders w;
     m_curr_extruder_id := eid;
     m_curr_filament_extruder := tbl;
     m_acceleration := m_acceleration w;
     m_travel_accelerations := m_travel_accelerations w;
     m_first_layer_travel_accelerations := m_first_layer_travel_accelerations w;
     m_is_first_layer := m_is_first_layer w;
     m_last_acceleration := m_last_acceleration w;
     m_max_acceleration := m_max_acceleration w;
     m_last_bed_temperature := m_last_bed_temperature w;
     m_last_bed_temperature_reached := m_last_bed_temperature_reached w;
     m_pos := m_pos w; m_lifted := m_lifted w; m_to_lift := m_to_lift w;
     m_to_lift_type := m_to_lift_type w;
     m_x_offset := m_x_offset w; m_y_offset := m_y_offset w;
     m_is_current_position_clear := m_is_current_position_clear w |}.

Definition set_m_acceleration (v : N) (w : GCodeWriter) : GCodeWriter :=
  {| config := config w; multiple_extruders := multiple_extruders w;
     m_is_bbl_printer := m_is_bbl_printer w;
     m_single_extruder_multi_material := m_single_extruder_multi_material w;
     m_filament_extruders := m_filament_extruders w;
     m_curr_extruder_id := m_curr_extruder_id w;
     m_curr_filament_extruder := m_curr_filament_extruder w;
     m_acceleration := v;
     m_travel_accelerations := m_travel_accelerations w;
     m_first_layer_travel_accelerations := m_first_layer_travel_accelerations w;
     m_is_first_layer := m_is_first_layer w;
     m_last_acceleration := m_last_acceleration w;
     m_max_acceleration := m_max_acceleration w;
     m_last_bed_temperature := m_last_bed_temperature w;
     m_last_bed_temperature_reached := m_last_bed_temperature_reached w;
     m_pos := m_pos w; m_lifted := m_lifted w; m_to_lift := m_to_lift w;
     m_to_lift_type := m_to_lift_type w;
     m_x_offset := m_x_offset w; m_y_offset := m_y_offset w;
     m_is_current_position_clear := m_is_current_position_clear w |}.

Definition set_last_acceleration (v : N) (w : GCodeWriter) : GCodeWriter :=
  {| config := config w; multiple_extruders := multiple_extruders w;
     m_is_bbl_printer := m_is_bbl_printer w;
     m_single_extruder_multi_material := m_single_extruder_multi_material w;
     m_filament_extruders := m_filament_extruders w;
     m_curr_extruder_id := m_curr_extruder_id w;
     m_curr_filament_extruder := m_curr_filament_extruder w;
     m_acceleration := m_acceleration w;
     m_travel_accelerations := m_travel_accelerations w;
     m_first_layer_travel_accelerations := m_first_layer_travel_accelerations w;
     m_is_first_layer := m_is_first_layer w;
     m_last_acceleration := v;
     m_max_acceleration := m_max_acceleration w;
     m_last_bed_temperature := m_last_bed_temperature w;
     m_last_bed_temperature_reached := m_last_bed_temperature_reached w;
     m_pos := m_pos w; m_lifted := m_lifted w; m_to_lift := m_to_lift w;
     m_to_lift_type := m_to_lift_type w;
     m_x_offset := m_x_offset w; m_y_offset := m_y_offset w;
     m_is_current_position_clear := m_is_current_position_clear w |}.

Definition set_last_bed (t : Z) (reached : bool) (w : GCodeWriter) : GCodeWriter :=
  {| config := config w; multiple_extruders := multiple_extruders w;
     m_is_bbl_printer := m_is_bbl_printer w;
     m_single_extruder_multi_material := m_single_extruder_multi_material w;
     m_filament_extruders := m_filament_extruders w;
     m_curr_extruder_id := m_curr_extruder_id w;
     m_curr_filament_extruder := m_curr_filament_extruder w;
     m_acceleration := m_acceleration w;
     m_travel_accelerations := m_travel_accelerations w;
     m_first_layer_travel_accelerations := m_first_layer_travel_accelerations w;
     m_is_first_layer := m_is_first_layer w;
     m_last_acceleration := m_last_acceleration w;
     m_max_acceleration := m_max_acceleration w;
     m_last_bed_temperature := t;
     m_last_bed_temperature_reached := reached;
     m_pos := m_pos w; m_lifted := m_lifted w; m_to_lift := m_to_lift w;
     m_to_lift_type := m_to_lift_type w;
     m_x_offset := m_x_offset w; m_y_offset := m_y_offset w;
     m_is_current_position_clear := m_is_current_position_clear w |}.

(** The motion members: position, applied lift, pending lift and its style,
    and the position-known flag. *)
Definition set_motion (p : Vec3d) (lifted to_lift : Q) (ty : LiftType) (clear : bool)
  (w : GCodeWriter) : GCodeWriter :=
  {| config := config w; multiple_extruders := multiple_extruders w;
     m_is_bbl_printer := m_is_bbl_printer w;
     m_single_extruder_multi_material := m_single_extruder_multi_material w;
     m_filament_extruders := m_filament_extruders w;
     m_curr_extruder_id := m_curr_extruder_id w;
     m_curr_filament_extruder := m_curr_filament_extruder w;
     m_acceleration := m_acceleration w;
     m_travel_accelerations := m_travel_accelerations w;
     m_first_layer_travel_accelerations := m_first_layer_travel_accelerations w;
     m_is_first_layer := m_is_first_layer w;
     m_last_acceleration := m_last_acceleration w;
     m_max_acceleration := m_max_acceleration w;
     m_last_bed_temperature := m_last_bed_temperature w;
     m_last_bed_temperature_reached := m_last_bed_temperature_reached w;
     m_pos := p; m_lifted := lifted; m_to_lift := to_lift;
     m_to_lift_type := ty;
     m_x_offset := m_x_offset w; m_y_offset := m_y_offset w;
     m_is_current_position_clear := clear |}.

Definition set_pos (p : Vec3d) (w : GCodeWriter) : GCodeWriter :=
  set_motion p (m_lifted w) (m_to_lift w) (m_to_lift_type w) (m_is_current_position_clear w) w.
Definition set_pos_xy (x y : Q) (w : GCodeWriter) : GCodeWriter :=
  set_pos {| x3 := x; y3 := y; z3 := z3 (m_pos w) |} w.
Definition set_pos_z (z : Q) (w : GCodeWriter) : GCodeWriter :=
  set_pos {| x3 := x3 (m_pos w); y3 := y3 (m_pos w); z3 := z |} w.
Definition set_lifted (v : Q) (w : GCodeWriter) : GCodeWriter :=
  set_motion (m_pos w) v (m_to_lift w) (m_to_lift_type w) (m_is_current_position_clear w) w.
Definition set_to_lift (v : Q) (w : GCodeWriter) : GCodeWriter :=
  set_motion (m_pos w) (m_lifted w) v (m_to_lift_type w) (m_is_current_position_clear w) w.
Definition set_to_lift_type (ty : LiftType) (w : GCodeWriter) : GCodeWriter :=
  set_motion (m_pos w) (m_lifted w) (m_to_lift w) ty (m_is_current_position_clear w) w.
Definition set_current_position_clear (b : bool) (w : GCodeWriter) : GCodeWriter :=
  set_motion (m_pos w) (m_lifted w) (m_to_lift w) (m_to_lift_type w) b w.
Definition is_current_position_clear (w : GCodeWriter) : bool :=
  m_is_current_position_clear w.

(** Sequencing of methods that may hit undefined behaviour. *)
Notation "' p <- c ;; k" := (match c with Some p => k | None => None end)
  (at level 61, p pattern, c at next level, right associativity).

(** Replace the element at index [i] of a vector. *)
Fixpoint replace_nth {A : Type} (i : nat) (v : A) (l : list A) : list A :=
  match l, i with
  | [], _ => []
  | _ :: t, O => v :: t
  | h :: t, S j => h :: replace_nth j v t
  end.

(** Modelled from the spec: [filament()] is declared in GCodeWriter.hpp.  The
    current tool is the entry of [m_curr_filament_extruder] selected by
    [m_curr_extruder_id], as [reset_e] reads it; there is none while
    [m_curr_extruder_id] is -1. *)
Definition filament (w : GCodeWriter) : option nat :=
  if (m_curr_extruder_id w =? -1)%Z then None
  else m_curr_filament_extruder w (Z.to_nat (m_curr_extruder_id w)).

(** [*p] for a pointer to an extruder; [None] for a null pointer. *)
Definition deref (w : GCodeWriter) (p : option nat) : option (nat * Extruder) :=
  match p with
  | Some i => match nth_error (m_filament_extruders w) i with
              | Some e => Some (i, e)
              | None => None
              end
  | None => None
  end.

Definition store (i : nat) (e : Extruder) (w : GCodeWriter) : GCodeWriter :=
  set_filament_extruders (replace_nth i e (m_filament_extruders w)) w.

(* ------------------------------------------------------------------ *)
(** ** Tool set, temperatures, acceleration *)

Definition FLAVOR_IS (w : GCodeWriter) (val : GCodeFlavor) : bool :=
  flavor_eqb (gcode_flavor (config w)) val.
Definition FLAVOR_IS_NOT (w : GCodeWriter) (val : GCodeFlavor) : bool :=
  negb (flavor_eqb (gcode_flavor (config w)) val).

(** [std::sort] on the extruder ids. *)
Fixpoint insert_sorted (x : nat) (l : list nat) : list nat :=
  match l with
  | [] => [x]
  | y :: r => if (x <=? y)%nat then x :: l else y :: insert_sorted x r
  end.

Definition std_sort (l : list nat) : list nat := fold_right insert_sorted [] l.

(** [*std::max_element]; undefined on an empty range. *)
Definition max_element (l : list nat) : option nat :=
  match l with
  | [] => None
  | x :: r => Some (fold_left Nat.max r x)
  end.

Definition set_extruders (extruder_ids : list nat) (w : GCodeWriter) : option GCodeWriter :=
  let extruder_ids := std_sort extruder_ids in
  let w := set_filament_extruders (map new_Extruder extruder_ids) w in
  ' m <- max_element extruder_ids ;;
  Some (set_multiple_extruders (0 <? m)%nat w).

(** Modelled from the spec: [Slic3r::lower_bound_by_predicate] is declared in
    libslic3r.h, outside the sources; it is the binary search of
    [std::lower_bound] with the comparison given as a predicate.  [first]
    and [count] are the loop variables, the fuel bounds the iterations. *)
Fixpoint lower_bound_loop {A : Type} (fuel : nat) (lower_than_key : A -> bool)
  (l : list A) (first count : nat) : nat :=
  match fuel with
  | O => first
  | S fuel' =>
      if (count =? 0)%nat then first
      else
        let step := (count / 2)%nat in
        match nth_error l (first + step) with
        | Some x =>
            if lower_than_key x
            then lower_bound_loop fuel' lower_than_key l (first + step + 1) (count - (step + 1))
            else lower_bound_loop fuel' lower_than_key l first step
        | None => first
        end
  end.

Definition lower_bound_by_predicate {A : Type} (l : list A) (lower_than_key : A -> bool) : nat :=
  lower_bound_loop (S (List.length l)) lower_than_key l 0 (List.length l).

Definition need_toolchange (filament_id : nat) (w : GCodeWriter) : bool :=
  match deref w (filament w) with
  | None => true
  | Some (_, e) => negb (id e =? filament_id)%nat
  end.

Definition reset_e (force : bool) (w : GCodeWriter) : option (string * GCodeWriter) :=
  if FLAVOR_IS w gcfMach3 || FLAVOR_IS w gcfMakerWare || FLAVOR_IS w gcfSailfish
  then Some ("", w)
  else
    let tail (w : GCodeWriter) :=
      if negb (use_relative_e_distances (config w)) then
        Some ("G92 E0" ++ (if full_gcode_comment then " ; reset extrusion distance" else "") ++ nl, w)
      else Some ("", w) in
    match filament w with
    | Some p =>
        ' (i, e) <- deref w (Some p) ;;
        if Qeq_bool (E e) 0 && negb force then Some ("", w)
        else tail (store i (Extruder_reset_E e) w)
    | None => tail w
    end.

Definition toolchange_prefix (w : GCodeWriter) : string :=
  if FLAVOR_IS w gcfMakerWare then "M135 T"
  else if FLAVOR_IS w gcfSailfish then "M108 T" else "T".

Definition toolchange (filament_id : nat) (w : GCodeWriter) : option (string * GCodeWriter) :=
  let filament_extruder_iter :=
    lower_bound_by_predicate (m_filament_extruders w) (fun e => (id e <? filament_id)%nat) in
  ' (_, e) <- deref w (Some filament_extruder_iter) ;;
  let eid := extruder_id (config w) e in
  let w := set_current (Z.of_nat eid)
             (fun k => if (k =? eid)%nat then Some filament_extruder_iter
                       else m_curr_filament_extruder w k) w in
  if multiple_extruders w then
    let cmd :=
      (if m_is_bbl_printer w then "M1020 S" ++ show_nat filament_id
       else toolchange_prefix w ++ show_nat filament_id)
      ++ (if full_gcode_comment then " ; change extruder" else "") ++ nl in
    ' (r, w) <- reset_e true w ;;
    Some (cmd ++ r, w)
  else Some ("", w).

Definition set_extruder (filament_id : nat) (w : GCodeWriter) : option (string * GCodeWriter) :=
  let filament_ext_it :=
    lower_bound_by_predicate (m_filament_extruders w) (fun e => (id e <? filament_id)%nat) in
  ' (_, _) <- deref w (Some filament_ext_it) ;;
  if need_toolchange filament_id w then toolchange filament_id w else Some ("", w).

Definition preamble (w : GCodeWriter) : option (string * GCodeWriter) :=
  let g1 := if FLAVOR_IS_NOT w gcfMakerWare then "G90" ++ nl ++ "G21" ++ nl else "" in
  if FLAVOR_IS w gcfRepRapSprinter || FLAVOR_IS w gcfRepRapFirmware
     || FLAVOR_IS w gcfMarlinLegacy || FLAVOR_IS w gcfMarlinFirmware
     || FLAVOR_IS w gcfTeacup || FLAVOR_IS w gcfRepetier
     || FLAVOR_IS w gcfSmoothie || FLAVOR_IS w gcfKlipper
  then
    let g2 := if use_relative_e_distances (config w)
              then "M83 ; use relative distances for extrusion" ++ nl
              else "M82 ; use absolute distances for extrusion" ++ nl in
    ' (r, w) <- reset_e true w ;;
    Some (g1 ++ g2 ++ r, w)
  else Some (g1, w).

(** [set_temperature] is a [const] method: it reads the writer and returns
    text. *)
Definition set_temperature (temperature : N) (wait : bool) (tool : Z) (w : GCodeWriter)
  : string :=
  if wait && (FLAVOR_IS w gcfMakerWare || FLAVOR_IS w gcfSailfish) then ""
  else
    let '(code, comment) :=
      if wait && FLAVOR_IS_NOT w gcfTeacup && FLAVOR_IS_NOT w gcfRepRapFirmware
      then ("M109", "set nozzle temperature and wait for it to be reached")
      else (if FLAVOR_IS w gcfRepRapFirmware then "G10" else "M104",
            "set nozzle temperature") in
    let multiple_tools := multiple_extruders w && negb (m_single_extruder_multi_material w) in
    code ++ " "
    ++ (if FLAVOR_IS w gcfMach3 || FLAVOR_IS w gcfMachinekit then "P" else "S")
    ++ show_N temperature
    ++ (if negb (tool =? -1)%Z
           && (multiple_tools || FLAVOR_IS w gcfMakerWare || FLAVOR_IS w gcfSailfish)
        then (if FLAVOR_IS w gcfRepRapFirmware then " P" else " T") ++ show_Z tool
        else "")
    ++ " ; " ++ comment ++ nl
    ++ (if (FLAVOR_IS w gcfTeacup || FLAVOR_IS w gcfRepRapFirmware) && wait
        then "M116 ; wait for temperature to be reached" ++ nl else "").

Definition set_bed_temperature (temperature : Z) (wait : bool) (w : GCodeWriter)
  : string * GCodeWriter :=
  if (temperature =? m_last_bed_temperature w)%Z
     && (negb wait || m_last_bed_temperature_reached w)
  then ("", w)
  else
    let w := set_last_bed temperature wait w in
    let '(code, comment) :=
      if wait then ("M190", "set bed temperature and wait for it to be reached")
      else ("M140", "set bed temperature") in
    (code ++ " S" ++ show_Z temperature ++ " ; " ++ comment ++ nl, w).

Definition set_chamber_temperature (temperature : Z) (wait : bool) (w : GCodeWriter)
  : string * GCodeWriter :=
  if wait then
    ("M106 P2 S255 " ++ nl
     ++ "M191 S" ++ show_Z temperature ++ " ;"
     ++ "set chamber_temperature and wait for it to be reached" ++ nl
     ++ "M106 P2 S0 " ++ nl, w)
  else
    ("M141" ++ " S" ++ show_Z temperature ++ ";" ++ "set chamber_temperature" ++ nl, w).

Definition set_acceleration (acceleration : N) (w : GCodeWriter) : GCodeWriter :=
  set_m_acceleration acceleration w.

Definition reset_last_acceleration (w : GCodeWriter) : GCodeWriter :=
  set_last_acceleration 0 w.

(** What is streamed into an [ostringstream]: literal text, an
    [unsigned int], or a [double]. *)
Inductive piece :=
| Txt (s : string)
| UInt (n : N)
| Dbl (q : Q).

Section WithLibm.
Context {libm : Libm}.

Definition render_piece (p : piece) : string :=
  match p with
  | Txt s => s
  | UInt n => show_N n
  | Dbl q => show_double q
  end.

Definition render (ps : list piece) : string :=
  fold_right (fun p s => render_piece p ++ s) "" ps.

(** The clamp at the head of [set_acceleration_impl]. *)
Definition clamp_acceleration (acceleration : N) (w : GCodeWriter) : N :=
  if (0 <? m_max_acceleration w)%N && (m_max_acceleration w <? acceleration)%N
  then m_max_acceleration w else acceleration.

(** [set_acceleration_impl], with the stream kept as a list of pieces. *)
Definition set_acceleration_pieces (acceleration : N) (w : GCodeWriter)
  : list piece * GCodeWriter :=
  let acceleration := clamp_acceleration acceleration w in
  if (acceleration =? 0)%N || (acceleration =? m_last_acceleration w)%N then ([], w)
  else
    let w := set_last_acceleration acceleration w in
    let body :=
      (if FLAVOR_IS w gcfRepetier then
         [Txt "M201 X"; UInt acceleration; Txt " Y"; UInt acceleration]
         ++ (if full_gcode_comment then [Txt " ; adjust acceleration"] else [])
         ++ [Txt nl; Txt "M202 X"; UInt acceleration; Txt " Y"; UInt acceleration]
       else if FLAVOR_IS w gcfRepRapFirmware then
         [Txt "M204 P"; UInt acceleration]
       else if FLAVOR_IS w gcfMarlinFirmware then
         [Txt "M204 P"; UInt acceleration]
       else if FLAVOR_IS w gcfKlipper && accel_to_decel_enable (config w) then
         [Txt "SET_VELOCITY_LIMIT ACCEL_TO_DECEL=";
          Dbl (inject_Z (Z.of_N acceleration) * accel_to_decel_factor (config w) / 100)]
         ++ (if full_gcode_comment then [Txt " ; adjust ACCEL_TO_DECEL"] else [])
         ++ [Txt (nl ++ "M204 S")%string; UInt acceleration]
       else
         [Txt "M204 S"; UInt acceleration])%list in
    ((body ++ (if full_gcode_comment then [Txt " ; adjust acceleration"] else [])
      ++ [Txt nl])%list, w).

Definition set_acceleration_impl (acceleration : N) (w : GCodeWriter)
  : string * GCodeWriter :=
  let '(ps, w) := set_acceleration_pieces acceleration w in (render ps, w).

Definition set_extrude_acceleration (w : GCodeWriter) : string * GCodeWriter :=
  set_acceleration_impl (m_acceleration w) w.

Definition set_travel_acceleration (w : GCodeWriter) : option (string * GCodeWriter) :=
  let travel_accelerations :=
    if m_is_first_layer w then m_first_layer_travel_accelerations w
    else m_travel_accelerations w in
  match travel_accelerations with
  | [] => Some ("", w)
  | _ =>
      match filament w with
      | None => Some ("", w)
      | Some p =>
          ' (_, cur_filament) <- deref w (Some p) ;;
          ' a <- nth_error travel_accelerations (extruder_id (config w) cur_filament) ;;
          Some (set_acceleration_impl a w)
      end
  end.

(* ------------------------------------------------------------------ *)
(** ** Position and lift *)

Definition slope_threshold : Q := 3 * PI / 180.

(** [Vec2d::norm] and [Vec2d::normalized] of Eigen. *)
Definition norm (v : Vec2d) : Q := sqrt_d (x2 v * x2 v + y2 v * y2 v).
Definition scale (k : Q) (v : Vec2d) : Vec2d := {| x2 := k * x2 v; y2 := k * y2 v |}.
Definition normalized (v : Vec2d) : Vec2d :=
  if Qlt_bool 0 (x2 v * x2 v + y2 v * y2 v) then scale (/ norm v) v else v.

(** The travel feedrate of the current filament, as every move reads it:
    [config.travel_speed.get_at(get_extruder_index(config, filament()->id())) * 60.0]. *)
Definition travel_feedrate (w : GCodeWriter) : option Q :=
  ' (_, e) <- deref w (filament w) ;;
  Some (travel_speed (config w) (get_extruder_index (config w) (id e)) * 60).

(** The two differences are exact here; the code compares with the doubles
    they round to. *)
Definition will_move_z (z : Q) (w : GCodeWriter) : bool :=
  if Qlt_bool 0 (m_lifted w) then
    let nominal_z := z3 (m_pos w) - m_lifted w in
    if Qle_bool nominal_z z && Qle_bool z (z3 (m_pos w)) then false else true
  else if Qlt_bool (Qabs (z3 (m_pos w) - z)) EPSILON then false
  else true.

Definition travel_to_xy (point : Vec2d) (comment : string) (w : GCodeWriter)
  : option (string * GCodeWriter) :=
  let w := set_pos_xy (x2 point) (y2 point) w in
  let w := set_current_position_clear true w in
  let point_on_plate := {| x2 := x2 point - m_x_offset w; y2 := y2 point - m_y_offset w |} in
  ' feed <- travel_feedrate w ;;
  let f := emit_comment full_gcode_comment comment
             (emit_f feed (emit_xy point_on_plate GCodeG1Formatter)) in
  ' (acc, w) <- set_travel_acceleration w ;;
  Some (acc ++ fmt_string f, w).

(** The speed of a Z move, shared by [_travel_to_z] and [_spiral_travel_to_z]. *)
Definition z_move_speed (tool_change : bool) (w : GCodeWriter) : option Q :=
  ' (_, e) <- deref w (filament w) ;;
  let idx := get_extruder_index (config w) (id e) in
  let speed := travel_speed_z (config w) idx in
  let speed := if Qeq_bool speed 0 then travel_speed (config w) idx else speed in
  let speed := if tool_change && Qlt_bool 0 (prime_tower_lift_speed (config w))
               then prime_tower_lift_speed (config w) else speed in
  Some speed.

Definition _travel_to_z (z : Q) (comment : string) (tool_change : bool) (w : GCodeWriter)
  : option (string * GCodeWriter) :=
  let w := set_pos_z z w in
  ' speed <- z_move_speed tool_change w ;;
  let f := emit_comment full_gcode_comment comment
             (emit_f (speed * 60) (emit_z z GCodeG1Formatter)) in
  ' (acc, w) <- set_travel_acceleration w ;;
  Some (acc ++ fmt_string f, w).

Definition _spiral_travel_to_z (z : Q) (ij_offset : Vec2d) (comment : string)
  (tool_change : bool) (w : GCodeWriter) : option (string * GCodeWriter) :=
  let w := set_pos_z z w in
  ' speed <- z_move_speed tool_change w ;;
  let output := "G17" ++ nl in
  let f := emit_comment full_gcode_comment comment
             (emit_f (speed * 60)
               (emit_string " P1 " (emit_ij ij_offset (emit_z z (GCodeG2G3Formatter true))))) in
  ' (acc, w) <- set_travel_acceleration w ;;
  Some (acc ++ output ++ fmt_string f, w).

(** The lift a retraction at the current height asks for: the head of
    [lazy_lift] and of [eager_lift]. *)
Definition target_lift (tool_change : bool) (w : GCodeWriter) : option Q :=
  ' (_, e) <- deref w (filament w) ;;
  let extruder_id := extruder_id (config w) e in
  let filament_id := id e in
  let above := retract_lift_above (config w) extruder_id in
  let below := retract_lift_below (config w) extruder_id in
  if Qle_bool above (z3 (m_pos w)) && Qle_bool (z3 (m_pos w)) below then
    if tool_change && Qlt_bool 0 (prime_tower_lift_height (config w))
    then Some (prime_tower_lift_height (config w))
    else Some (z_hop (config w) filament_id)
  else Some 0.

(** The height [m_pos.z + target_lift] of the spiral-vase move is the exact
    sum here; the code moves to the double it rounds to. *)
Definition lazy_lift (lift_type : LiftType) (spiral_vase tool_change : bool) (w : GCodeWriter)
  : option (string * GCodeWriter) :=
  ' target_lift <- target_lift tool_change w ;;
  if Qeq_bool (m_lifted w) 0 && Qeq_bool (m_to_lift w) 0 && Qlt_bool 0 target_lift then
    if spiral_vase then
      let w := set_lifted target_lift w in
      _travel_to_z (z3 (m_pos w) + target_lift) "lift Z" tool_change w
    else
      let w := set_to_lift target_lift w in
      let w := set_to_lift_type lift_type w in
      Some ("", w)
  else Some ("", w).

(** [to_lift] and the height [m_pos.z + to_lift] are exact here; the code
    rounds each to a double. *)
Definition eager_lift (type : LiftType) (tool_change : bool) (w : GCodeWriter)
  : option (string * GCodeWriter) :=
  ' target_lift <- target_lift tool_change w ;;
  let to_lift := target_lift - m_lifted w in
  if Qlt_bool to_lift EPSILON then Some ("", w)
  else
    ' (lift_move, w) <-
      (if LiftType_eqb type SpiralLift && is_current_position_clear w then
         if Qlt_bool 0 to_lift then
           let radius := to_lift / (2 * PI * atan_d slope_threshold) in
           let ij_offset := {| x2 := radius; y2 := 0 |} in
           _spiral_travel_to_z (z3 (m_pos w) + to_lift) ij_offset "spiral lift Z" tool_change w
         else Some ("", w)
       else if Qlt_bool 0 to_lift then
         _travel_to_z (z3 (m_pos w) + to_lift) "normal lift Z" tool_change w
       else Some ("", w)) ;;
    let w := set_lifted target_lift w in
    let w := set_to_lift 0 w in
    Some (lift_move, w).

Definition travel_to_xyz (point : Vec3d) (comment : string) (w : GCodeWriter)
  : option (string * GCodeWriter) :=
  let dest_point := point in
  if Qlt_bool EPSILON (Qabs (m_to_lift w)) then
    let '(w, dest_point) :=
      if (negb (is_current_position_clear w) || negb (Vec3d_eqb (m_pos w) dest_point))
         && Qlt_bool (z3 point) (m_to_lift w + z3 (m_pos w))
      then (set_lifted (m_to_lift w + z3 (m_pos w) - z3 point) w,
            {| x3 := x3 dest_point; y3 := y3 dest_point;
               z3 := m_to_lift w + z3 (m_pos w) |})
      else (w, dest_point) in
    let w := set_to_lift 0 w in
    let source := {| x3 := x3 (m_pos w) - m_x_offset w; y3 := y3 (m_pos w) - m_y_offset w;
                     z3 := z3 (m_pos w) |} in
    let target := {| x3 := x3 dest_point - m_x_offset w; y3 := y3 dest_point - m_y_offset w;
                     z3 := z3 dest_point |} in
    let delta := {| x3 := x3 target - x3 source; y3 := y3 target - y3 source;
                    z3 := z3 target - z3 source |} in
    let delta_no_z := {| x2 := x3 delta; y2 := y3 delta |} in
    ' (slop_move, w) <-
      (if Qlt_bool 0 (z3 delta) && negb (Qeq_bool (norm delta_no_z) 0) then
         if LiftType_eqb (m_to_lift_type w) SpiralLift && is_current_position_clear w then
           let radius := z3 delta / (2 * PI * atan_d slope_threshold) in
           let ij_offset := scale radius (normalized delta_no_z) in
           let ij_offset := {| x2 := - y2 ij_offset; y2 := x2 ij_offset |} in
           _spiral_travel_to_z (z3 target) ij_offset "spiral lift Z" false w
         else if LiftType_eqb (m_to_lift_type w) SlopeLift
                 && is_current_position_clear w
                 && Qlt_bool (atan2_d (z3 delta) (norm delta_no_z)) slope_threshold then
           let temp := scale (z3 delta / tan_d slope_threshold) (normalized delta_no_z) in
           let slope_top_point := {| x3 := x2 temp + x3 source; y3 := y2 temp + y3 source;
                                     z3 := z3 delta + z3 source |} in
           ' feed <- travel_feedrate w ;;
           Some (fmt_string (emit_comment full_gcode_comment "slope lift Z"
                               (emit_f feed (emit_xyz slope_top_point GCodeG1Formatter))), w)
         else if LiftType_eqb (m_to_lift_type w) NormalLift then
           _travel_to_z (z3 target) "normal lift Z" false w
         else Some ("", w)
       else Some ("", w)) ;;
    ' (xy_z_move, w) <-
      (if is_current_position_clear w then
         ' feed <- travel_feedrate w ;;
         Some (fmt_string (emit_comment full_gcode_comment comment
                             (emit_f feed (emit_xyz target GCodeG1Formatter))), w)
       else
         ' feed <- travel_feedrate w ;;
         let s := fmt_string (emit_comment full_gcode_comment comment
                                (emit_f feed (emit_xy (to_2d target) GCodeG1Formatter))) in
         ' (zs, w) <- _travel_to_z (z3 target) comment false w ;;
         Some (s ++ zs, w)) ;;
    let w := set_pos dest_point w in
    let w := set_current_position_clear true w in
    ' (acc, w) <- set_travel_acceleration w ;;
    Some (acc ++ slop_move ++ xy_z_move, w)
  else if negb (will_move_z (z3 point) w) then
    let nominal_z := z3 (m_pos w) - m_lifted w in
    let w := set_lifted (m_lifted w - (z3 point - nominal_z)) w in
    let w := if Qlt_bool (Qabs (m_lifted w)) EPSILON then set_lifted 0 w else w in
    let w := set_current_position_clear true w in
    travel_to_xy (to_2d point) "" w
  else
    let w := set_lifted 0 w in
    let point_on_plate := {| x3 := x3 dest_point - m_x_offset w;
                             y3 := y3 dest_point - m_y_offset w; z3 := z3 dest_point |} in
    ' (out_string, w) <-
      (if negb (is_current_position_clear w) then
         ' feed <- travel_feedrate w ;;
         let s := fmt_string (emit_comment full_gcode_comment comment
                                (emit_f feed (emit_xy (to_2d point_on_plate) GCodeG1Formatter))) in
         ' (zs, w) <- _travel_to_z (z3 point_on_plate) comment false w ;;
         Some (s ++ zs, w)
       else
         ' feed <- travel_feedrate w ;;
         Some (fmt_string (emit_comment full_gcode_comment comment
                             (emit_f feed (emit_xyz point_on_plate GCodeG1Formatter))), w)) ;;
    let w := set_pos dest_point w in
    let w := set_current_position_clear true w in
    ' (acc, w) <- set_travel_acceleration w ;;
    Some (acc ++ out_string, w).

(** The branch is the one the exact [will_move_z] takes, and [m_lifted] is
    lowered by exact differences. *)
Definition travel_to_z (z : Q) (comment : string) (w : GCodeWriter)
  : option (string * GCodeWriter) :=
  if negb (will_move_z z w) then
    let nominal_z := z3 (m_pos w) - m_lifted w in
    let w := set_lifted (m_lifted w - (z - nominal_z)) w in
    let w := if Qlt_bool (Qabs (m_lifted w)) EPSILON then set_lifted 0 w else w in
    Some ("", w)
  else
    let w := set_lifted 0 w in
    ' (acc, w) <- set_travel_acceleration w ;;
    ' (s, w) <- _travel_to_z z comment false w ;;
    Some (acc ++ s, w).

Definition unlift (w : GCodeWriter) : option (string * GCodeWriter) :=
  ' (gcode, w) <-
    (if Qlt_bool 0 (m_lifted w) then
       ' (s, w) <- _travel_to_z (z3 (m_pos w) - m_lifted w) "restore layer Z" false w ;;
       Some (s, set_lifted 0 w)
     else Some ("", w)) ;;
  Some (gcode, set_to_lift 0 w).

(* ------------------------------------------------------------------ *)
(** ** Extrusion and retraction *)

(** [if (!force_no_extrusion) filament()->extrude(dE);] followed by the
    later read of [filament()->E()]: the new E when an extrusion is made. *)
Definition extrude_current (dE : Q) (force_no_extrusion : bool) (w : GCodeWriter)
  : option (option Q * GCodeWriter) :=
  if force_no_extrusion then Some (None, w)
  else
    ' (i, e) <- deref w (filament w) ;;
    let '(_, e') := Extruder_extrude dE e in
    Some (Some (E e'), store i e' w).

Definition emit_e_opt (e : option Q) (f : GCodeFormatter) : GCodeFormatter :=
  match e with
  | Some v => emit_e v f
  | None => f
  end.

Definition extrude_to_xy (point : Vec2d) (dE : Q) (comment : string)
  (force_no_extrusion : bool) (w : GCodeWriter) : option (string * GCodeWriter) :=
  let w := set_pos_xy (x2 point) (y2 point) w in
  ' (e, w) <- extrude_current dE force_no_extrusion w ;;
  let point_on_plate := {| x2 := x2 point - m_x_offset w; y2 := y2 point - m_y_offset w |} in
  let f := emit_comment full_gcode_comment comment
             (emit_e_opt e (emit_xy point_on_plate GCodeG1Formatter)) in
  let '(acc, w) := set_extrude_acceleration w in
  Some (acc ++ fmt_string f, w).

Definition extrude_arc_to_xy (point center_offset : Vec2d) (dE : Q) (is_ccw : bool)
  (comment : string) (force_no_extrusion : bool) (w : GCodeWriter)
  : option (string * GCodeWriter) :=
  let w := set_pos_xy (x2 point) (y2 point) w in
  ' (e, w) <- extrude_current dE force_no_extrusion w ;;
  let point_on_plate := {| x2 := x2 point - m_x_offset w; y2 := y2 point - m_y_offset w |} in
  let f := emit_comment full_gcode_comment comment
             (emit_e_opt e (emit_ij center_offset
                             (emit_xy point_on_plate (GCodeG2G3Formatter is_ccw)))) in
  let '(acc, w) := set_extrude_acceleration w in
  Some (acc ++ fmt_string f, w).

Definition extrude_to_xyz (point : Vec3d) (dE : Q) (comment : string)
  (force_no_extrusion : bool) (w : GCodeWriter) : option (string * GCodeWriter) :=
  let w := set_pos point w in
  let w := set_lifted 0 w in
  ' (e, w) <- extrude_current dE force_no_extrusion w ;;
  let point_on_plate := {| x3 := x3 point - m_x_offset w; y3 := y3 point - m_y_offset w;
                           z3 := z3 point |} in
  let f := emit_comment full_gcode_comment comment
             (emit_e_opt e (emit_xyz point_on_plate GCodeG1Formatter)) in
  let '(acc, w) := set_extrude_acceleration w in
  Some (acc ++ fmt_string f, w).

Definition _retract (length restart : Q) (comment : string) (w : GCodeWriter)
  : option (string * GCodeWriter) :=
  let length := if use_firmware_retraction (config w) then 1 else length in
  ' (i, e) <- deref w (filament w) ;;
  let '(dE, e') := Extruder_retract length restart e in
  let w := store i e' w in
  let gcode :=
    if negb (Qeq_bool dE 0) then
      if use_firmware_retraction (config w) then
        (if FLAVOR_IS w gcfMachinekit then "G22 ;retract" else "G10 ;retract " ++ nl)
      else
        fmt_string (emit_comment full_gcode_comment comment
                      (emit_f (retract_speed (config w) (id e') * 60)
                        (emit_e (E e') GCodeG1Formatter)))
    else "" in
  let gcode := if FLAVOR_IS w gcfMakerWare then gcode ++ "M103 ; extruder off" ++ nl
               else gcode in
  Some (gcode, w).

Definition retract (before_wipe : bool) (w : GCodeWriter) : option (string * GCodeWriter) :=
  ' (_, e) <- deref w (filament w) ;;
  let factor := if before_wipe then retract_before_wipe (config w) (id e) else 1 in
  _retract (factor * retraction_length (config w) (id e))
           (factor * retract_restart_extra (config w) (id e)) "retract" w.

Definition retract_for_toolchange (before_wipe : bool) (w : GCodeWriter)
  : option (string * GCodeWriter) :=
  ' (_, e) <- deref w (filament w) ;;
  let factor := if before_wipe then retract_before_wipe (config w) (id e) else 1 in
  _retract (factor * retract_length_toolchange (config w) (id e))
           (factor * retract_restart_extra_toolchange (config w) (id e))
           "retract for toolchange" w.

Definition unretract (w : GCodeWriter) : option (string * GCodeWriter) :=
  let gcode := if FLAVOR_IS w gcfMakerWare then "M101 ; extruder on" ++ nl else "" in
  ' (i, e) <- deref w (filament w) ;;
  let '(dE, e') := Extruder_unretract e in
  let w := store i e' w in
  if negb (Qeq_bool dE 0) then
    if use_firmware_retraction (config w) then
      let gcode := gcode ++ (if FLAVOR_IS w gcfMachinekit then "G23 ;unretract " ++ nl
                             else "G11 ;unretract " ++ nl) in
      ' (r, w) <- reset_e false w ;;
      Some (gcode ++ r, w)
    else
      Some (gcode ++ fmt_string (emit_comment full_gcode_comment " ; unretract"
                                   (emit_f (deretract_speed (config w) (id e') * 60)
                                     (emit_e (E e') GCodeG1Formatter))), w)
  else Some (gcode, w).

(* ------------------------------------------------------------------ *)
(** ** Operation sequences *)

Inductive op :=
| OpLazyLift (lift_type : LiftType) (spiral_vase tool_change : bool)
| OpEagerLift (type : LiftType) (tool_change : bool)
| OpTravelToXY (point : Vec2d) (comment : string)
| OpTravelToZ (z : Q) (comment : string)
| OpTravelToXYZ (point : Vec3d) (comment : string)
| OpExtrudeToXY (point : Vec2d) (dE : Q) (comment : string) (force_no_extrusion : bool)
| OpExtrudeArcToXY (point center_offset : Vec2d) (dE : Q) (is_ccw : bool)
    (comment : string) (force_no_extrusion : bool)
| OpExtrudeToXYZ (point : Vec3d) (dE : Q) (comment : string) (force_no_extrusion : bool)
| OpUnlift
| OpRetract (before_wipe : bool)
| OpRetractForToolchange (before_wipe : bool)
| OpUnretract
| OpToolchange (filament_id : nat)
| OpSetExtruder (filament_id : nat)
| OpResetE (force : bool)
| OpSetAcceleration (acceleration : N)
| OpResetLastAcceleration
| OpSetBedTemperature (temperature : Z) (wait : bool)
| OpSetChamberTemperature (temperature : Z) (wait : bool).

Definition step (o : op) (w : GCodeWriter) : option (string * GCodeWriter) :=
  match o with
  | OpLazyLift t sv tc => lazy_lift t sv tc w
  | OpEagerLift t tc => eager_lift t tc w
  | OpTravelToXY p c => travel_to_xy p c w
  | OpTravelToZ z c => travel_to_z z c w
  | OpTravelToXYZ p c => travel_to_xyz p c w
  | OpExtrudeToXY p dE c f => extrude_to_xy p dE c f w
  | OpExtrudeArcToXY p o dE ccw c f => extrude_arc_to_xy p o dE ccw c f w
  | OpExtrudeToXYZ p dE c f => extrude_to_xyz p dE c f w
  | OpUnlift => unlift w
  | OpRetract b => retract b w
  | OpRetractForToolchange b => retract_for_toolchange b w
  | OpUnretract => unretract w
  | OpToolchange t => toolchange t w
  | OpSetExtruder t => set_extruder t w
  | OpResetE f => reset_e f w
  | OpSetAcceleration a => Some ("", set_acceleration a w)
  | OpResetLastAcceleration => Some ("", reset_last_acceleration w)
  | OpSetBedTemperature t wt => Some (set_bed_temperature t wt w)
  | OpSetChamberTemperature t wt => Some (set_chamber_temperature t wt w)
  end.

(** A sequence of calls; the texts returned are collected in order. *)
Fixpoint run (os : list op) (w : GCodeWriter) : option (list string * GCodeWriter) :=
  match os with
  | [] => Some ([], w)
  | o :: r =>
      ' (s, w) <- step o w ;;
      ' (ss, w) <- run r w ;;
      Some ((s :: ss)%list, w)
  end.

End WithLibm.

(** Modelled from the spec: the constructor of [GCodeWriter] is in
    GCodeWriter.hpp.  Before the first selection the current tool is unset;
    the lift state is Flat; nothing has been emitted yet. *)
Definition new_GCodeWriter (cfg : GCodeConfig) : GCodeWriter :=
  {| config := cfg; multiple_extruders := false; m_is_bbl_printer := false;
     m_single_extruder_multi_material := false;
     m_filament_extruders := [];
     m_curr_extruder_id := (-1)%Z;
     m_curr_filament_extruder := fun _ => None;
     m_acceleration := 0%N; m_travel_accelerations := [];
     m_first_layer_travel_accelerations := [];
     m_is_first_layer := true;
     m_last_acceleration := 0%N; m_max_acceleration := 0%N;
     m_last_bed_temperature := 0%Z; m_last_bed_temperature_reached := true;
     m_pos := {| x3 := 0; y3 := 0; z3 := 0 |};
     m_lifted := 0; m_to_lift := 0; m_to_lift_type := NormalLift;
     m_x_offset := 0; m_y_offset := 0;
     m_is_current_position_clear := false |}.

(* ------------------------------------------------------------------ *)
(** ** Properties of the state and of the texts *)

(** The text [emit_axis] wrote after the axis letter: the characters between
    [base_ptr] and the pointer it left. *)
Definition number_text (f f' : GCodeFormatter) : string :=
  string_of_list_ascii (firstn (ptr f' - (ptr f + 2)) (skipn (ptr f + 2) (buf f'))).



(** The part of the state the lift bookkeeping lives in. *)
Definition lift_view (w : GCodeWriter) : Vec3d * Q * Q * LiftType * bool :=
  (m_pos w, m_lifted w, m_to_lift w, m_to_lift_type w, m_is_current_position_clear w).

(** The part of the state that selects the tool and its travel acceleration. *)
Definition tool_view (w : GCodeWriter) :=
  (config w, m_filament_extruders w, m_curr_extruder_id w, m_curr_filament_extruder w,
   m_is_first_layer w, m_travel_accelerations w, m_first_layer_travel_accelerations w).

(** The line [_travel_to_z] formats for a height and a speed. *)
Definition z_move_line (z speed : Q) (comment : string) : string :=
  fmt_string (emit_comment full_gcode_comment comment
                (emit_f (speed * 60) (emit_z z GCodeG1Formatter))).



(** The tool the writer has selected, by filament id. *)
Definition current_tool (w : GCodeWriter) : option nat :=
  match deref w (filament w) with
  | Some (_, e) => Some (id e)
  | None => None
  end.

(** The cumulative extruded length of the selected tool. *)
Definition current_E (w : GCodeWriter) : option Q :=
  match deref w (filament w) with
  | Some (_, e) => Some (E e)
  | None => None
  end.

(** Two readings of it that agree as numbers. *)
Definition same_E (a b : option Q) : Prop :=
  match a, b with
  | Some x, Some y => x == y
  | None, None => True
  | _, _ => False
  end.

(** [set_extruders] leaves the tool vector sorted by filament id. *)
Definition sorted_by_id (l : list Extruder) : Prop :=
  forall i j a b, (i <= j)%nat -> nth_error l i = Some a -> nth_error l j = Some b ->
                  (id a <= id b)%nat.

(** A tool is selected and the travel acceleration table, when there is one,
    has an entry for its extruder: the moves that read them are defined. *)
Definition travel_ready (w : GCodeWriter) : bool :=
  match deref w (filament w) with
  | None => false
  | Some (_, e) =>
      let travel_accelerations :=
        if m_is_first_layer w then m_first_layer_travel_accelerations w
        else m_travel_accelerations w in
      match travel_accelerations with
      | [] => true
      | _ => (extruder_id (config w) e <? List.length travel_accelerations)%nat
      end
  end.

(** The flavor for which [_retract] appends the extruder-off command. *)
Definition is_makerware (w : GCodeWriter) : bool := FLAVOR_IS w gcfMakerWare.

(** The pointer to the current tool is null or points into the tool vector. *)
Definition valid_current (w : GCodeWriter) : Prop :=
  filament w = None \/ exists i e, deref w (filament w) = Some (i, e).

(** The flavors for which [reset_e] returns at once. *)
Definition reset_e_skipped (w : GCodeWriter) : bool :=
  FLAVOR_IS w gcfMach3 || FLAVOR_IS w gcfMakerWare || FLAVOR_IS w gcfSailfish.

(** The length [retract] asks the tracker for. *)
Definition retract_length (before_wipe : bool) (w : GCodeWriter) (e : Extruder) : Q :=
  if use_firmware_retraction (config w) then 1
  else (if before_wipe then retract_before_wipe (config w) (id e) else 1)
       * retraction_length (config w) (id e).

(** What an emitted piece may carry when the maximum is [M]. *)
Definition piece_within (w : GCodeWriter) (p : piece) : Prop :=
  match p with
  | Txt _ => True
  | UInt n => (n <= m_max_acceleration w)%N
  | Dbl q => accel_to_decel_factor (config w) <= 100 ->
             q <= inject_Z (Z.of_N (m_max_acceleration w))
  end.

(** The filament ids of the configured tools. *)
Definition tool_ids (w : GCodeWriter) : list nat := map id (m_filament_extruders w).

(** Every tool has an entry in each travel acceleration table that is not empty. *)
Definition accel_tables_cover (w : GCodeWriter) : Prop :=
  forall e, In e (m_filament_extruders w) ->
    (m_travel_accelerations w = []
     \/ (extruder_id (config w) e < List.length (m_travel_accelerations w))%nat)
    /\ (m_first_layer_travel_accelerations w = []
        \/ (extruder_id (config w) e < List.length (m_first_layer_travel_accelerations w))%nat).

(** The state [set_extruders] and a first [set_extruder] leave behind. *)
Definition well_formed (w : GCodeWriter) : Prop :=
  sorted_by_id (m_filament_extruders w)
  /\ (exists i e, deref w (filament w) = Some (i, e))
  /\ accel_tables_cover w.

(** The tool an operation names is configured. *)
Definition op_present (ids : list nat) (o : op) : Prop :=
  match o with
  | OpToolchange t | OpSetExtruder t => In t ids
  | _ => True
  end.

(* ------------------------------------------------------------------ *)
(** ** Statements that fail on the code, as they were claimed *)


(** [set_extruder] returns text exactly when the tool differs. *)
Definition toolchange_text_iff_tool_differs : Prop :=
  forall (w : GCodeWriter) (t : nat),
    sorted_by_id (m_filament_extruders w) ->
    In t (map id (m_filament_extruders w)) ->
    exists s w', set_extruder t w = Some (s, w')
                 /\ (s <> "" <-> need_toolchange t w = true)
                 /\ current_tool w' = Some t.

(** Two equal temperature requests in a row: text, then nothing.
    [set_temperature] is [const], so its second call meets the writer the
    first one met. *)
Definition bed_and_nozzle_request_twice : Prop :=
  forall (w : GCodeWriter) (bed : Z) (nozzle : N) (wait : bool) (tool : Z),
    (let '(s1, w1) := set_bed_temperature bed wait w in
     let '(s2, _) := set_bed_temperature bed wait w1 in
     s1 <> "" /\ s2 = "")
    /\ (let s1 := set_temperature nozzle wait tool w in
        let s2 := set_temperature nozzle wait tool w in
        s1 <> "" /\ s2 = "").

(** The repeated chamber request returns nothing. *)
Definition chamber_request_twice : Prop :=
  forall (w : GCodeWriter) (temperature : Z) (wait : bool),
    let '(_, w1) := set_chamber_temperature temperature wait w in
    fst (set_chamber_temperature temperature wait w1) = "".

(** Two calls of [retract] in a row: a command, then nothing. *)
Definition retract_twice : Prop :=
  forall (w : GCodeWriter) (before_wipe : bool) (i : nat) (e : Extruder),
    deref w (filament w) = Some (i, e) ->
    0 < retraction_length (config w) (id e) ->
    exists s1 w1 s2 w2,
      retract before_wipe w = Some (s1, w1) /\ s1 <> ""
      /\ retract before_wipe w1 = Some (s2, w2) /\ s2 = "".

(** With relative distances [reset_e] returns nothing and leaves E alone. *)
Definition relative_reset_is_noop : Prop :=
  forall (w : GCodeWriter) (force : bool),
    use_relative_e_distances (config w) = true ->
    exists w', reset_e force w = Some ("", w')
               /\ same_E (current_E w') (current_E w).

(* ------------------------------------------------------------------ *)
(** ** Sample configurations *)

(** Rational stand-ins for the library functions; the theorems hold for every
    instance of [Libm]. *)
Definition sample_libm : Libm :=
  {| PI := 355 # 113; atan_d := fun x => x; tan_d := fun x => x;
     atan2_d := fun y x => y / x; sqrt_d := fun x => x;
     show_double := fun q => show_Z (Qfloor q) |}.

Definition sample_config (flavor : GCodeFlavor) (relative : bool) : GCodeConfig :=
  {| gcode_flavor := flavor; use_relative_e_distances := relative;
     use_firmware_retraction := false; single_extruder_multi_material := false;
     accel_to_decel_enable := true; accel_to_decel_factor := 50;
     travel_speed := fun _ => 120; travel_speed_z := fun _ => 0;
     retract_lift_above := fun _ => 0; retract_lift_below := fun _ => 1000;
     z_hop := fun _ => 4 # 10;
     prime_tower_lift_height := 0; prime_tower_lift_speed := 0;
     retraction_length := fun _ => 8 # 10; retract_before_wipe := fun _ => 7 # 10;
     retract_restart_extra := fun _ => 0;
     retract_length_toolchange := fun _ => 2;
     retract_restart_extra_toolchange := fun _ => 0;
     retract_speed := fun _ => 30; deretract_speed := fun _ => 30;
     filament_extruder := fun _ => 0%nat; get_extruder_index := fun _ => 0%nat |}.

(** A writer configured for the given tools, none selected yet. *)
Definition sample_writer (flavor : GCodeFlavor) (relative : bool) (ids : list nat)
  : GCodeWriter :=
  match set_extruders ids (new_GCodeWriter (sample_config flavor relative)) with
  | Some w => w
  | None => new_GCodeWriter (sample_config flavor relative)
  end.

(** The state a sequence of calls leads to. *)
Definition after (os : list op) (w : GCodeWriter) : GCodeWriter :=
  match @run sample_libm os w with
  | Some (_, w') => w'
  | None => w
  end.

(** The texts a sequence of calls returns. *)
Definition texts (os : list op) (w : GCodeWriter) : list string :=
  match @run sample_libm os w with
  | Some (ss, _) => ss
  | None => []
  end.


(** One tool, selected, lifted by 0.4 at height 0.6. *)
Definition lifted_writer : GCodeWriter :=
  after [OpSetExtruder 0; OpTravelToZ (2 # 10) ""; OpLazyLift NormalLift true false]
        (sample_writer gcfMarlinFirmware false [0%nat]).

(** One tool, selected, 1.5 extruded, relative extrusion distances. *)
Definition relative_writer : GCodeWriter :=
  after [OpSetExtruder 0; OpExtrudeToXY {| x2 := 10; y2 := 0 |} (3 # 2) "" false]
        (sample_writer gcfMarlinFirmware true [0%nat]).

(** One tool, selected, MakerWare flavor. *)
Definition makerware_writer : GCodeWriter :=
  after [OpSetExtruder 0] (sample_writer gcfMakerWare false [0%nat]).

(** A Klipper writer after [apply_print_config] has set the maximum
    acceleration to 3000. *)
Definition limited_writer : GCodeWriter :=
  {| config := sample_config gcfKlipper false;
     multiple_extruders := false; m_is_bbl_printer := false;
     m_single_extruder_multi_material := false;
     m_filament_extruders := []; m_curr_extruder_id := (-1)%Z;
     m_curr_filament_extruder := fun _ => None;
     m_acceleration := 0%N; m_travel_accelerations := [];
     m_first_layer_travel_accelerations := []; m_is_first_layer := true;
     m_last_acceleration := 0%N; m_max_acceleration := 3000%N;
     m_last_bed_temperature := 0%Z; m_last_bed_temperature_reached := true;
     m_pos := {| x3 := 0; y3 := 0; z3 := 0 |};
     m_lifted := 0; m_to_lift := 0; m_to_lift_type := NormalLift;
     m_x_offset := 0; m_y_offset := 0;
     m_is_current_position_clear := false |}.

(** Two tools, tool 1 selected. *)
Definition marlin_writer : GCodeWriter :=
  after [OpSetExtruder 1] (sample_writer gcfMarlinFirmware false [1%nat; 0%nat]).

(* ------------------------------------------------------------------ *)
(** ** The number the formatter writes, and reading it back *)

Local Open Scope Z_scope.

(** Trailing zero characters removed. *)
Fixpoint strip_trailing_zeros (l : list ascii) : list ascii :=
  match l with
  | [] => []
  | c :: r =>
      match strip_trailing_zeros r with
      | [] => if Ascii.eqb c (chr "0") then [] else [c]
      | r' => c :: r'
      end
  end.

(** The text of a scaled value with [digits] decimals, written without the
    buffer: sign, integer digits, then the point and the fraction digits that
    are left once trailing zeros are gone. *)
Definition render_number (v_int : Z) (digits : nat) : list ascii :=
  let sign := if v_int <? 0 then [chr "-"] else [] in
  let ds := to_digits 20 (Z.abs v_int) [] in
  let padded := (repeat (chr "0") (digits - List.length ds) ++ ds)%list in
  let ip := firstn (List.length padded - digits) padded in
  let fp := strip_trailing_zeros (skipn (List.length padded - digits) padded) in
  match fp with
  | [] => match ip with
          | [] => (sign ++ [chr "0"])%list
          | _ => (sign ++ ip)%list
          end
  | _ => (sign ++ ip ++ chr "." :: fp)%list
  end.

(** A text without its leading minus sign, if it has one. *)
Definition after_sign (text : list ascii) : list ascii :=
  match text with
  | c :: r => if Ascii.eqb c (chr "-") then r else text
  | [] => text
  end.

(** The ten digit characters. *)
Definition digit_chars : list ascii :=
  map chr ["0"; "1"; "2"; "3"; "4"; "5"; "6"; "7"; "8"; "9"]%string.

(** The characters a formatter has written so far. *)
Definition fmt_text (f : GCodeFormatter) : list ascii := firstn (ptr f) (buf f).

(** Reading a decimal text back, the way [atof] does on the texts the
    formatter produces: optional minus sign, digits, optional point and
    fraction digits. *)
Definition digit_val (c : ascii) : Z := Z.of_nat (nat_of_ascii c) - 48.

Definition read_digits (l : list ascii) : Z :=
  fold_left (fun acc c => acc * 10 + digit_val c) l 0.

Fixpoint before_point (l : list ascii) : list ascii :=
  match l with
  | [] => []
  | c :: r => if Ascii.eqb c (chr ".") then [] else c :: before_point r
  end.

Fixpoint after_point (l : list ascii) : list ascii :=
  match l with
  | [] => []
  | c :: r => if Ascii.eqb c (chr ".") then r else after_point r
  end.

Definition read_unsigned (l : list ascii) : Q :=
  (inject_Z (read_digits (before_point l))
   + Qmake (read_digits (after_point l))
           (Z.to_pos (10 ^ Z.of_nat (List.length (after_point l)))))%Q.

Definition read_number (l : list ascii) : Q :=
  match l with
  | c :: r => if Ascii.eqb c (chr "-") then (- read_unsigned r)%Q else read_unsigned l
  | [] => 0%Q
  end.

(* ------------------------------------------------------------------ *)
(** ** Heights *)

Local Open Scope Q_scope.

(** The height [unlift] returns to: the current height less the applied lift. *)
Definition nominal_z (w : GCodeWriter) : Q := z3 (m_pos w) - m_lifted w.

(** The height an operation is asked to reach, when it names one. *)
Definition target_height (o : op) : option Q :=
  match o with
  | OpTravelToZ z _ => Some z
  | OpTravelToXYZ p _ => Some (z3 p)
  | OpExtrudeToXYZ p _ _ _ => Some (z3 p)
  | _ => None
  end.


(* ------------------------------------------------------------------ *)
(** ** The subtraction of the machine *)

(** [will_move_z] and [travel_to_z] once more, with the subtraction of two
    doubles left as an operation [sub]: [nominal_z] is then the rounded
    difference the code compares the requested height with, and [m_lifted]
    is lowered by machine subtractions.  Comparisons and [std::abs] round
    nothing.  At the exact subtraction of the rationals these are
    [will_move_z] and [travel_to_z] above. *)
Module Machine.

Definition will_move_z (sub : Q -> Q -> Q) (z : Q) (w : GCodeWriter) : bool :=
  if Qlt_bool 0 (m_lifted w) then
    let nominal_z := sub (z3 (m_pos w)) (m_lifted w) in
    if Qle_bool nominal_z z && Qle_bool z (z3 (m_pos w)) then false else true
  else if Qlt_bool (Qabs (sub (z3 (m_pos w)) z)) EPSILON then false
  else true.

Definition travel_to_z {libm : Libm} (sub : Q -> Q -> Q) (z : Q) (comment : string)
  (w : GCodeWriter) : option (string * GCodeWriter) :=
  if negb (will_move_z sub z w) then
    let nominal_z := sub (z3 (m_pos w)) (m_lifted w) in
    let w := set_lifted (sub (m_lifted w) (sub z nominal_z)) w in
    let w := if Qlt_bool (Qabs (m_lifted w)) EPSILON then set_lifted 0 w else w in
    Some (""%string, w)
  else
    let w := set_lifted 0 w in
    ' (acc, w) <- set_travel_acceleration w ;;
    ' (s, w) <- _travel_to_z z comment false w ;;
    Some ((acc ++ s)%string, w).

End Machine.

(** Rounding to the nearest binary64 number, ties to even, the exponent not
    limited: a rational is scaled by a power of two to a significand of 53
    bits, which is rounded to an integer. *)
Definition binary64 (q : Q) : Q :=
  let n := Z.abs (Qnum q) in
  let d := Zpos (Qden q) in
  if (n =? 0)%Z then 0
  else
    let scaled e := if (0 <=? e)%Z then (n, d * 2 ^ e)%Z else (n * 2 ^ (- e), d)%Z in
    let e0 := (Z.log2 n - Z.log2 d - 52)%Z in
    let e := if (fst (scaled e0) / snd (scaled e0) <? 2 ^ 52)%Z then (e0 - 1)%Z else e0 in
    let '(num, den) := scaled e in
    let m := (num / den)%Z in
    let r := (num mod den)%Z in
    let m := if (den <? 2 * r)%Z || ((2 * r =? den)%Z && Z.odd m) then (m + 1)%Z else m in
    let v := if (0 <=? e)%Z then inject_Z (m * 2 ^ e) else Qmake m (Z.to_pos (2 ^ (- e))) in
    if (Qnum q <? 0)%Z then - v else v.

(** The subtraction of two doubles. *)
Definition double_sub (a b : Q) : Q := binary64 (a - b).

(** One tool, selected, lifted by the double 0.4 at the double 5.4: the
    state [travel_to_z] to 5.0 followed by a spiral [lazy_lift] of 0.4
    leaves. *)
Definition boundary_writer : GCodeWriter :=
  set_pos_z (binary64 (54 # 10)) (set_lifted (binary64 (4 # 10)) lifted_writer).

(** One tool, selected, lifted by the double 0.4 from the double 0.2: the
    height is the double their sum rounds to. *)
Definition raised_writer : GCodeWriter :=
  set_pos_z (binary64 (binary64 (2 # 10) + binary64 (4 # 10)))
            (set_lifted (binary64 (4 # 10)) lifted_writer).

(* ------------------------------------------------------------------ *)
(** ** Further methods of the writer *)

Local Open Scope string_scope.

(** [GCodeWriter::init_extruder].  The test [filament_id != -1] compares an
    [unsigned int] with -1 converted to [unsigned int], the largest value of
    the type. *)
Definition init_extruder (filament_id : nat) (w : GCodeWriter) : option GCodeWriter :=
  if (m_curr_extruder_id w =? -1)%Z && negb (N.of_nat filament_id =? 4294967295)%N then
    let filament_extruder_iter :=
      lower_bound_by_predicate (m_filament_extruders w) (fun e => (id e <? filament_id)%nat) in
    ' (_, e) <- deref w (Some filament_extruder_iter) ;;
    let eid := extruder_id (config w) e in
    Some (set_current (Z.of_nat eid)
            (fun k => if (k =? eid)%nat then Some filament_extruder_iter
                      else m_curr_filament_extruder w k) w)
  else Some w.

(** The percentage [update_progress] prints:
    [(unsigned int)floor(100.0 * num / tot + 0.5)], capped at 99 unless
    [allow_100].  With [tot = 0] the quotient is an infinity or a NaN, and
    above the range of [unsigned int] the conversion is undefined as well.
    The operands are 32-bit integers: the quotient is at least [1 / (2 * tot)]
    away from every half-integer it does not hit, far more than a double
    rounds by, so the rational value rounds to the same integer. *)
Definition progress_percent (num tot : N) (allow_100 : bool) : option Z :=
  if (tot =? 0)%N then None
  else
    let percent :=
      Qfloor (100 * inject_Z (Z.of_N num) / inject_Z (Z.of_N tot) + (1 # 2))%Q in
    if (4294967295 <? percent)%Z then None
    else Some (if allow_100 then percent else Z.min percent 99).

Definition update_progress (num tot : N) (allow_100 : bool) (w : GCodeWriter)
  : option string :=
  if FLAVOR_IS_NOT w gcfMakerWare && FLAVOR_IS_NOT w gcfSailfish then Some ""
  else
    ' percent <- progress_percent num tot allow_100 ;;
    Some ("M73 P" ++ show_Z percent
          ++ (if full_gcode_comment then " ; update progress" else "") ++ nl).

(** The value [set_additional_fan] prints after S:
    [(int)(255.0 * speed / 100.0)]; above the range of [int] the conversion
    is undefined.  The quotient is an integer or at least a hundredth away
    from one, so truncating the rational value gives the same integer. *)
Definition fan_duty (speed : N) : option Z :=
  let v := Qfloor (255 * inject_Z (Z.of_N speed) / 100)%Q in
  if (2147483647 <? v)%Z then None else Some v.

Definition set_additional_fan (speed : N) : option string :=
  ' duty <- fan_duty speed ;;
  Some ("M106 " ++ "P2 " ++ "S" ++ show_Z duty
        ++ (if full_gcode_comment
            then (if (speed =? 0)%N then " ; disable additional fan "
                  else " ; enable additional fan ")
            else "")
        ++ nl).

(** The object labels waiting to be written, and the three methods that
    write them into the G-code assembled so far.  The two strings are members
    of the writer; the three methods touch nothing else of it, so they are
    kept in a record of their own. *)
Record ObjectLabels := {
  m_gcode_label_objects_start : string;
  m_gcode_label_objects_end : string
}.

Definition add_object_start_labels (gcode : string) (l : ObjectLabels)
  : string * ObjectLabels :=
  if negb (String.eqb (m_gcode_label_objects_start l) "") then
    (gcode ++ m_gcode_label_objects_start l,
     {| m_gcode_label_objects_start := "";
        m_gcode_label_objects_end := m_gcode_label_objects_end l |})
  else (gcode, l).

Definition add_object_end_labels (gcode : string) (l : ObjectLabels)
  : string * ObjectLabels :=
  if negb (String.eqb (m_gcode_label_objects_end l) "") then
    (gcode ++ m_gcode_label_objects_end l,
     {| m_gcode_label_objects_start := m_gcode_label_objects_start l;
        m_gcode_label_objects_end := "" |})
  else (gcode, l).

Definition add_object_change_labels (gcode : string) (l : ObjectLabels)
  : string * ObjectLabels :=
  let '(gcode, l) := add_object_end_labels gcode l in
  add_object_start_labels gcode l.

(* ------------------------------------------------------------------ *)
(** ** TransformationType *)

(** [TransformationType] of slic3r/GUI/Selection.hpp: the flags of its
    [Enum] and the value [m_value], read as an [unsigned int] by [has],
    [add] and [remove]. *)
Module TransformationType.

Definition World : N := 0.
Definition Instance : N := 1.
Definition Local : N := 2.
Definition Absolute : N := 0.
Definition Relative : N := 4.
Definition Joint : N := 0.
Definition Independent : N := 8.

Definition has (v m_value : N) : bool := negb (N.land m_value v =? 0)%N.

Definition add (v m_value : N) : N := N.lor m_value v.

(** [m_value & ~v] on 32 bits. *)
Definition remove (v m_value : N) : N := N.land m_value (N.lxor v (N.ones 32)).

Definition set_world (m : N) : N := remove Local (remove Instance m).
Definition set_instance (m : N) : N := add Instance (remove Local m).
Definition set_local (m : N) : N := add Local (remove Instance m).
Definition set_absolute (m : N) : N := remove Relative m.
Definition set_relative (m : N) : N := add Relative m.
Definition set_joint (m : N) : N := remove Independent m.
Definition set_independent (m : N) : N := add Independent m.

Definition world (m : N) : bool := negb (has Instance m) && negb (has Local m).
Definition instance (m : N) : bool := has Instance m.
Definition local (m : N) : bool := has Local m.
Definition absolute (m : N) : bool := negb (has Relative m).
Definition relative (m : N) : bool := has Relative m.
Definition joint (m : N) : bool := negb (has Independent m).
Definition independent (m : N) : bool := has Independent m.

(** The coordinate system and the two modes a value stands for. *)
Definition coordinates (m : N) : bool * bool * bool := (world m, instance m, local m).
Definition modes (m : N) : bool * bool := (relative m, independent m).

End TransformationType.

(* ------------------------------------------------------------------ *)
(** * Proofs *)

(** ** The numeric formatter *)

Local Open Scope Z_scope.

Lemma poke_length b i c : List.length (poke b i c) = List.length b.
Proof. revert i; induction b as [|h t IH]; intros [|i]; simpl; auto. Qed.

Lemma pokeZ_length b i c : List.length (pokeZ b i c) = List.length b.
Proof. apply poke_length. Qed.

Lemma poke_nth_same b i c d : (i < List.length b)%nat -> nth i (poke b i c) d = c.
Proof.
  revert i; induction b as [|h t IH]; intros [|i] H; simpl in *; try lia; auto.
  apply IH; lia.
Qed.

Lemma write_chars_length cs : forall b p, List.length (fst (write_chars b p cs)) = List.length b.
Proof.
  induction cs as [|c r IH]; intros b p; simpl; auto.
  rewrite IH. apply pokeZ_length.
Qed.

Lemma write_chars_ptr cs : forall b p, snd (write_chars b p cs) = p + Z.of_nat (List.length cs).
Proof.
  induction cs as [|c r IH]; intros b p; simpl; [lia|].
  rewrite IH. lia.
Qed.

Lemma shift_right_length n : forall b from k, List.length (shift_right n b from k) = List.length b.
Proof.
  induction n as [|n IH]; intros b from k; simpl; auto.
  rewrite IH. apply pokeZ_length.
Qed.

Lemma memset_length n : forall b p c, List.length (memset b p c n) = List.length b.
Proof.
  induction n as [|n IH]; intros b p c; simpl; auto.
  rewrite IH. apply pokeZ_length.
Qed.

Lemma trim_zeros_bounds d : forall b p, p - Z.of_nat d <= trim_zeros d b p <= p.
Proof.
  induction d as [|d IH]; intros b p; simpl trim_zeros; [lia|].
  destruct (Ascii.eqb _ _); [|lia].
  specialize (IH b (p - 1)). lia.
Qed.

Lemma to_digits_length fuel : forall n acc,
  (List.length acc < List.length (to_digits fuel n acc) <= List.length acc + S fuel)%nat.
Proof.
  induction fuel as [|f IH]; intros n acc; simpl; [lia|].
  destruct (n / 10 =? 0); simpl; [lia|].
  specialize (IH (n / 10) (digit_char (n mod 10) :: acc)). simpl in IH. lia.
Qed.

Lemma to_chars_length v :
  let sign := if v <? 0 then 1 else 0 in
  sign + 1 <= Z.of_nat (List.length (to_chars v)) <= sign + 21.
Proof.
  unfold to_chars. rewrite length_app.
  pose proof (to_digits_length 20 (Z.abs v) []) as H.
  change (List.length (@nil ascii)) with O in H.
  generalize dependent (List.length (to_digits 20 (Z.abs v) [])). intros n H.
  destruct (v <? 0); cbn [List.length]; lia.
Qed.

(** Shape of the last two steps of [emit_number]. *)
Lemma emit_number_shape v d win :
  (d <= 9)%nat -> (24 <= List.length win)%nat ->
  exists win7 p7,
    -1 <= p7 /\ p7 + 1 < Z.of_nat (List.length win) /\
    List.length win7 = List.length win /\
    ( ((p7 + 1 = 0 \/ peek win7 p7 = chr "-") /\
       emit_number v d win = (pokeZ win7 (p7 + 1) (chr "0"), p7 + 2))
    \/ ((p7 + 1 <> 0 /\ peek win7 p7 <> chr "-") /\
       emit_number v d win = (win7, p7 + 1)) ).
Proof.
  intros Hd Hlen. unfold emit_number.
  pose proof (write_chars_length (to_chars v) win 0) as HL1.
  pose proof (write_chars_ptr (to_chars v) win 0) as HP1.
  pose proof (to_chars_length v) as HC. cbv zeta in HC.
  destruct (write_chars win 0 (to_chars v)) as [win1 p1]. simpl in HL1, HP1.
  set (sign := if v <? 0 then 1 else 0) in *.
  assert (Hsign : 0 <= sign <= 1) by (subst sign; destruct (v <? 0); lia).
  clearbody sign.
  set (w := p1 - sign).
  set (st := if w <? Z.of_nat d then _ else _).
  assert (Hst : List.length (fst st) = List.length win /\
                Z.of_nat d <= snd st - sign /\ snd st <= 22).
  { subst st. destruct (Z.ltb_spec w (Z.of_nat d)); simpl.
    - rewrite memset_length, shift_right_length. subst w. repeat split; lia.
    - subst w. repeat split; lia. }
  destruct st as [win2 p2]. simpl in Hst. destruct Hst as (HL2 & Hlo2 & Hhi2).
  set (win3 := pokeZ (shift_right d win2 (p2 - 1) 1) (p2 - Z.of_nat d) (chr ".")).
  assert (HL3 : List.length win3 = List.length win).
  { subst win3. rewrite pokeZ_length, shift_right_length. exact HL2. }
  pose proof (trim_zeros_bounds d win3 p2) as HT.
  set (p6 := trim_zeros d win3 p2) in *.
  set (p7 := if Ascii.eqb (peek win3 p6) (chr ".") then p6 - 1 else p6).
  assert (Hp7 : -1 <= p7 <= p2).
  { subst p7. destruct (Ascii.eqb _ _); lia. }
  exists win3, p7. repeat split; try lia.
  destruct (Z.eqb_spec (p7 + 1) 0) as [E0|N0]; simpl orb.
  - left. split; [left; exact E0|]. cbv beta iota. f_equal. lia.
  - destruct (Ascii.eqb_spec (peek win3 p7) "-"%char) as [E1|N1].
    + left. split; [right; exact E1|]. cbv beta iota. f_equal. lia.
    + right. split; [split; assumption|reflexivity].
Qed.

Lemma text_of_prefix_empty n (l : list ascii) :
  (n <= List.length l)%nat -> string_of_list_ascii (firstn n l) = ""%string -> n = O.
Proof.
  intros Hn H. apply (f_equal list_ascii_of_string) in H.
  rewrite list_ascii_of_string_of_list_ascii in H. simpl in H.
  apply (f_equal (@List.length ascii)) in H. rewrite firstn_length_le in H by exact Hn.
  exact H.
Qed.

Lemma text_of_prefix_single n (l : list ascii) c :
  (n <= List.length l)%nat -> string_of_list_ascii (firstn n l) = String c ""%string ->
  n = 1%nat /\ nth 0 l Ascii.zero = c.
Proof.
  intros Hn H. apply (f_equal list_ascii_of_string) in H.
  rewrite list_ascii_of_string_of_list_ascii in H. simpl in H.
  assert (Hl : n = 1%nat).
  { apply (f_equal (@List.length ascii)) in H. rewrite firstn_length_le in H by exact Hn.
    exact H. }
  split; [exact Hl|]. subst n. destruct l as [|a r]; simpl in *; [discriminate|].
  congruence.
Qed.

Lemma mantissa_not_empty v d win :
  (d <= 9)%nat -> (24 <= List.length win)%nat ->
  mantissa v d win <> ""%string /\ mantissa v d win <> "-"%string.
Proof.
  intros Hd Hlen. unfold mantissa.
  destruct (emit_number_shape v d win Hd Hlen)
    as (win7 & p7 & Hlo & Hhi & HL & [[Hc ->]|[[Hn1 Hn2] ->]]).
  - pose proof (pokeZ_length win7 (p7 + 1) (chr "0")) as HLp.
    pose proof (poke_nth_same win7 (Z.to_nat (p7 + 1)) (chr "0") Ascii.zero) as Hn.
    fold (pokeZ win7 (p7 + 1) (chr "0")) in Hn.
    split; intros H.
    + apply text_of_prefix_empty in H; lia.
    + apply text_of_prefix_single in H; [|lia]. destruct H as [Hp H].
      replace (Z.to_nat (p7 + 1)) with O in Hn by lia.
      rewrite Hn in H by lia. discriminate H.
  - split; intros H.
    + apply text_of_prefix_empty in H; lia.
    + apply text_of_prefix_single in H; [|lia]. destruct H as [Hp H].
      apply Hn2. unfold peek. replace (Z.to_nat p7) with O by lia. exact H.
Qed.

(** With the value zero the text is the single character zero, whatever the
    buffer held before. *)
Lemma mantissa_zero d win :
  (d <= 9)%nat -> (24 <= List.length win)%nat -> mantissa 0 d win = "0"%string.
Proof.
  intros Hd Hlen.
  do 24 (destruct win as [|? win]; [simpl in Hlen; lia|]).
  clear Hlen.
  do 10 (destruct d as [|d]; [vm_compute; reflexivity|]).
  lia.
Qed.

Lemma number_text_mantissa axis v d f :
  (ptr f + 2 <= List.length (buf f))%nat ->
  number_text f (emit_axis_int axis v d f)
  = mantissa v d (skipn (ptr f + 2) (poke (poke (buf f) (ptr f) (chr " ")) (S (ptr f)) axis)).
Proof.
  intros Hroom. unfold number_text, emit_axis_int, mantissa.
  set (b := poke (poke (buf f) (ptr f) (chr " ")) (S (ptr f)) axis).
  assert (Hb : List.length b = List.length (buf f)).
  { subst b. rewrite !poke_length. reflexivity. }
  replace (S (S (ptr f))) with (ptr f + 2)%nat by lia.
  destruct (emit_number v d (skipn (ptr f + 2) b)) as [win p]. cbn [buf ptr].
  replace (ptr f + 2 + Z.to_nat p - (ptr f + 2))%nat with (Z.to_nat p) by lia.
  rewrite skipn_app, firstn_length_le by lia.
  rewrite skipn_all2 by (rewrite firstn_length_le; lia).
  replace (ptr f + 2 - (ptr f + 2))%nat with O by lia.
  reflexivity.
Qed.

(** C8: for every digit count 0 to 9 and every 64-bit scaled value, the
    number [emit_axis] writes after the axis letter is neither the empty
    string nor a lone minus sign, and a value that rounds to zero is written
    as the single character zero.  The formatter is any one with room left
    in its buffer; what the buffer held before does not matter. *)
Theorem emit_axis_never_empty (axis : ascii) (v_int : Z) (digits : nat) (f : GCodeFormatter) :
  (digits <= 9)%nat ->
  - 2 ^ 63 <= v_int < 2 ^ 63 ->
  (ptr f + 26 <= List.length (buf f))%nat ->
  let text := number_text f (emit_axis_int axis v_int digits f) in
  text <> ""%string /\ text <> "-"%string /\ (v_int = 0 -> text = "0"%string).
Proof.
  intros Hd _ Hroom text. subst text.
  rewrite number_text_mantissa by lia.
  set (win := skipn _ _).
  assert (Hwin : (24 <= List.length win)%nat).
  { subst win. rewrite length_skipn, !poke_length. lia. }
  destruct (mantissa_not_empty v_int digits win Hd Hwin) as [H1 H2].
  split; [exact H1|]. split; [exact H2|].
  intros ->. apply mantissa_zero; assumption.
Qed.

Lemma emit_axis_never_empty_witness :
  number_text GCodeG1Formatter (emit_axis_int (chr "Z") (-5) 3 GCodeG1Formatter)
  <> ""%string.
Proof.
  apply (emit_axis_never_empty (chr "Z") (-5) 3 GCodeG1Formatter);
    [lia | lia | vm_compute; lia].
Defined.

Local Open Scope Q_scope.

(* ------------------------------------------------------------------ *)
(** ** Lift bookkeeping *)

Lemma Qlt_bool_iff a b : Qlt_bool a b = true <-> a < b.
Proof.
  unfold Qlt_bool. rewrite negb_true_iff. split; intros H.
  - apply Qnot_le_lt. intros Hle. apply Qle_bool_iff in Hle. congruence.
  - destruct (Qle_bool b a) eqn:E; [|reflexivity].
    apply Qle_bool_iff in E. exfalso. apply (Qlt_not_le _ _ H E).
Qed.

Lemma Qlt_bool_false a b : Qlt_bool a b = false <-> b <= a.
Proof.
  unfold Qlt_bool. rewrite negb_false_iff. apply Qle_bool_iff.
Qed.

Lemma Qle_bool_false a b : Qle_bool a b = false <-> b < a.
Proof.
  split; intros H.
  - apply Qnot_le_lt. intros Hle. apply Qle_bool_iff in Hle. congruence.
  - destruct (Qle_bool a b) eqn:E; [|reflexivity].
    apply Qle_bool_iff in E. exfalso. apply (Qlt_not_le _ _ H E).
Qed.

Lemma Qeq_bool_false a b : Qeq_bool a b = false <-> ~ a == b.
Proof.
  split; intros H.
  - intros Heq. apply Qeq_bool_iff in Heq. congruence.
  - destruct (Qeq_bool a b) eqn:E; [|reflexivity].
    apply Qeq_bool_iff in E. contradiction.
Qed.

(** Turn every boolean comparison in the context into its proposition. *)
Ltac qprops :=
  repeat match goal with
  | H : _ && _ = true |- _ => apply andb_true_iff in H; destruct H
  | H : Qlt_bool _ _ = true |- _ => apply Qlt_bool_iff in H
  | H : Qlt_bool _ _ = false |- _ => apply Qlt_bool_false in H
  | H : Qle_bool _ _ = true |- _ => apply Qle_bool_iff in H
  | H : Qle_bool _ _ = false |- _ => apply Qle_bool_false in H
  | H : Qeq_bool _ _ = true |- _ => apply Qeq_bool_iff in H
  | H : Qeq_bool _ _ = false |- _ => apply Qeq_bool_false in H
  end.

(** Split a successful sequence of calls into its steps. *)
Ltac binds :=
  repeat match goal with
  | H : Some _ = Some _ |- _ => inversion H; subst; clear H
  | H : None = Some _ |- _ => discriminate H
  | H : match ?x with Some _ => _ | None => None end = Some _ |- _ =>
      let E := fresh "E" in destruct x as [[? ?]|] eqn:E; [|discriminate H]
  | H : match ?x with Some _ => _ | None => None end = Some _ |- _ =>
      let E := fresh "E" in destruct x eqn:E; [|discriminate H]
  | H : (let '(_, _) := ?x in _) = Some _ |- _ =>
      let E := fresh "E" in destruct x eqn:E
  end.

Section LiftFrames.
Context {libm : Libm}.

Lemma set_acceleration_impl_view a w : lift_view (snd (set_acceleration_impl a w)) = lift_view w.
Proof.
  unfold set_acceleration_impl, set_acceleration_pieces.
  destruct (_ || _); reflexivity.
Qed.

Lemma set_travel_acceleration_view w s w' :
  set_travel_acceleration w = Some (s, w') -> lift_view w' = lift_view w.
Proof.
  unfold set_travel_acceleration. intros H.
  destruct (if m_is_first_layer w then _ else _); [binds; reflexivity|].
  destruct (filament w); [|binds; reflexivity].
  binds.
  match goal with
  | H : set_acceleration_impl ?a ?w0 = _ |- _ =>
      pose proof (set_acceleration_impl_view a w0) as V; rewrite H in V; exact V
  end.
Qed.

Lemma view_pos w w' : lift_view w' = lift_view w -> m_pos w' = m_pos w.
Proof. unfold lift_view. congruence. Qed.

(** [_travel_to_z] and [_spiral_travel_to_z] move Z and touch neither lift. *)
Lemma _travel_to_z_view z c tc w s w' :
  _travel_to_z z c tc w = Some (s, w') -> lift_view w' = lift_view (set_pos_z z w).
Proof.
  unfold _travel_to_z. intros H. binds.
  eapply set_travel_acceleration_view; eassumption.
Qed.

Lemma _spiral_travel_to_z_view z ij c tc w s w' :
  _spiral_travel_to_z z ij c tc w = Some (s, w') -> lift_view w' = lift_view (set_pos_z z w).
Proof.
  unfold _spiral_travel_to_z. intros H. binds.
  eapply set_travel_acceleration_view; eassumption.
Qed.

Lemma travel_to_xy_view p c w s w' :
  travel_to_xy p c w = Some (s, w') ->
  m_lifted w' = m_lifted w /\ m_to_lift w' = m_to_lift w /\ z3 (m_pos w') = z3 (m_pos w).
Proof.
  unfold travel_to_xy. intros H. binds.
  match goal with H : set_travel_acceleration _ = _ |- _ =>
    apply set_travel_acceleration_view in H; unfold lift_view in H; simpl in H;
    inversion H as [[Hp Hl Ht Hty Hc]] end.
  rewrite Hp. auto.
Qed.

Lemma store_view i e w : lift_view (store i e w) = lift_view w.
Proof. reflexivity. Qed.

Lemma reset_e_view force w s w' : reset_e force w = Some (s, w') -> lift_view w' = lift_view w.
Proof.
  unfold reset_e. intros H.
  destruct (_ || _); [binds; reflexivity|].
  destruct (filament w).
  - binds. destruct (_ && _); [binds; reflexivity|].
    destruct (negb _); binds; reflexivity.
  - destruct (negb _); binds; reflexivity.
Qed.

Lemma toolchange_view t w s w' : toolchange t w = Some (s, w') -> lift_view w' = lift_view w.
Proof.
  unfold toolchange. intros H. binds.
  destruct (multiple_extruders _); binds; [|reflexivity].
  match goal with H : reset_e _ _ = _ |- _ => apply reset_e_view in H; exact H end.
Qed.

Lemma extrude_current_view dE f w e w' :
  extrude_current dE f w = Some (e, w') -> lift_view w' = lift_view w.
Proof.
  unfold extrude_current. intros H. destruct f; binds; reflexivity.
Qed.

Lemma set_extrude_acceleration_view w : lift_view (snd (set_extrude_acceleration w)) = lift_view w.
Proof. apply set_acceleration_impl_view. Qed.

Lemma _retract_view l r c w s w' : _retract l r c w = Some (s, w') -> lift_view w' = lift_view w.
Proof. unfold _retract. intros H. binds. reflexivity. Qed.

Lemma unretract_view w s w' : unretract w = Some (s, w') -> lift_view w' = lift_view w.
Proof.
  unfold unretract. intros H. binds.
  destruct (negb _); binds; [|reflexivity].
  destruct (use_firmware_retraction _); binds; [|reflexivity].
  match goal with H : reset_e _ _ = _ |- _ => apply reset_e_view in H; exact H end.
Qed.





Lemma will_move_z_true_lifted z w :
  0 < m_lifted w -> will_move_z z w = true ->
  ~ (z3 (m_pos w) - m_lifted w <= z /\ z <= z3 (m_pos w)).
Proof.
  unfold will_move_z. intros Hl H [H1 H2].
  apply Qlt_bool_iff in Hl. rewrite Hl in H.
  apply Qle_bool_iff in H1, H2. rewrite H1, H2 in H. discriminate.
Qed.


















End LiftFrames.

(* ------------------------------------------------------------------ *)
(** ** Texts are not empty *)

Lemma append_assoc_string (a b c : string) : ((a ++ b) ++ c = a ++ (b ++ c))%string.
Proof. induction a as [|x a IH]; simpl; [reflexivity|rewrite IH; reflexivity]. Qed.

Lemma append_nonempty_r (a b : string) : b <> ""%string -> (a ++ b)%string <> ""%string.
Proof. destruct a; simpl; [auto|discriminate]. Qed.

Lemma append_nonempty_l (a b : string) : a <> ""%string -> (a ++ b)%string <> ""%string.
Proof. destruct a; simpl; [congruence|discriminate]. Qed.

Lemma poke_nonempty b i c : b <> [] -> poke b i c <> [].
Proof. destruct b, i; simpl; congruence. Qed.

Lemma put_char_buf c f : buf f <> [] -> buf (put_char c f) <> [].
Proof. unfold put_char. cbn [buf]. apply poke_nonempty. Qed.

Lemma emit_string_buf s : forall f, buf f <> [] -> buf (emit_string s f) <> [].
Proof.
  induction s as [|c r IH]; intros f H; simpl; [exact H|].
  apply IH, put_char_buf, H.
Qed.

Lemma emit_comment_buf a c f : buf f <> [] -> buf (emit_comment a c f) <> [].
Proof.
  intros H. unfold emit_comment. destruct (_ && _); [|exact H].
  apply emit_string_buf. do 3 apply put_char_buf. exact H.
Qed.

Lemma emit_axis_int_buf axis v d f : buf f <> [] -> buf (emit_axis_int axis v d f) <> [].
Proof.
  intros H. unfold emit_axis_int.
  pose proof (poke_nonempty _ (S (ptr f)) axis (poke_nonempty _ (ptr f) (chr " ") H)) as Hb.
  destruct (emit_number _ _ _) as [win p]. cbn [buf].
  destruct (poke (poke (buf f) (ptr f) (chr " ")) (S (ptr f)) axis); [congruence|].
  simpl. discriminate.
Qed.

Lemma emit_axis_buf axis v d f : buf f <> [] -> buf (emit_axis axis v d f) <> [].
Proof. apply emit_axis_int_buf. Qed.

Lemma G1_buf : buf GCodeG1Formatter <> [].
Proof. vm_compute. discriminate. Qed.

Lemma fmt_string_nonempty f : buf f <> [] -> fmt_string f <> ""%string.
Proof.
  intros H. unfold fmt_string, put_char. cbn [buf ptr].
  pose proof (poke_nonempty _ (ptr f) (chr (String "010" "")) H) as Hb.
  destruct (poke _ _ _); [congruence|]. simpl. discriminate.
Qed.

Lemma z_move_line_nonempty z speed c : z_move_line z speed c <> ""%string.
Proof.
  unfold z_move_line, emit_f, emit_z.
  apply fmt_string_nonempty, emit_comment_buf, emit_axis_buf, emit_axis_buf, G1_buf.
Qed.

(* ------------------------------------------------------------------ *)
(** ** Moves are defined once a tool is selected *)

Section Moves.
Context {libm : Libm}.

Lemma set_acceleration_impl_tool a w : tool_view (snd (set_acceleration_impl a w)) = tool_view w.
Proof.
  unfold set_acceleration_impl, set_acceleration_pieces.
  destruct (_ || _); reflexivity.
Qed.

Lemma tool_view_deref w w' :
  tool_view w' = tool_view w -> deref w' (filament w') = deref w (filament w).
Proof.
  unfold tool_view, deref, filament. intros H.
  injection H as Hc He Hi Ht _ _ _. rewrite He, Hi, Ht. reflexivity.
Qed.

Lemma tool_view_ready w w' : tool_view w' = tool_view w -> travel_ready w' = travel_ready w.
Proof.
  intros H. unfold travel_ready. rewrite (tool_view_deref _ _ H).
  unfold tool_view in H. injection H as Hc _ _ _ Hf Ha Hfa.
  rewrite Hc, Hf, Ha, Hfa. reflexivity.
Qed.

Lemma tool_view_speed tc w w' :
  tool_view w' = tool_view w -> z_move_speed tc w' = z_move_speed tc w.
Proof.
  intros H. unfold z_move_speed. rewrite (tool_view_deref _ _ H).
  unfold tool_view in H. injection H as Hc _ _ _ _ _ _. rewrite Hc. reflexivity.
Qed.

Lemma set_travel_acceleration_total w :
  travel_ready w = true ->
  exists s w', set_travel_acceleration w = Some (s, w')
               /\ tool_view w' = tool_view w /\ lift_view w' = lift_view w.
Proof.
  unfold travel_ready, set_travel_acceleration, deref, filament. intros H.
  destruct (if m_is_first_layer w then _ else _) as [|a l] eqn:El.
  - eexists _, _. split; [reflexivity|split; reflexivity].
  - destruct (m_curr_extruder_id w =? -1)%Z; [discriminate|].
    destruct (m_curr_filament_extruder w _) as [i|]; [|discriminate].
    destruct (nth_error (m_filament_extruders w) i) as [e|]; [|discriminate].
    apply Nat.ltb_lt in H.
    destruct (nth_error (a :: l) (extruder_id (config w) e)) as [acc|] eqn:En.
    + exists (fst (set_acceleration_impl acc w)), (snd (set_acceleration_impl acc w)).
      split; [rewrite <- surjective_pairing; reflexivity|].
      split; [apply set_acceleration_impl_tool|apply set_acceleration_impl_view].
    + apply nth_error_None in En. lia.
Qed.

Lemma z_move_speed_total tc w :
  travel_ready w = true -> exists speed, z_move_speed tc w = Some speed.
Proof.
  unfold travel_ready, z_move_speed. intros H.
  destruct (deref w (filament w)) as [[i e]|]; [|discriminate].
  eexists. reflexivity.
Qed.

Lemma _travel_to_z_total z c tc w :
  travel_ready w = true ->
  exists acc speed w',
    z_move_speed tc w = Some speed
    /\ _travel_to_z z c tc w = Some ((acc ++ z_move_line z speed c)%string, w')
    /\ tool_view w' = tool_view w
    /\ lift_view w' = lift_view (set_pos_z z w).
Proof.
  intros H. destruct (z_move_speed_total tc w H) as [speed Hs].
  assert (Hr : travel_ready (set_pos_z z w) = true) by exact H.
  destruct (set_travel_acceleration_total _ Hr) as (acc & w' & Ha & Ht & Hl).
  exists acc, speed, w'. split; [exact Hs|].
  unfold _travel_to_z.
  change (z_move_speed tc (set_pos_z z w)) with (z_move_speed tc w). rewrite Hs, Ha.
  split; [reflexivity|]. split; [exact Ht|exact Hl].
Qed.

End Moves.

(* ------------------------------------------------------------------ *)
(** ** Travel to a height under an applied lift *)

Lemma machine_will_move_z_exact z w : Machine.will_move_z Qminus z w = will_move_z z w.
Proof. reflexivity. Qed.

Lemma machine_travel_to_z_exact {libm : Libm} z c w :
  Machine.travel_to_z Qminus z c w = travel_to_z z c w.
Proof. reflexivity. Qed.

Lemma machine_will_move_z_lifted sub z w :
  0 < m_lifted w ->
  Machine.will_move_z sub z w
  = negb (Qle_bool (sub (z3 (m_pos w)) (m_lifted w)) z && Qle_bool z (z3 (m_pos w))).
Proof.
  intros Hl. unfold Machine.will_move_z. apply Qlt_bool_iff in Hl. rewrite Hl.
  destruct (_ && _); reflexivity.
Qed.

(** C2: on a writer with an applied lift and no pending lift, [travel_to_z]
    to a height between the nominal and the current height, both bounds
    included, returns the empty string and takes exactly that height minus
    the nominal height off [m_lifted], a result within EPSILON of zero
    becoming zero; to any other height it returns the acceleration text
    followed by the non-empty text of [_travel_to_z] to that height, and
    leaves [m_lifted] at zero and the writer at that height.  The nominal
    height and the two differences are those the subtraction of the machine
    gives, whichever operation that is. *)
Theorem travel_to_z_absorbs_lift (libm : Libm) (sub : Q -> Q -> Q) (w : GCodeWriter)
  (z : Q) (comment : string) :
  0 < m_lifted w -> m_to_lift w == 0 ->
  let nominal_z := sub (z3 (m_pos w)) (m_lifted w) in
  (nominal_z <= z /\ z <= z3 (m_pos w) ->
     Machine.travel_to_z sub z comment w
     = Some (""%string,
             set_lifted (let l := sub (m_lifted w) (sub z nominal_z) in
                         if Qlt_bool (Qabs l) EPSILON then 0 else l) w))
  /\ (~ (nominal_z <= z /\ z <= z3 (m_pos w)) -> travel_ready w = true ->
      exists acc line w1 w',
        set_travel_acceleration (set_lifted 0 w) = Some (acc, w1)
        /\ _travel_to_z z comment false w1 = Some (line, w')
        /\ Machine.travel_to_z sub z comment w = Some ((acc ++ line)%string, w')
        /\ line <> ""%string
        /\ m_lifted w' = 0 /\ z3 (m_pos w') = z /\ m_to_lift w' = m_to_lift w).
Proof.
  intros Hl _ nominal_z. subst nominal_z. split.
  - intros [H1 H2]. unfold Machine.travel_to_z.
    rewrite (machine_will_move_z_lifted sub z w Hl).
    apply Qle_bool_iff in H1, H2. rewrite H1, H2. cbn [andb negb]. cbv zeta.
    cbn [m_lifted set_lifted set_motion].
    destruct (Qlt_bool (Qabs _) EPSILON); reflexivity.
  - intros Hn Hr. unfold Machine.travel_to_z.
    rewrite (machine_will_move_z_lifted sub z w Hl).
    destruct (_ && _) eqn:Ec.
    { exfalso. apply Hn. apply andb_true_iff in Ec. destruct Ec as [E1 E2].
      split; apply Qle_bool_iff; assumption. }
    cbn [negb]. cbv zeta.
    assert (Hr1 : travel_ready (set_lifted 0 w) = true) by exact Hr.
    destruct (set_travel_acceleration_total _ Hr1) as (acc1 & w1 & Ha1 & Ht1 & Hv1).
    rewrite Ha1.
    assert (Hr2 : travel_ready w1 = true).
    { rewrite (tool_view_ready _ _ Ht1). exact Hr1. }
    destruct (_travel_to_z_total z comment false w1 Hr2) as (acc2 & speed & w2 & Hs & Hz & Ht2 & Hv2).
    rewrite Hz. exists acc1, (acc2 ++ z_move_line z speed comment)%string, w1, w2.
    split; [reflexivity|]. split; [exact Hz|]. split; [reflexivity|].
    split; [apply append_nonempty_r, z_move_line_nonempty|].
    unfold lift_view in Hv1, Hv2. cbn [m_pos m_lifted m_to_lift m_to_lift_type
      m_is_current_position_clear set_lifted set_pos_z set_pos set_motion] in Hv1, Hv2.
    injection Hv2 as Hp2 Hl2 Hm2 _ _. injection Hv1 as _ Hl1 Hm1 _ _.
    split; [congruence|]. split; [rewrite Hp2; reflexivity|congruence].
Qed.

(** At the double 5.4 with a lift of the double 0.4 the rounded nominal
    height is 5.0, and [travel_to_z] to 5.0 is absorbed.  At the double the
    sum of 0.2 and 0.4 rounds to, with the same lift, the rounded nominal
    height is above the double 0.2, and [travel_to_z] to 0.2 is a move. *)
Lemma travel_to_z_absorbs_lift_witness :
  (double_sub (z3 (m_pos boundary_writer)) (m_lifted boundary_writer) == 5
   /\ @Machine.travel_to_z sample_libm double_sub 5 "" boundary_writer
      = Some (""%string, boundary_writer))
  /\ (binary64 (2 # 10) < double_sub (z3 (m_pos raised_writer)) (m_lifted raised_writer)
      /\ exists acc line w1 w',
           @set_travel_acceleration sample_libm (set_lifted 0 raised_writer) = Some (acc, w1)
           /\ @_travel_to_z sample_libm (binary64 (2 # 10)) "" false w1 = Some (line, w')
           /\ @Machine.travel_to_z sample_libm double_sub (binary64 (2 # 10)) "" raised_writer
              = Some ((acc ++ line)%string, w')
           /\ line <> ""%string
           /\ m_lifted w' = 0 /\ z3 (m_pos w') = binary64 (2 # 10)
           /\ m_to_lift w' = m_to_lift raised_writer).
Proof.
  split.
  - assert (H1 : 0 < m_lifted boundary_writer) by (vm_compute; reflexivity).
    assert (H2 : m_to_lift boundary_writer == 0) by (vm_compute; reflexivity).
    destruct (travel_to_z_absorbs_lift sample_libm double_sub boundary_writer 5 "" H1 H2)
      as [Ha _].
    split; [vm_compute; reflexivity|].
    rewrite Ha; [vm_compute; reflexivity|].
    split; vm_compute; discriminate.
  - assert (H1 : 0 < m_lifted raised_writer) by (vm_compute; reflexivity).
    assert (H2 : m_to_lift raised_writer == 0) by (vm_compute; reflexivity).
    destruct (travel_to_z_absorbs_lift sample_libm double_sub raised_writer
                (binary64 (2 # 10)) "" H1 H2) as [_ Hm].
    split; [vm_compute; reflexivity|].
    apply Hm.
    + intros [Hn _]. vm_compute in Hn. apply Hn. reflexivity.
    + vm_compute. reflexivity.
Defined.

(** The exact difference at that state is above 5.0: with the subtraction of
    the rationals the same request is a move. *)
Example exact_subtraction_at_the_boundary :
  5 < z3 (m_pos boundary_writer) - m_lifted boundary_writer
  /\ option_map fst (@Machine.travel_to_z sample_libm Qminus 5 "" boundary_writer)
     = Some ("G1 Z5 F7200" ++ nl)%string.
Proof. split; vm_compute; reflexivity. Qed.

(* ------------------------------------------------------------------ *)
(** ** Acceleration *)

Lemma clamp_acceleration_le A w :
  (0 < m_max_acceleration w)%N -> (clamp_acceleration A w <= m_max_acceleration w)%N.
Proof.
  intros HM. unfold clamp_acceleration. apply N.ltb_lt in HM. rewrite HM. cbn [andb].
  destruct (N.ltb_spec (m_max_acceleration w) A); lia.
Qed.

Lemma accel_to_decel_le (a M : N) (factor : Q) :
  (a <= M)%N -> factor <= 100 ->
  inject_Z (Z.of_N a) * factor / 100 <= inject_Z (Z.of_N M).
Proof.
  intros Ha Hf.
  assert (H0 : 0 <= inject_Z (Z.of_N a)).
  { change 0 with (inject_Z 0). rewrite <- Zle_Qle. lia. }
  assert (H1 : inject_Z (Z.of_N a) <= inject_Z (Z.of_N M)).
  { rewrite <- Zle_Qle. lia. }
  apply Qle_shift_div_r; [reflexivity|].
  apply Qle_trans with (inject_Z (Z.of_N a) * 100).
  - rewrite !(Qmult_comm (inject_Z (Z.of_N a))). apply Qmult_le_compat_r; assumption.
  - apply Qmult_le_compat_r; [assumption|discriminate].
Qed.

Section Acceleration.
Context {libm : Libm}.

Lemma render_text_first s ps : s <> ""%string -> render (Txt s :: ps) <> ""%string.
Proof. intros H. cbn [render fold_right render_piece]. apply append_nonempty_l, H. Qed.

Lemma set_acceleration_pieces_emits A w :
  let a := clamp_acceleration A w in
  a <> 0%N -> a <> m_last_acceleration w ->
  exists s ps, s <> ""%string
    /\ fst (set_acceleration_pieces A w) = Txt s :: ps
    /\ In (UInt a) ps
    /\ Forall (fun p => match p with
                        | Txt _ => True
                        | UInt n => n = a
                        | Dbl q => q == inject_Z (Z.of_N a) * accel_to_decel_factor (config w) / 100
                        end) ps
    /\ snd (set_acceleration_pieces A w) = set_last_acceleration a w.
Proof.
  intros a H0 Hl. unfold set_acceleration_pieces. fold a.
  apply N.eqb_neq in H0, Hl. rewrite H0, Hl. cbn [orb].
  unfold full_gcode_comment, FLAVOR_IS.
  cbn [config set_last_acceleration].
  destruct (flavor_eqb _ gcfRepetier);
    [|destruct (flavor_eqb _ gcfRepRapFirmware);
      [|destruct (flavor_eqb _ gcfMarlinFirmware);
        [|destruct (flavor_eqb _ gcfKlipper && _)]]];
    cbn [app fst snd];
    eexists _, _; (split; [|split; [reflexivity|split; [|split; [|reflexivity]]]]);
    try discriminate; cbn [In]; auto 10;
    repeat constructor; reflexivity.
Qed.

End Acceleration.

Lemma clamp_acceleration_min A w :
  (0 < m_max_acceleration w)%N ->
  clamp_acceleration A w = N.min A (m_max_acceleration w).
Proof.
  intros HM. unfold clamp_acceleration. apply N.ltb_lt in HM. rewrite HM. cbn [andb].
  destruct (N.ltb_spec (m_max_acceleration w) A); lia.
Qed.

(** C3: with a positive maximum M a request A is emitted as the smaller of A
    and M: A itself when it is at most M, M when it is above.  Every
    acceleration number the call streams out is at most M (the
    accel-to-decel companion value of Klipper is at most M when the
    configured percentage is at most 100); when the smaller of A and M is
    zero, which is when A is zero, or equal to the last emitted value, the
    call returns the empty string and leaves the writer as it is; otherwise
    it returns a non-empty text that carries the smaller of A and M and
    records it as the last emitted value; a following request with the same
    smaller value returns the empty string; after [reset_last_acceleration]
    the same non-zero request is emitted again. *)
Theorem acceleration_clamped_and_suppressed (libm : Libm) (A : N) (w : GCodeWriter) :
  (0 < m_max_acceleration w)%N ->
  let a := N.min A (m_max_acceleration w) in
  let ps := fst (set_acceleration_pieces A w) in
  let w1 := snd (set_acceleration_impl A w) in
  Forall (piece_within w) ps
  /\ fst (set_acceleration_impl A w) = render ps
  /\ (a = 0%N \/ a = m_last_acceleration w -> set_acceleration_impl A w = (""%string, w))
  /\ (a <> 0%N -> a <> m_last_acceleration w ->
      fst (set_acceleration_impl A w) <> ""%string /\ In (UInt a) ps
      /\ w1 = set_last_acceleration a w)
  /\ (forall A', N.min A' (m_max_acceleration w) = a ->
                 fst (set_acceleration_impl A' w1) = ""%string)
  /\ (a <> 0%N ->
      fst (set_acceleration_impl A (reset_last_acceleration w1)) <> ""%string)
  /\ (a = 0%N <-> A = 0%N).
Proof.
  intros HM a0 ps w1.
  assert (Hmin : forall A', clamp_acceleration A' w = N.min A' (m_max_acceleration w))
    by (intros A'; apply clamp_acceleration_min, HM).
  assert (Hzero : a0 = 0%N <-> A = 0%N) by (unfold a0; lia).
  assert (Ea : a0 = clamp_acceleration A w) by (symmetry; apply Hmin).
  clearbody a0. subst a0. set (a := clamp_acceleration A w) in *.
  assert (Hreset : forall w0, m_max_acceleration w0 = m_max_acceleration w ->
                     FLAVOR_IS w0 = FLAVOR_IS w -> a <> 0%N ->
                     fst (set_acceleration_impl A (reset_last_acceleration w0)) <> ""%string).
  { intros w0 Hm Hfl Ha.
    assert (Hc : clamp_acceleration A (reset_last_acceleration w0) = a).
    { unfold a, clamp_acceleration. cbn [m_max_acceleration reset_last_acceleration
        set_last_acceleration]. rewrite Hm. reflexivity. }
    destruct (set_acceleration_pieces_emits A (reset_last_acceleration w0))
      as (s & r & Hs & Hps & _); [rewrite Hc; exact Ha|rewrite Hc; exact Ha|].
    unfold set_acceleration_impl.
    destruct (set_acceleration_pieces A (reset_last_acceleration w0)) as [x y].
    cbn [fst] in *. rewrite Hps. apply render_text_first, Hs. }
  pose proof (clamp_acceleration_le A w HM) as Hle. fold a in Hle.
  assert (Hrender : fst (set_acceleration_impl A w) = render ps).
  { unfold set_acceleration_impl. subst ps.
    destruct (set_acceleration_pieces A w). reflexivity. }
  assert (Hquiet : a = 0%N \/ a = m_last_acceleration w ->
                   set_acceleration_pieces A w = ([], w)).
  { intros Hq. unfold set_acceleration_pieces. fold a.
    destruct Hq as [Hq|Hq]; rewrite Hq.
    - reflexivity.
    - rewrite N.eqb_refl, orb_true_r. reflexivity. }
  destruct (N.eq_dec a 0) as [E0|N0];
    [|destruct (N.eq_dec a (m_last_acceleration w)) as [El|Nl]].
  1, 2: assert (Hq : set_acceleration_pieces A w = ([], w)) by (apply Hquiet; auto);
        assert (Hi : set_acceleration_impl A w = (""%string, w))
          by (unfold set_acceleration_impl; rewrite Hq; reflexivity);
        subst ps w1; rewrite Hq, Hi; cbn [fst snd];
        (split; [constructor|]); (split; [reflexivity|]); (split; [reflexivity|]);
        (split; [intros; contradiction|]);
        (split; [|split; [apply Hreset; reflexivity|exact Hzero]]);
        intros A' HA'; rewrite <- Hmin in HA';
        unfold set_acceleration_impl, set_acceleration_pieces;
        rewrite HA'.
  - rewrite E0. reflexivity.
  - rewrite El, N.eqb_refl, orb_true_r. reflexivity.
  - destruct (set_acceleration_pieces_emits A w N0 Nl) as (s & r & Hs & Hps & Hin & Hall & Hw).
    fold a in Hin, Hall, Hw. fold ps in Hps.
    assert (Hw1 : w1 = set_last_acceleration a w).
    { subst w1. unfold set_acceleration_impl.
      destruct (set_acceleration_pieces A w) as [x y]. exact Hw. }
    split; [|split; [exact Hrender|split; [intros [?|?]; contradiction|
                                           split; [|split; [|split]]]]].
    + rewrite Hps. constructor; [exact I|].
      eapply Forall_impl; [|exact Hall].
      intros [t|n|q]; cbn [piece_within]; [auto|intros ->; exact Hle|].
      intros Hq Hf. rewrite Hq. apply accel_to_decel_le; assumption.
    + intros _ _. split; [|split].
      * rewrite Hrender, Hps. apply render_text_first, Hs.
      * rewrite Hps. right. exact Hin.
      * exact Hw1.
    + intros A' HA'. rewrite <- Hmin in HA'.
      rewrite Hw1. unfold set_acceleration_impl, set_acceleration_pieces.
      change (clamp_acceleration A' (set_last_acceleration a w))
        with (clamp_acceleration A' w).
      rewrite HA'. cbn [m_last_acceleration set_last_acceleration].
      rewrite N.eqb_refl, orb_true_r. reflexivity.
    + rewrite Hw1. apply Hreset; reflexivity.
    + exact Hzero.
Qed.

(** A request above the maximum of 3000 is emitted as 3000, one below it as
    itself. *)
Lemma acceleration_clamped_and_suppressed_witness :
  Forall (piece_within limited_writer) (fst (set_acceleration_pieces 5000 limited_writer))
  /\ fst (@set_acceleration_impl sample_libm 5000 limited_writer)
     = ("SET_VELOCITY_LIMIT ACCEL_TO_DECEL=1500" ++ nl ++ "M204 S3000" ++ nl)%string
  /\ In (UInt 2000) (fst (set_acceleration_pieces 2000 limited_writer))
  /\ fst (@set_acceleration_impl sample_libm 2000 limited_writer)
     = ("SET_VELOCITY_LIMIT ACCEL_TO_DECEL=1000" ++ nl ++ "M204 S2000" ++ nl)%string.
Proof.
  assert (HM : (0 < m_max_acceleration limited_writer)%N) by (vm_compute; reflexivity).
  destruct (acceleration_clamped_and_suppressed sample_libm 5000 limited_writer HM)
    as (Hall & Hr & _).
  destruct (acceleration_clamped_and_suppressed sample_libm 2000 limited_writer HM)
    as (_ & Hr' & _ & He & _).
  destruct He as (_ & Hin & _); [vm_compute; discriminate|vm_compute; discriminate|].
  split; [exact Hall|]. split; [rewrite Hr; vm_compute; reflexivity|].
  split; [exact Hin|].
  rewrite Hr'. vm_compute. reflexivity.
Defined.

(* ------------------------------------------------------------------ *)
(** ** The tool vector and its binary search *)

Lemma insert_sorted_In x l y : In y (insert_sorted x l) -> y = x \/ In y l.
Proof.
  induction l as [|a l IH]; simpl.
  - intros [H|[]]; auto.
  - destruct (x <=? a)%nat; simpl; intros [H|H]; auto.
    destruct (IH H); auto.
Qed.

Lemma insert_sorted_sorted x l :
  StronglySorted le l -> StronglySorted le (insert_sorted x l).
Proof.
  induction 1 as [|a l Hs IH Ha]; simpl.
  - constructor; constructor.
  - destruct (Nat.leb_spec x a).
    + constructor; [constructor; assumption|].
      constructor; [assumption|].
      eapply Forall_impl; [|exact Ha]. intros b Hb. simpl in Hb. lia.
    + constructor; [exact IH|].
      apply Forall_forall. intros y Hy. apply insert_sorted_In in Hy.
      destruct Hy as [->|Hy]; [lia|].
      rewrite Forall_forall in Ha. apply Ha, Hy.
Qed.

Lemma std_sort_sorted l : StronglySorted le (std_sort l).
Proof.
  induction l as [|x l IH]; simpl; [constructor|].
  apply insert_sorted_sorted, IH.
Qed.

Lemma strongly_sorted_by_id l : StronglySorted le (map id l) -> sorted_by_id l.
Proof.
  unfold sorted_by_id. induction l as [|e l IH]; intros Hs i j a b Hij Hi Hj.
  - destruct i; discriminate.
  - simpl in Hs. inversion Hs as [|x y Hs' Hall]; subst.
    destruct i as [|i], j as [|j]; simpl in Hi, Hj; try lia.
    + injection Hi as <-. injection Hj as <-. lia.
    + injection Hi as <-. rewrite Forall_forall in Hall. apply Hall.
      apply in_map. eapply nth_error_In; eassumption.
    + eapply IH; [exact Hs'| |eassumption|eassumption]. lia.
Qed.

Lemma set_extruders_sorted ids w w' :
  set_extruders ids w = Some w' -> sorted_by_id (m_filament_extruders w').
Proof.
  unfold set_extruders. intros H.
  destruct (max_element _); [|discriminate]. injection H as <-.
  cbn [m_filament_extruders set_multiple_extruders set_filament_extruders].
  apply strongly_sorted_by_id. rewrite map_map. cbn [id new_Extruder].
  rewrite map_id. apply std_sort_sorted.
Qed.

Section LowerBound.
Variable A : Type.
Variable lower_than_key : A -> bool.
Variable l : list A.

(** The predicate holds on a prefix of the range. *)
Hypothesis partitioned :
  forall i j a b, (i <= j)%nat -> nth_error l i = Some a -> nth_error l j = Some b ->
                  lower_than_key b = true -> lower_than_key a = true.

Lemma lower_bound_loop_spec fuel :
  forall first count,
    (count < fuel)%nat -> (first + count <= List.length l)%nat ->
    (forall i a, (i < first)%nat -> nth_error l i = Some a -> lower_than_key a = true) ->
    (forall i a, (first + count <= i)%nat -> nth_error l i = Some a ->
                 lower_than_key a = false) ->
    let r := lower_bound_loop fuel lower_than_key l first count in
    (r <= List.length l)%nat
    /\ (forall i a, (i < r)%nat -> nth_error l i = Some a -> lower_than_key a = true)
    /\ (forall i a, (r <= i)%nat -> nth_error l i = Some a -> lower_than_key a = false).
Proof.
  induction fuel as [|fuel IH]; intros first count Hf Hlen Hlo Hhi; [lia|].
  cbn [lower_bound_loop]. destruct (Nat.eqb_spec count 0) as [->|Hc].
  - rewrite Nat.add_0_r in Hhi. repeat split; [lia|exact Hlo|exact Hhi].
  - assert (Hstep : (count / 2 < count)%nat) by (apply Nat.div_lt; lia).
    destruct (nth_error l (first + count / 2)) as [x|] eqn:Ex.
    + destruct (lower_than_key x) eqn:Ep.
      * apply IH; [lia|lia| |].
        -- intros i a Hi Ha. eapply (partitioned i (first + count / 2)%nat); try eassumption. lia.
        -- intros i a Hi Ha. apply (Hhi i a); [lia|exact Ha].
      * apply IH; [lia|lia|exact Hlo|].
        intros i a Hi Ha. destruct (lower_than_key a) eqn:Ea; [|reflexivity].
        rewrite (partitioned (first + count / 2)%nat i x a Hi Ex Ha Ea) in Ep. discriminate.
    + apply nth_error_None in Ex. lia.
Qed.

Lemma lower_bound_by_predicate_spec :
  let r := lower_bound_by_predicate l lower_than_key in
  (r <= List.length l)%nat
  /\ (forall i a, (i < r)%nat -> nth_error l i = Some a -> lower_than_key a = true)
  /\ (forall i a, (r <= i)%nat -> nth_error l i = Some a -> lower_than_key a = false).
Proof.
  unfold lower_bound_by_predicate. apply lower_bound_loop_spec.
  - lia.
  - lia.
  - intros i a Hi. lia.
  - intros i a Hi Ha. assert (nth_error l i <> None) by congruence.
    apply nth_error_Some in H. lia.
Qed.

End LowerBound.

(** On a vector sorted by id the search finds the tool that is present. *)
Lemma lower_bound_finds (l : list Extruder) (t : nat) :
  sorted_by_id l -> In t (map id l) ->
  exists e, nth_error l (lower_bound_by_predicate l (fun e => (id e <? t)%nat)) = Some e
            /\ id e = t.
Proof.
  intros Hs Hin.
  apply in_map_iff in Hin. destruct Hin as (et & Het & Hin).
  apply In_nth_error in Hin. destruct Hin as (j & Hj).
  destruct (lower_bound_by_predicate_spec Extruder (fun e => (id e <? t)%nat) l)
    as (Hr & Hlo & Hhi).
  { intros i k a b Hik Ha Hb Hlt. apply Nat.ltb_lt in Hlt. apply Nat.ltb_lt.
    pose proof (Hs i k a b Hik Ha Hb). lia. }
  set (r := lower_bound_by_predicate l _) in *.
  assert (Hrj : (r <= j)%nat).
  { destruct (Nat.le_gt_cases r j) as [H|H]; [exact H|].
    pose proof (Hlo j et H Hj) as Hlt. apply Nat.ltb_lt in Hlt. lia. }
  assert (Hjl : (j < List.length l)%nat).
  { apply nth_error_Some. congruence. }
  destruct (nth_error l r) as [e|] eqn:Er.
  - exists e. split; [reflexivity|].
    pose proof (Hhi r e (Nat.le_refl r) Er) as Hge. apply Nat.ltb_ge in Hge.
    pose proof (Hs r j e et Hrj Er Hj). lia.
  - apply nth_error_None in Er. lia.
Qed.

(* ------------------------------------------------------------------ *)
(** ** Selecting a tool *)

Lemma nth_error_replace_nth {A : Type} (l : list A) i (v a : A) :
  nth_error l i = Some a -> nth_error (replace_nth i v l) i = Some v.
Proof.
  revert i. induction l as [|h t IH]; intros [|i] H; simpl in *; try discriminate.
  - reflexivity.
  - apply IH, H.
Qed.

Lemma filament_set_current eid r tbl w :
  filament (set_current (Z.of_nat eid)
              (fun k => if (k =? eid)%nat then Some r else tbl k) w) = Some r.
Proof.
  unfold filament. cbn [m_curr_extruder_id m_curr_filament_extruder set_current].
  destruct (Z.eqb_spec (Z.of_nat eid) (-1)) as [H|_]; [lia|].
  rewrite Nat2Z.id, Nat.eqb_refl. reflexivity.
Qed.

Lemma toolchange_command_nonempty (a c r : string) :
  ((a ++ c ++ nl) ++ r)%string <> ""%string.
Proof.
  apply append_nonempty_l, append_nonempty_r, append_nonempty_r. discriminate.
Qed.

(** After [toolchange] finds the tool, the tool is current; with several
    extruders the text is not empty, with one it is. *)
Lemma toolchange_selects t w r e :
  nth_error (m_filament_extruders w) r = Some e -> id e = t ->
  lower_bound_by_predicate (m_filament_extruders w) (fun e => (id e <? t)%nat) = r ->
  exists s w', toolchange t w = Some (s, w')
               /\ (s <> ""%string <-> multiple_extruders w = true)
               /\ current_tool w' = Some t.
Proof.
  intros Hnth Hid Hr. unfold toolchange. rewrite Hr.
  unfold deref at 1. rewrite Hnth.
  set (w1 := set_current _ _ w).
  assert (Hf1 : filament w1 = Some r) by apply filament_set_current.
  assert (Hd1 : deref w1 (Some r) = Some (r, e)).
  { unfold deref. cbn [m_filament_extruders w1 set_current]. rewrite Hnth. reflexivity. }
  assert (Hc1 : current_tool w1 = Some t).
  { unfold current_tool. rewrite Hf1, Hd1. rewrite Hid. reflexivity. }
  change (multiple_extruders w1) with (multiple_extruders w).
  destruct (multiple_extruders w) eqn:Em.
  - unfold reset_e. destruct (_ || _).
    + eexists _, _. split; [reflexivity|]. split; [|exact Hc1].
      split; [reflexivity|]. intros _. apply toolchange_command_nonempty.
    + rewrite Hf1, Hd1. rewrite andb_false_r.
      assert (Hc2 : current_tool (store r (Extruder_reset_E e) w1) = Some t).
      { unfold current_tool.
        change (filament (store r (Extruder_reset_E e) w1)) with (filament w1).
        rewrite Hf1. unfold deref.
        cbn [m_filament_extruders store set_filament_extruders w1 set_current].
        rewrite (nth_error_replace_nth _ r _ e Hnth). cbn [id Extruder_reset_E].
        rewrite Hid. reflexivity. }
      destruct (negb _); eexists _, _;
        (split; [reflexivity|]); (split; [|exact Hc2]);
        (split; [reflexivity|]); intros _; apply toolchange_command_nonempty.
  - eexists _, _. split; [reflexivity|]. split; [|exact Hc1].
    split; [congruence|discriminate].
Qed.

Lemma sample_writer_sorted flavor relative ids :
  sorted_by_id (m_filament_extruders (sample_writer flavor relative ids)).
Proof.
  unfold sample_writer.
  destruct (set_extruders ids _) as [w|] eqn:Ew.
  - eapply set_extruders_sorted, Ew.
  - intros i j a b _ Hi. destruct i; discriminate.
Qed.

(** C4, as claimed: with the single tool 0 configured and none selected yet,
    [set_extruder 0] selects the tool and returns the empty string. *)
Lemma single_tool_selected_silently : ~ toolchange_text_iff_tool_differs.
Proof.
  intros H.
  destruct (H (sample_writer gcfMarlinFirmware false [0%nat]) 0%nat)
    as (s & w' & Hs & Hiff & _).
  - apply sample_writer_sorted.
  - vm_compute. left. reflexivity.
  - vm_compute in Hs. injection Hs as <- _.
    destruct Hiff as [_ Hne]. apply Hne; reflexivity.
Qed.

(** C4, amended: for a tool vector sorted by id and a tool t in it,
    [set_extruder t] returns a non-empty text exactly when the writer has
    several extruders and t is not the selected tool (or none is selected);
    after the call the selected tool is t. *)
Theorem set_extruder_selects (w : GCodeWriter) (t : nat) :
  sorted_by_id (m_filament_extruders w) ->
  In t (map id (m_filament_extruders w)) ->
  exists s w', set_extruder t w = Some (s, w')
               /\ (s <> ""%string <->
                   multiple_extruders w = true /\ need_toolchange t w = true)
               /\ current_tool w' = Some t.
Proof.
  intros Hs Hin.
  destruct (lower_bound_finds _ t Hs Hin) as (e & Hnth & Hid).
  unfold set_extruder. unfold deref at 1. rewrite Hnth.
  destruct (need_toolchange t w) eqn:En.
  - destruct (toolchange_selects t w _ e Hnth Hid eq_refl) as (s & w' & Ht & Hiff & Hc).
    exists s, w'. split; [exact Ht|]. split; [|exact Hc].
    rewrite Hiff. tauto.
  - exists ""%string, w. split; [reflexivity|]. split.
    + split; [congruence|]. intros [_ H]. discriminate.
    + unfold need_toolchange in En. unfold current_tool.
      destruct (deref w (filament w)) as [[i e']|]; [|discriminate].
      apply negb_false_iff, Nat.eqb_eq in En. rewrite En. reflexivity.
Qed.

Lemma set_extruder_selects_witness :
  exists s w', set_extruder 1 (sample_writer gcfMarlinFirmware false [1%nat; 0%nat])
               = Some (s, w')
               /\ current_tool w' = Some 1%nat.
Proof.
  destruct (set_extruder_selects (sample_writer gcfMarlinFirmware false [1%nat; 0%nat]) 1%nat)
    as (s & w' & Hs & _ & Hc).
  - apply sample_writer_sorted.
  - vm_compute. right. left. reflexivity.
  - exists s, w'. split; assumption.
Defined.

(* ------------------------------------------------------------------ *)
(** ** Temperatures *)

(** C5, as claimed: the second of two equal nozzle requests returns the same
    non-empty text as the first. *)
Lemma nozzle_request_repeats : ~ bed_and_nozzle_request_twice.
Proof.
  intros H.
  destruct (H marlin_writer 60%Z 200%N false (-1)%Z) as [_ [_ Hn]].
  vm_compute in Hn. discriminate Hn.
Qed.

Lemma set_bed_temperature_snd bed wait w :
  snd (set_bed_temperature bed wait w)
  = if (bed =? m_last_bed_temperature w)%Z
       && (negb wait || m_last_bed_temperature_reached w)
    then w else set_last_bed bed wait w.
Proof.
  unfold set_bed_temperature. destruct (_ && _); [reflexivity|].
  destruct wait; reflexivity.
Qed.

(** C5, amended: the second of two equal bed requests in a row returns the
    empty string and leaves the writer as it is; the first returns text
    unless the writer already holds that temperature as the last one (and,
    for a waiting request, as reached).  [set_temperature] keeps no state:
    equal nozzle requests return equal texts, empty only for a waiting
    request under the MakerWare or Sailfish flavor. *)
Theorem temperature_requests_twice (w : GCodeWriter) (bed : Z) (nozzle : N)
  (wait : bool) (tool : Z) :
  let s1 := fst (set_bed_temperature bed wait w) in
  let w1 := snd (set_bed_temperature bed wait w) in
  set_bed_temperature bed wait w1 = (""%string, w1)
  /\ (s1 = ""%string <->
      bed = m_last_bed_temperature w
      /\ (wait = false \/ m_last_bed_temperature_reached w = true))
  /\ (set_temperature nozzle wait tool w = ""%string <->
      wait = true /\ (FLAVOR_IS w gcfMakerWare = true \/ FLAVOR_IS w gcfSailfish = true)).
Proof.
  intros s1 w1. subst s1 w1. split; [|split].
  - rewrite set_bed_temperature_snd.
    destruct ((bed =? m_last_bed_temperature w)%Z
              && (negb wait || m_last_bed_temperature_reached w)) eqn:Ec.
    + unfold set_bed_temperature. rewrite Ec. reflexivity.
    + unfold set_bed_temperature.
      cbn [m_last_bed_temperature m_last_bed_temperature_reached set_last_bed].
      rewrite Z.eqb_refl. destruct wait; reflexivity.
  - unfold set_bed_temperature.
    destruct (Z.eqb_spec bed (m_last_bed_temperature w)) as [Eb|Nb]; cbn [andb].
    + destruct wait; cbn [negb orb].
      * destruct (m_last_bed_temperature_reached w); cbn [fst].
        -- split; auto.
        -- split; [discriminate|]. intros [_ [H|H]]; discriminate.
      * cbn [fst]. split; auto.
    + destruct wait; cbn [fst]; (split; [discriminate|]); intros [H _]; contradiction.
  - unfold set_temperature.
    destruct wait; cbn [andb].
    + destruct (FLAVOR_IS w gcfMakerWare) eqn:E1; cbn [orb].
      * split; auto.
      * destruct (FLAVOR_IS w gcfSailfish) eqn:E2.
        -- split; auto.
        -- split; [|intros [_ [H|H]]; discriminate].
           destruct (FLAVOR_IS_NOT w gcfTeacup && FLAVOR_IS_NOT w gcfRepRapFirmware);
             [discriminate|].
           destruct (FLAVOR_IS w gcfRepRapFirmware); discriminate.
    + split; [|intros [H _]; discriminate].
      destruct (FLAVOR_IS w gcfRepRapFirmware); discriminate.
Qed.

(** C6, as claimed: the repeated chamber request returns the command again. *)
Lemma chamber_request_repeats : ~ chamber_request_twice.
Proof.
  intros H. specialize (H marlin_writer 60%Z false).
  vm_compute in H. discriminate H.
Qed.

(** C6, amended: [set_chamber_temperature] keeps no state; every call leaves
    the writer as it is and returns the same non-empty command text, the
    repeated call included. *)
Theorem chamber_temperature_stateless (w : GCodeWriter) (temperature : Z) (wait : bool) :
  let s1 := fst (set_chamber_temperature temperature wait w) in
  let w1 := snd (set_chamber_temperature temperature wait w) in
  w1 = w /\ s1 <> ""%string /\ set_chamber_temperature temperature wait w1 = (s1, w1).
Proof.
  unfold set_chamber_temperature. destruct wait; cbn [fst snd];
    (split; [reflexivity|]); (split; [discriminate|reflexivity]).
Qed.

(* ------------------------------------------------------------------ *)
(** ** Retraction *)

Lemma deref_inv w i e :
  deref w (filament w) = Some (i, e) ->
  filament w = Some i /\ nth_error (m_filament_extruders w) i = Some e.
Proof.
  unfold deref. destruct (filament w) as [k|]; [|discriminate].
  destruct (nth_error _ k) as [x|] eqn:Ex; [|discriminate].
  intros H. injection H as <- <-. auto.
Qed.

Lemma deref_store w i e e' :
  deref w (filament w) = Some (i, e) ->
  deref (store i e' w) (filament (store i e' w)) = Some (i, e').
Proof.
  intros H. apply deref_inv in H. destruct H as [Hf Hn].
  change (filament (store i e' w)) with (filament w). rewrite Hf.
  unfold deref. cbn [m_filament_extruders store set_filament_extruders].
  rewrite (nth_error_replace_nth _ i e' e Hn). reflexivity.
Qed.

(** The tracker on a tool retracted by less than the length asked for. *)
Lemma Extruder_retract_outstanding len restart e :
  retracted e < len ->
  exists dE e', Extruder_retract len restart e = (dE, e')
                /\ 0 < dE /\ id e' = id e /\ retracted e' == len.
Proof.
  intros H. unfold Extruder_retract.
  destruct (Q.max_spec 0 (len - retracted e)) as [[H1 H2]|[H1 H2]]; [|lra].
  assert (Hpos : 0 < Qmax 0 (len - retracted e)) by lra.
  apply Qlt_bool_iff in Hpos. rewrite Hpos.
  eexists _, _. split; [reflexivity|]. apply Qlt_bool_iff in Hpos.
  split; [exact Hpos|]. split; [reflexivity|]. cbn [retracted]. lra.
Qed.

(** The tracker on a tool already retracted by the length asked for. *)
Lemma Extruder_retract_done len restart e :
  len <= retracted e ->
  exists dE, Extruder_retract len restart e = (dE, e) /\ dE == 0.
Proof.
  intros H. unfold Extruder_retract.
  destruct (Q.max_spec 0 (len - retracted e)) as [[H1 H2]|[H1 H2]]; [lra|].
  assert (Hz : Qmax 0 (len - retracted e) <= 0) by lra.
  apply Qlt_bool_false in Hz. rewrite Hz.
  eexists. split; [reflexivity|exact H2].
Qed.

Lemma G1_line_nonempty comment speed e :
  fmt_string (emit_comment full_gcode_comment comment
                (emit_f speed (emit_e e GCodeG1Formatter))) <> ""%string.
Proof.
  unfold emit_f, emit_e.
  apply fmt_string_nonempty, emit_comment_buf, emit_axis_buf, emit_axis_buf, G1_buf.
Qed.

Lemma _retract_outstanding len restart comment w i e :
  deref w (filament w) = Some (i, e) ->
  retracted e < (if use_firmware_retraction (config w) then 1 else len) ->
  exists s e', _retract len restart comment w = Some (s, store i e' w)
               /\ s <> ""%string /\ id e' = id e
               /\ retracted e' == (if use_firmware_retraction (config w) then 1 else len).
Proof.
  intros Hd Hlt. unfold _retract. rewrite Hd.
  destruct (Extruder_retract_outstanding _ restart e Hlt) as (dE & e' & Hr & Hpos & Hid & Hret).
  rewrite Hr.
  assert (Hne : Qeq_bool dE 0 = false) by (apply Qeq_bool_false; lra).
  rewrite Hne. cbn [negb].
  eexists _, e'. split; [reflexivity|]. split; [|split; assumption].
  change (config (store i e' w)) with (config w).
  change (FLAVOR_IS (store i e' w)) with (FLAVOR_IS w).
  assert (Hg : (if use_firmware_retraction (config w)
                then if FLAVOR_IS w gcfMachinekit then "G22 ;retract"%string
                     else ("G10 ;retract " ++ nl)%string
                else fmt_string (emit_comment full_gcode_comment comment
                       (emit_f (retract_speed (config w) (id e') * 60)
                          (emit_e (E e') GCodeG1Formatter)))) <> ""%string).
  { destruct (use_firmware_retraction (config w)).
    - destruct (FLAVOR_IS w gcfMachinekit); discriminate.
    - apply G1_line_nonempty. }
  destruct (FLAVOR_IS w gcfMakerWare); [apply append_nonempty_l|]; exact Hg.
Qed.

Lemma _retract_done len restart comment w i e :
  deref w (filament w) = Some (i, e) ->
  (if use_firmware_retraction (config w) then 1 else len) <= retracted e ->
  _retract len restart comment w
  = Some (if is_makerware w then ("M103 ; extruder off" ++ nl)%string else ""%string,
          store i e w).
Proof.
  intros Hd Hle. unfold _retract. rewrite Hd.
  destruct (Extruder_retract_done _ restart e Hle) as (dE & Hr & Hz).
  rewrite Hr. apply Qeq_bool_iff in Hz. rewrite Hz. cbn [negb].
  unfold is_makerware. change (FLAVOR_IS (store i e w)) with (FLAVOR_IS w).
  destruct (FLAVOR_IS w gcfMakerWare); reflexivity.
Qed.

(** C7, as claimed: under the MakerWare flavor the second [retract] returns
    the extruder-off command, not the empty string. *)
Lemma second_retract_not_empty : ~ retract_twice.
Proof.
  intros H.
  destruct (H makerware_writer false 0%nat (new_Extruder 0))
    as (s1 & w1 & s2 & w2 & H1 & _ & H2 & Hs2).
  - vm_compute. reflexivity.
  - vm_compute. reflexivity.
  - vm_compute in H1. injection H1 as _ <-.
    vm_compute in H2. injection H2 as <- _. discriminate Hs2.
Qed.

(** C7, amended: on a tool retracted by less than the length [retract] asks
    for, the first call returns a non-empty text and the second call emits
    no retraction: it returns the empty string, except under the MakerWare
    flavor, where it returns the extruder-off command alone. *)
Theorem retract_twice_in_a_row (w : GCodeWriter) (before_wipe : bool) (i : nat) (e : Extruder) :
  deref w (filament w) = Some (i, e) ->
  retracted e < retract_length before_wipe w e ->
  exists s1 w1 s2 w2,
    retract before_wipe w = Some (s1, w1) /\ s1 <> ""%string
    /\ retract before_wipe w1 = Some (s2, w2)
    /\ s2 = (if is_makerware w then ("M103 ; extruder off" ++ nl)%string else ""%string).
Proof.
  intros Hd Hlt. unfold retract_length in Hlt.
  unfold retract at 1. rewrite Hd.
  set (factor := if before_wipe then retract_before_wipe (config w) (id e) else 1) in *.
  destruct (_retract_outstanding (factor * retraction_length (config w) (id e))
              (factor * retract_restart_extra (config w) (id e)) "retract" w i e Hd Hlt)
    as (s1 & e' & H1 & Hne & Hid & Hret).
  rewrite H1. exists s1, (store i e' w).
  pose proof (deref_store w i e e' Hd) as Hd'.
  unfold retract. rewrite Hd'. change (config (store i e' w)) with (config w).
  rewrite Hid. fold factor.
  rewrite (_retract_done _ _ _ (store i e' w) i e' Hd').
  - eexists _, _. split; [reflexivity|]. split; [exact Hne|].
    split; [reflexivity|reflexivity].
  - change (config (store i e' w)) with (config w). rewrite Hret. apply Qle_refl.
Qed.

Lemma retract_twice_in_a_row_witness :
  exists s1 w1 s2 w2,
    retract false marlin_writer = Some (s1, w1) /\ s1 <> ""%string
    /\ retract false w1 = Some (s2, w2) /\ s2 = ""%string.
Proof.
  apply (retract_twice_in_a_row marlin_writer false 1%nat (new_Extruder 1)).
  - vm_compute. reflexivity.
  - vm_compute. reflexivity.
Defined.

(* ------------------------------------------------------------------ *)
(** ** Resetting E *)

(** C9, as claimed: with relative distances and 1.5 extruded, [reset_e]
    returns the empty string and sets E of the current tool to zero. *)
Lemma relative_reset_zeroes_E : ~ relative_reset_is_noop.
Proof.
  intros H.
  destruct (H relative_writer false) as (w' & Hr & Hsame); [reflexivity|].
  vm_compute in Hr. injection Hr as <-.
  vm_compute in Hsame. discriminate Hsame.
Qed.

(** C9, amended: with relative extrusion distances [reset_e], forced or not,
    returns the empty string.  The writer is left as it is for the Mach3,
    MakerWare and Sailfish flavors, when no tool is selected, and when E is
    zero and the reset is not forced; in every other case E of the current
    tool is set to zero. *)
Theorem relative_reset_returns_empty (w : GCodeWriter) (force : bool) :
  use_relative_e_distances (config w) = true ->
  valid_current w ->
  exists w', reset_e force w = Some (""%string, w')
    /\ match deref w (filament w) with
       | None => w' = w
       | Some (i, e) =>
           if reset_e_skipped w || (Qeq_bool (E e) 0 && negb force) then w' = w
           else w' = store i (Extruder_reset_E e) w /\ current_E w' = Some 0
       end.
Proof.
  intros Hrel Hv. unfold reset_e, reset_e_skipped.
  destruct (FLAVOR_IS w gcfMach3 || FLAVOR_IS w gcfMakerWare || FLAVOR_IS w gcfSailfish).
  - exists w. split; [reflexivity|]. destruct (deref w (filament w)) as [[i e]|]; reflexivity.
  - cbn [orb]. destruct Hv as [Hn|(i & e & Hd)].
    + rewrite Hn. cbn [deref]. rewrite Hrel. exists w. split; reflexivity.
    + destruct (deref_inv w i e Hd) as [Hf Hn]. rewrite Hd. rewrite Hf in Hd |- *.
      rewrite Hd. destruct (Qeq_bool (E e) 0 && negb force).
      * exists w. split; reflexivity.
      * change (config (store i (Extruder_reset_E e) w)) with (config w).
        rewrite Hrel. cbn [negb]. eexists. split; [reflexivity|].
        split; [reflexivity|]. unfold current_E.
        rewrite <- Hf in Hd.
        rewrite (deref_store w i e (Extruder_reset_E e) Hd). reflexivity.
Qed.

Lemma relative_reset_returns_empty_witness :
  exists w', reset_e true relative_writer = Some (""%string, w')
             /\ current_E w' = Some 0.
Proof.
  destruct (relative_reset_returns_empty relative_writer true) as (w' & Hr & Hm).
  - reflexivity.
  - right. exists 0%nat, {| id := 0; E := 3 # 2; retracted := 0; restart_extra := 0 |}.
    vm_compute. reflexivity.
  - exists w'. split; [exact Hr|].
    assert (Hd : deref relative_writer (filament relative_writer)
                 = Some (0%nat, {| id := 0; E := 3 # 2; retracted := 0; restart_extra := 0 |}))
      by (vm_compute; reflexivity).
    rewrite Hd in Hm. cbn [E] in Hm.
    assert (Hc : reset_e_skipped relative_writer || (Qeq_bool (3 # 2) 0 && negb true) = false)
      by (vm_compute; reflexivity).
    rewrite Hc in Hm. exact (proj2 Hm).
Defined.

(* ------------------------------------------------------------------ *)
(** ** Operations are defined on a well-formed writer *)

Lemma well_formed_ready w : well_formed w -> travel_ready w = true.
Proof.
  intros (_ & (i & e & Hd) & Hc). unfold travel_ready. rewrite Hd.
  destruct (deref_inv w i e Hd) as [_ Hn]. apply nth_error_In in Hn.
  destruct (Hc e Hn) as [H1 H2].
  destruct (m_is_first_layer w).
  - destruct H2 as [->|H2]; [reflexivity|].
    destruct (m_first_layer_travel_accelerations w); [reflexivity|]. apply Nat.ltb_lt, H2.
  - destruct H1 as [->|H1]; [reflexivity|].
    destruct (m_travel_accelerations w); [reflexivity|]. apply Nat.ltb_lt, H1.
Qed.

Lemma well_formed_tool_view w w' :
  tool_view w' = tool_view w -> well_formed w -> well_formed w' /\ tool_ids w' = tool_ids w.
Proof.
  intros H Hw. pose proof (tool_view_deref _ _ H) as Hd.
  unfold tool_view in H. injection H as Hc He Hi Ht Hf Ha Hfa.
  destruct Hw as (Hs & Hcur & Hcov). unfold well_formed, tool_ids, accel_tables_cover.
  rewrite Hd, He, Hc, Ha, Hfa. auto.
Qed.

Lemma replace_nth_map_id l i e e' :
  nth_error l i = Some e -> id e' = id e -> map id (replace_nth i e' l) = map id l.
Proof.
  revert i. induction l as [|h t IH]; intros [|i] Hn Hid; simpl in *; try discriminate.
  - injection Hn as ->. rewrite Hid. reflexivity.
  - rewrite (IH i Hn Hid). reflexivity.
Qed.

Lemma nth_error_replace_nth_other {A : Type} (l : list A) i j (v : A) :
  i <> j -> nth_error (replace_nth i v l) j = nth_error l j.
Proof.
  revert i j. induction l as [|h t IH]; intros [|i] [|j] H; simpl; try reflexivity; try lia.
  apply IH. lia.
Qed.

Lemma replace_nth_In {A : Type} (l : list A) i (v x : A) :
  In x (replace_nth i v l) -> x = v \/ In x l.
Proof.
  revert i. induction l as [|h t IH]; intros [|i]; simpl; try tauto.
  - intros [H|H]; auto.
  - intros [H|H]; auto. destruct (IH i H); auto.
Qed.

Lemma well_formed_store w i e e' :
  well_formed w -> deref w (filament w) = Some (i, e) -> id e' = id e ->
  well_formed (store i e' w) /\ tool_ids (store i e' w) = tool_ids w.
Proof.
  intros (Hs & _ & Hcov) Hd Hid.
  destruct (deref_inv w i e Hd) as [Hf Hn].
  split; [split; [|split]|].
  - cbn [m_filament_extruders store set_filament_extruders].
    intros a b x y Hab Ha Hb.
    assert (Hx : exists x0, nth_error (m_filament_extruders w) a = Some x0 /\ id x0 = id x).
    { destruct (Nat.eq_dec i a) as [<-|Hne].
      - rewrite (nth_error_replace_nth _ i e' e Hn) in Ha. injection Ha as <-.
        exists e. auto.
      - rewrite nth_error_replace_nth_other in Ha by exact Hne. exists x. auto. }
    assert (Hy : exists y0, nth_error (m_filament_extruders w) b = Some y0 /\ id y0 = id y).
    { destruct (Nat.eq_dec i b) as [<-|Hne].
      - rewrite (nth_error_replace_nth _ i e' e Hn) in Hb. injection Hb as <-.
        exists e. auto.
      - rewrite nth_error_replace_nth_other in Hb by exact Hne. exists y. auto. }
    destruct Hx as (x0 & Hx0 & <-). destruct Hy as (y0 & Hy0 & <-).
    eapply Hs; eassumption.
  - exists i, e'. apply (deref_store w i e e' Hd).
  - intros x Hx. cbn [m_filament_extruders store set_filament_extruders] in Hx.
    change (config (store i e' w)) with (config w).
    change (m_travel_accelerations (store i e' w)) with (m_travel_accelerations w).
    change (m_first_layer_travel_accelerations (store i e' w))
      with (m_first_layer_travel_accelerations w).
    apply replace_nth_In in Hx. destruct Hx as [->|Hx]; [|apply Hcov, Hx].
    unfold extruder_id. rewrite Hid. apply (Hcov e). eapply nth_error_In, Hn.
  - unfold tool_ids. cbn [m_filament_extruders store set_filament_extruders].
    apply (replace_nth_map_id _ i e e' Hn Hid).
Qed.

Section Defined.
Context {libm : Libm}.

Lemma travel_feedrate_total w :
  travel_ready w = true -> exists feed, travel_feedrate w = Some feed.
Proof.
  unfold travel_ready, travel_feedrate. intros H.
  destruct (deref w (filament w)) as [[i e]|]; [|discriminate].
  eexists. reflexivity.
Qed.

Lemma target_lift_total tc w :
  travel_ready w = true -> exists t, target_lift tc w = Some t.
Proof.
  unfold travel_ready, target_lift. intros H.
  destruct (deref w (filament w)) as [[i e]|]; [|discriminate].
  destruct (_ && _); [destruct (_ && _)|]; eexists; reflexivity.
Qed.

Lemma tool_view_feedrate w w' :
  tool_view w' = tool_view w -> travel_feedrate w' = travel_feedrate w.
Proof.
  intros H. unfold travel_feedrate. rewrite (tool_view_deref _ _ H).
  unfold tool_view in H. injection H as Hc _ _ _ _ _ _. rewrite Hc. reflexivity.
Qed.

Lemma _spiral_travel_to_z_total z ij c tc w :
  travel_ready w = true ->
  exists s w', _spiral_travel_to_z z ij c tc w = Some (s, w')
               /\ tool_view w' = tool_view w.
Proof.
  intros H. destruct (z_move_speed_total tc w H) as [speed Hs].
  assert (Hr : travel_ready (set_pos_z z w) = true) by exact H.
  destruct (set_travel_acceleration_total _ Hr) as (acc & w' & Ha & Ht & _).
  unfold _spiral_travel_to_z.
  change (z_move_speed tc (set_pos_z z w)) with (z_move_speed tc w). rewrite Hs, Ha.
  eexists _, _. split; [reflexivity|exact Ht].
Qed.

(** Run the next call of a method body: the state it starts from has the
    tool view of [w], on which the moves are defined. *)
Ltac call Hr :=
  match goal with
  | Hcur : tool_view _ = tool_view ?w |- context [set_travel_acceleration ?x] =>
      let He := fresh "He" in let Ht := fresh "Ht" in let Hn := fresh "Hcur" in
      destruct (set_travel_acceleration_total x (eq_trans (tool_view_ready w x Hcur) Hr))
        as (? & ? & He & Ht & _);
      rewrite He; clear He;
      pose proof (eq_trans Ht Hcur) as Hn; clear Ht
  | Hcur : tool_view _ = tool_view ?w |- context [_travel_to_z ?z ?c ?tc ?x] =>
      let He := fresh "He" in let Ht := fresh "Ht" in let Hn := fresh "Hcur" in
      destruct (_travel_to_z_total z c tc x (eq_trans (tool_view_ready w x Hcur) Hr))
        as (? & ? & ? & _ & He & Ht & _);
      rewrite He; clear He;
      pose proof (eq_trans Ht Hcur) as Hn; clear Ht
  | Hcur : tool_view _ = tool_view ?w |- context [_spiral_travel_to_z ?z ?ij ?c ?tc ?x] =>
      let He := fresh "He" in let Ht := fresh "Ht" in let Hn := fresh "Hcur" in
      destruct (_spiral_travel_to_z_total z ij c tc x (eq_trans (tool_view_ready w x Hcur) Hr))
        as (? & ? & He & Ht);
      rewrite He; clear He;
      pose proof (eq_trans Ht Hcur) as Hn; clear Ht
  | Hcur : tool_view _ = tool_view ?w |- context [travel_feedrate ?x] =>
      let He := fresh "He" in
      destruct (travel_feedrate_total x (eq_trans (tool_view_ready w x Hcur) Hr)) as (? & He);
      rewrite He; clear He
  | Hcur : tool_view _ = tool_view ?w |- context [target_lift ?tc ?x] =>
      let He := fresh "He" in
      destruct (target_lift_total tc x (eq_trans (tool_view_ready w x Hcur) Hr)) as (? & He);
      rewrite He; clear He
  | |- context [if ?c then _ else _] => destruct c
  end; cbv beta iota zeta.

Ltac calls Hr :=
  repeat call Hr;
  match goal with
  | Hcur : tool_view _ = tool_view _ |- _ =>
      eexists _, _; split; [reflexivity|exact Hcur]
  end.

Lemma travel_to_xy_total p c w :
  travel_ready w = true ->
  exists s w', travel_to_xy p c w = Some (s, w') /\ tool_view w' = tool_view w.
Proof.
  intros Hr. pose proof (eq_refl (tool_view w)) as Hcur.
  unfold travel_to_xy. cbv zeta. calls Hr.
Qed.

Lemma lazy_lift_total ty sv tc w :
  travel_ready w = true ->
  exists s w', lazy_lift ty sv tc w = Some (s, w') /\ tool_view w' = tool_view w.
Proof.
  intros Hr. pose proof (eq_refl (tool_view w)) as Hcur.
  unfold lazy_lift. cbv zeta. calls Hr.
Qed.

Lemma eager_lift_total ty tc w :
  travel_ready w = true ->
  exists s w', eager_lift ty tc w = Some (s, w') /\ tool_view w' = tool_view w.
Proof.
  intros Hr. pose proof (eq_refl (tool_view w)) as Hcur.
  unfold eager_lift. cbv zeta. calls Hr.
Qed.

Lemma travel_to_z_total z c w :
  travel_ready w = true ->
  exists s w', travel_to_z z c w = Some (s, w') /\ tool_view w' = tool_view w.
Proof.
  intros Hr. pose proof (eq_refl (tool_view w)) as Hcur.
  unfold travel_to_z. cbv zeta. calls Hr.
Qed.

Lemma unlift_total w :
  travel_ready w = true ->
  exists s w', unlift w = Some (s, w') /\ tool_view w' = tool_view w.
Proof.
  intros Hr. pose proof (eq_refl (tool_view w)) as Hcur.
  unfold unlift. cbv zeta. calls Hr.
Qed.

Lemma travel_to_xyz_total p c w :
  travel_ready w = true ->
  exists s w', travel_to_xyz p c w = Some (s, w') /\ tool_view w' = tool_view w.
Proof.
  intros Hr. pose proof (eq_refl (tool_view w)) as Hcur.
  unfold travel_to_xyz. cbv zeta.
  destruct (Qlt_bool EPSILON (Qabs (m_to_lift w))).
  - destruct ((_ || _) && _); cbv beta iota zeta; calls Hr.
  - destruct (negb (will_move_z (z3 p) w)); cbv beta iota zeta.
    + destruct (Qlt_bool (Qabs _) EPSILON);
        match goal with
        | |- context [travel_to_xy ?q ?k ?x] =>
            destruct (travel_to_xy_total q k x Hr) as (s2 & w2 & He2 & Ht2)
        end; eexists _, _; (split; [exact He2|exact Ht2]).
    + calls Hr.
Qed.


(** A method that keeps the tool view keeps the writer well formed. *)
Lemma keeps_well_formed w (r : option (string * GCodeWriter)) :
  well_formed w ->
  (exists s w', r = Some (s, w') /\ tool_view w' = tool_view w) ->
  exists s w', r = Some (s, w') /\ well_formed w' /\ tool_ids w' = tool_ids w.
Proof.
  intros Hw (s & w' & Hr & Ht). exists s, w'. split; [exact Hr|].
  apply well_formed_tool_view; assumption.
Qed.

Lemma set_acceleration_impl_wf a w :
  well_formed w ->
  well_formed (snd (set_acceleration_impl a w))
  /\ tool_ids (snd (set_acceleration_impl a w)) = tool_ids w.
Proof. apply well_formed_tool_view, set_acceleration_impl_tool. Qed.

Lemma extrude_current_total dE f w :
  well_formed w ->
  exists e w', extrude_current dE f w = Some (e, w')
               /\ well_formed w' /\ tool_ids w' = tool_ids w.
Proof.
  intros Hw. unfold extrude_current. destruct f.
  - eexists _, _. split; [reflexivity|]. split; [exact Hw|reflexivity].
  - destruct Hw as (Hs & (i & e & Hd) & Hc). rewrite Hd.
    unfold Extruder_extrude. eexists _, _. split; [reflexivity|].
    apply (well_formed_store w i e); [split; [exact Hs|split; [eauto|exact Hc]]|exact Hd|].
    reflexivity.
Qed.

Ltac extrude_total Hw :=
  let He := fresh "He" in let Hw1 := fresh "Hw1" in let Hi1 := fresh "Hi1" in
  let Hw2 := fresh "Hw2" in let Hi2 := fresh "Hi2" in
  cbv zeta;
  match goal with
  | |- context [extrude_current ?dE ?f ?x] =>
      destruct (extrude_current_total dE f x Hw) as (? & ? & He & Hw1 & Hi1);
      rewrite He; clear He
  end;
  match goal with
  | |- context [set_extrude_acceleration ?x] =>
      pose proof (set_acceleration_impl_wf (m_acceleration x) x Hw1) as [Hw2 Hi2];
      fold (set_extrude_acceleration x) in Hw2, Hi2;
      destruct (set_extrude_acceleration x)
  end;
  eexists _, _; split; [reflexivity|]; split; [exact Hw2|];
  cbn [snd] in Hi2; rewrite Hi2; exact Hi1.

Lemma extrude_to_xy_total p dE c f w :
  well_formed w ->
  exists s w', extrude_to_xy p dE c f w = Some (s, w')
               /\ well_formed w' /\ tool_ids w' = tool_ids w.
Proof. intros Hw. unfold extrude_to_xy. extrude_total Hw. Qed.

Lemma extrude_arc_to_xy_total p o dE ccw c f w :
  well_formed w ->
  exists s w', extrude_arc_to_xy p o dE ccw c f w = Some (s, w')
               /\ well_formed w' /\ tool_ids w' = tool_ids w.
Proof. intros Hw. unfold extrude_arc_to_xy. extrude_total Hw. Qed.

Lemma extrude_to_xyz_total p dE c f w :
  well_formed w ->
  exists s w', extrude_to_xyz p dE c f w = Some (s, w')
               /\ well_formed w' /\ tool_ids w' = tool_ids w.
Proof. intros Hw. unfold extrude_to_xyz. extrude_total Hw. Qed.

Lemma Extruder_retract_id len restart e : id (snd (Extruder_retract len restart e)) = id e.
Proof. unfold Extruder_retract. destruct (Qlt_bool _ _); reflexivity. Qed.

Lemma _retract_total len restart c w :
  well_formed w ->
  exists s w', _retract len restart c w = Some (s, w')
               /\ well_formed w' /\ tool_ids w' = tool_ids w.
Proof.
  intros Hw. pose proof Hw as (_ & (i & e & Hd) & _). unfold _retract. rewrite Hd.
  pose proof (Extruder_retract_id
                (if use_firmware_retraction (config w) then 1 else len) restart e) as Hid.
  destruct (Extruder_retract _ restart e) as [dE e']. cbn [snd] in Hid.
  eexists _, _. split; [reflexivity|].
  apply (well_formed_store w i e e' Hw Hd Hid).
Qed.

Lemma reset_e_total force w :
  well_formed w ->
  exists s w', reset_e force w = Some (s, w')
               /\ well_formed w' /\ tool_ids w' = tool_ids w.
Proof.
  intros Hw. pose proof Hw as (_ & (i & e & Hd) & _).
  destruct (deref_inv w i e Hd) as [Hf Hn].
  unfold reset_e. destruct (_ || _).
  - eexists _, _. split; [reflexivity|]. split; [exact Hw|reflexivity].
  - rewrite Hf. rewrite Hf in Hd. rewrite Hd. rewrite <- Hf in Hd.
    destruct (_ && _).
    + eexists _, _. split; [reflexivity|]. split; [exact Hw|reflexivity].
    + change (config (store i (Extruder_reset_E e) w)) with (config w).
      destruct (negb _); eexists _, _; (split; [reflexivity|]);
        apply (well_formed_store w i e _ Hw Hd); reflexivity.
Qed.

Lemma unretract_total w :
  well_formed w ->
  exists s w', unretract w = Some (s, w')
               /\ well_formed w' /\ tool_ids w' = tool_ids w.
Proof.
  intros Hw. pose proof Hw as (_ & (i & e & Hd) & _). unfold unretract. rewrite Hd.
  cbv zeta. unfold Extruder_unretract.
  set (e' := {| id := id e; E := _; retracted := 0; restart_extra := 0 |}).
  destruct (well_formed_store w i e e' Hw Hd eq_refl) as [Hw1 Hi1].
  destruct (negb _).
  - change (config (store i e' w)) with (config w).
    destruct (use_firmware_retraction (config w)).
    + destruct (reset_e_total false (store i e' w) Hw1) as (s & w2 & He & Hw2 & Hi2).
      rewrite He. eexists _, _. split; [reflexivity|]. split; [exact Hw2|].
      rewrite Hi2. exact Hi1.
    + eexists _, _. split; [reflexivity|]. split; [exact Hw1|exact Hi1].
  - eexists _, _. split; [reflexivity|]. split; [exact Hw1|exact Hi1].
Qed.

Lemma toolchange_total t w :
  well_formed w -> In t (tool_ids w) ->
  exists s w', toolchange t w = Some (s, w')
               /\ well_formed w' /\ tool_ids w' = tool_ids w.
Proof.
  intros Hw Hin. pose proof Hw as (Hs & _ & Hc).
  destruct (lower_bound_finds _ t Hs Hin) as (e & Hnth & Hid).
  unfold toolchange. unfold deref at 1. rewrite Hnth.
  set (r := lower_bound_by_predicate _ _) in *.
  set (w1 := set_current _ _ w).
  assert (Hw1 : well_formed w1).
  { split; [exact Hs|]. split; [|exact Hc].
    exists r, e. unfold w1. rewrite filament_set_current. unfold deref.
    cbn [m_filament_extruders set_current]. rewrite Hnth. reflexivity. }
  change (multiple_extruders w1) with (multiple_extruders w).
  destruct (multiple_extruders w).
  - destruct (reset_e_total true w1 Hw1) as (s & w2 & He & Hw2 & Hi2).
    rewrite He. eexists _, _. split; [reflexivity|]. split; [exact Hw2|exact Hi2].
  - eexists _, _. split; [reflexivity|]. split; [exact Hw1|reflexivity].
Qed.

Lemma set_extruder_total t w :
  well_formed w -> In t (tool_ids w) ->
  exists s w', set_extruder t w = Some (s, w')
               /\ well_formed w' /\ tool_ids w' = tool_ids w.
Proof.
  intros Hw Hin. pose proof Hw as (Hs & _ & _).
  destruct (lower_bound_finds _ t Hs Hin) as (e & Hnth & Hid).
  unfold set_extruder. unfold deref at 1. rewrite Hnth.
  destruct (need_toolchange t w).
  - apply toolchange_total; assumption.
  - eexists _, _. split; [reflexivity|]. split; [exact Hw|reflexivity].
Qed.

(** Every operation is defined on a well-formed writer and leaves it well
    formed. *)
Lemma step_defined o w :
  well_formed w -> op_present (tool_ids w) o ->
  exists s w', step o w = Some (s, w') /\ well_formed w' /\ tool_ids w' = tool_ids w.
Proof.
  intros Hw Hp. pose proof (well_formed_ready w Hw) as Hr.
  destruct o; cbn [step op_present] in *.
  - apply keeps_well_formed, lazy_lift_total; assumption.
  - apply keeps_well_formed, eager_lift_total; assumption.
  - apply keeps_well_formed, travel_to_xy_total; assumption.
  - apply keeps_well_formed, travel_to_z_total; assumption.
  - apply keeps_well_formed, travel_to_xyz_total; assumption.
  - apply extrude_to_xy_total, Hw.
  - apply extrude_arc_to_xy_total, Hw.
  - apply extrude_to_xyz_total, Hw.
  - apply keeps_well_formed, unlift_total; assumption.
  - pose proof Hw as (_ & (i & e & Hd) & _). unfold retract. rewrite Hd.
    apply _retract_total, Hw.
  - pose proof Hw as (_ & (i & e & Hd) & _). unfold retract_for_toolchange. rewrite Hd.
    apply _retract_total, Hw.
  - apply unretract_total, Hw.
  - apply toolchange_total; assumption.
  - apply set_extruder_total; assumption.
  - apply reset_e_total, Hw.
  - eexists _, _. split; [reflexivity|]. split; [exact Hw|reflexivity].
  - eexists _, _. split; [reflexivity|]. split; [exact Hw|reflexivity].
  - pose proof (well_formed_tool_view w (snd (set_bed_temperature temperature wait w))) as H.
    destruct (set_bed_temperature temperature wait w) as [s w'] eqn:Eb.
    eexists _, _. split; [reflexivity|]. apply H; [|exact Hw].
    unfold set_bed_temperature in Eb. destruct (_ && _); [|destruct wait];
      injection Eb as _ <-; reflexivity.
  - unfold set_chamber_temperature. destruct wait;
      eexists _, _; (split; [reflexivity|]); (split; [exact Hw|reflexivity]).
Qed.

Lemma run_defined os :
  forall w, well_formed w -> Forall (op_present (tool_ids w)) os ->
            exists ss w', run os w = Some (ss, w') /\ well_formed w'.
Proof.
  induction os as [|o r IH]; intros w Hw Hp; cbn [run].
  - eexists _, _. split; [reflexivity|exact Hw].
  - inversion Hp as [|? ? Ho Hr]; subst.
    destruct (step_defined o w Hw Ho) as (s & w1 & Hs & Hw1 & Hi1). rewrite Hs.
    rewrite <- Hi1 in Hr.
    destruct (IH w1 Hw1 Hr) as (ss & w2 & Hrun & Hw2). rewrite Hrun.
    eexists _, _. split; [reflexivity|exact Hw2].
Qed.

End Defined.

(* ------------------------------------------------------------------ *)
(** ** Lift invariants along operation sequences *)








(* ------------------------------------------------------------------ *)
(** * Further properties *)

(** ** The number the formatter writes *)

Local Open Scope Z_scope.

Ltac assoc := repeat (rewrite <- app_assoc || cbn [app]); reflexivity.

Ltac lens := repeat (rewrite length_app || cbn [List.length]); lia.

Lemma poke_app_at (A R : list ascii) x c :
  poke (A ++ x :: R) (List.length A) c = (A ++ c :: R)%list.
Proof. induction A as [|a A IH]; simpl; [reflexivity|rewrite IH; reflexivity]. Qed.

Lemma pokeZ_app_at (A R : list ascii) x c :
  pokeZ (A ++ x :: R) (Z.of_nat (List.length A)) c = (A ++ c :: R)%list.
Proof. unfold pokeZ. rewrite Nat2Z.id. apply poke_app_at. Qed.

Lemma peek_app_at (A R : list ascii) x :
  peek (A ++ x :: R) (Z.of_nat (List.length A)) = x.
Proof. unfold peek. rewrite Nat2Z.id. apply nth_middle. Qed.

Lemma write_chars_app cs : forall (A R : list ascii),
  (List.length cs <= List.length R)%nat ->
  write_chars (A ++ R) (Z.of_nat (List.length A)) cs
  = ((A ++ cs ++ skipn (List.length cs) R)%list, Z.of_nat (List.length A + List.length cs)).
Proof.
  induction cs as [|c cs IH]; intros A R H.
  - simpl. rewrite Nat.add_0_r. reflexivity.
  - destruct R as [|x R]; [simpl in H; lia|]. cbn [write_chars].
    rewrite pokeZ_app_at.
    replace (A ++ c :: R)%list with ((A ++ [c]) ++ R)%list by (rewrite <- app_assoc; reflexivity).
    replace (Z.of_nat (List.length A) + 1) with (Z.of_nat (List.length (A ++ [c])))
      by lens.
    rewrite IH by (simpl in H; lia).
    rewrite <- app_assoc, length_app. simpl. f_equal. f_equal. lia.
Qed.

(** The backward copy moves a block up by [k]; the [k] cells it leaves behind
    hold old characters. *)
Lemma shift_right_app n : forall (A B C : list ascii) (k : nat),
  List.length B = n -> (1 <= k <= List.length C)%nat ->
  exists J, List.length J = k
    /\ shift_right n (A ++ B ++ C) (Z.of_nat (List.length A + n) - 1) (Z.of_nat k)
       = (A ++ J ++ B ++ skipn k C)%list.
Proof.
  induction n as [|n IH]; intros A B C k HB Hk.
  - destruct B; [|discriminate]. exists (firstn k C). split.
    + apply firstn_length_le. lia.
    + simpl. rewrite firstn_skipn. reflexivity.
  - destruct (exists_last (l := B)) as (B' & b & ->); [intros ->; discriminate|].
    rewrite length_app in HB. simpl in HB.
    cbn [shift_right].
    replace (Z.of_nat (List.length A + S n) - 1)
      with (Z.of_nat (List.length (A ++ B'))) by lens.
    assert (HC : exists C1 x C2, C = (C1 ++ x :: C2)%list /\ List.length C1 = (k - 1)%nat).
    { exists (firstn (k - 1) C).
      destruct (skipn (k - 1) C) as [|x C2] eqn:Es.
      - apply (f_equal (@List.length ascii)) in Es. rewrite length_skipn in Es. simpl in Es. lia.
      - exists x, C2. split; [rewrite <- Es, firstn_skipn; reflexivity|].
        apply firstn_length_le. lia. }
    destruct HC as (C1 & x & C2 & -> & HC1).
    replace (A ++ (B' ++ [b]) ++ C1 ++ x :: C2)%list
      with ((A ++ B') ++ b :: (C1 ++ x :: C2))%list
      by (rewrite <- !app_assoc; reflexivity).
    rewrite peek_app_at.
    replace ((A ++ B') ++ b :: C1 ++ x :: C2)%list
      with ((A ++ B' ++ b :: C1) ++ x :: C2)%list
      by (rewrite <- !app_assoc; simpl; rewrite <- ?app_assoc; reflexivity).
    replace (Z.of_nat (List.length (A ++ B')) + Z.of_nat k)
      with (Z.of_nat (List.length (A ++ B' ++ b :: C1)))
      by lens.
    rewrite pokeZ_app_at.
    replace ((A ++ B' ++ b :: C1) ++ b :: C2)%list
      with (A ++ B' ++ (b :: C1 ++ b :: C2))%list
      by (rewrite <- !app_assoc; simpl; rewrite <- ?app_assoc; reflexivity).
    replace (Z.of_nat (List.length (A ++ B')) - 1)
      with (Z.of_nat (List.length A + n) - 1) by lens.
    destruct (IH A B' (b :: C1 ++ b :: C2)%list k) as (J & HJ & Heq).
    + lia.
    + simpl. rewrite length_app. simpl. lia.
    + exists J. split; [exact HJ|]. rewrite Heq.
      rewrite <- !app_assoc. f_equal. f_equal. f_equal.
      replace (b :: C1 ++ b :: C2)%list with ((b :: C1) ++ b :: C2)%list by reflexivity.
      rewrite skipn_app.
      replace (k - List.length (b :: C1))%nat with O by lens.
      rewrite (@skipn_all2 _ k (b :: C1)) by lens.
      replace (C1 ++ x :: C2)%list with ((C1 ++ [x]) ++ C2)%list
        by (rewrite <- app_assoc; reflexivity).
      rewrite skipn_app.
      replace (k - List.length (C1 ++ [x]))%nat with O by lens.
      rewrite (@skipn_all2 _ k (C1 ++ [x])) by lens.
      reflexivity.
Qed.

Lemma memset_app k : forall (A J R : list ascii) c,
  List.length J = k ->
  memset (A ++ J ++ R) (Z.of_nat (List.length A)) c k = (A ++ repeat c k ++ R)%list.
Proof.
  induction k as [|k IH]; intros A J R c HJ.
  - destruct J; [reflexivity|discriminate].
  - destruct J as [|x J]; [discriminate|]. cbn [memset].
    replace (A ++ (x :: J) ++ R)%list with (A ++ x :: (J ++ R))%list by reflexivity.
    rewrite pokeZ_app_at.
    replace (A ++ c :: J ++ R)%list with ((A ++ [c]) ++ J ++ R)%list
      by (rewrite <- app_assoc; reflexivity).
    replace (Z.of_nat (List.length A) + 1) with (Z.of_nat (List.length (A ++ [c])))
      by lens.
    rewrite IH by (simpl in HJ; lia).
    rewrite <- app_assoc. reflexivity.
Qed.

Lemma strip_trailing_zeros_snoc F c :
  strip_trailing_zeros (F ++ [c])
  = if Ascii.eqb c (chr "0") then strip_trailing_zeros F else (F ++ [c])%list.
Proof.
  destruct (Ascii.eqb c (chr "0")) eqn:Ec.
  - induction F as [|a F IH]; cbn [app strip_trailing_zeros].
    + rewrite Ec. reflexivity.
    + rewrite IH. reflexivity.
  - induction F as [|a F IH]; cbn [app strip_trailing_zeros].
    + rewrite Ec. reflexivity.
    + rewrite IH. destruct (F ++ [c])%list eqn:E; [destruct F; discriminate|reflexivity].
Qed.

(** The trimming loop stops on the last character that is not a zero. *)
Lemma trim_zeros_app F : forall (A R : list ascii),
  (1 <= List.length A)%nat ->
  trim_zeros (List.length F) (A ++ F ++ R) (Z.of_nat (List.length A + List.length F) - 1)
  = Z.of_nat (List.length A + List.length (strip_trailing_zeros F)) - 1.
Proof.
  induction F as [|c F IH] using rev_ind; intros A R HA.
  - reflexivity.
  - rewrite length_app. simpl List.length.
    replace (List.length F + 1)%nat with (S (List.length F)) by lia.
    cbn [trim_zeros].
    replace (A ++ (F ++ [c]) ++ R)%list with ((A ++ F) ++ c :: R)%list
      by (rewrite <- !app_assoc; reflexivity).
    replace (Z.of_nat (List.length A + S (List.length F)) - 1)
      with (Z.of_nat (List.length (A ++ F))) by lens.
    rewrite peek_app_at. rewrite strip_trailing_zeros_snoc.
    destruct (Ascii.eqb c (chr "0")).
    + replace ((A ++ F) ++ c :: R)%list with (A ++ F ++ (c :: R))%list
        by (rewrite <- app_assoc; reflexivity).
      replace (Z.of_nat (List.length (A ++ F)) - 1)
        with (Z.of_nat (List.length A + List.length F) - 1) by lens.
      apply IH, HA.
    + rewrite !length_app. simpl. lia.
Qed.

Lemma digit_char_digit n : In (digit_char (n mod 10)) digit_chars.
Proof.
  pose proof (Z.mod_pos_bound n 10 eq_refl) as H.
  unfold digit_char.
  assert (Hk : (Z.to_nat (n mod 10) < 10)%nat) by lia.
  generalize dependent (Z.to_nat (n mod 10)). intros k Hk.
  do 10 (destruct k as [|k]; [simpl; tauto|]). lia.
Qed.

Lemma to_digits_digits fuel : forall n acc,
  Forall (fun c => In c digit_chars) acc ->
  Forall (fun c => In c digit_chars) (to_digits fuel n acc).
Proof.
  induction fuel as [|f IH]; intros n acc H; cbn [to_digits].
  - constructor; [apply digit_char_digit|exact H].
  - destruct (n / 10 =? 0).
    + constructor; [apply digit_char_digit|exact H].
    + apply IH. constructor; [apply digit_char_digit|exact H].
Qed.

Lemma digit_not_point c : In c digit_chars -> c <> chr "." /\ c <> chr "-".
Proof. intros H. simpl in H. split; intros ->; repeat (destruct H as [H|H]; [discriminate H|]); exact H. Qed.

Lemma strip_trailing_zeros_prefix F :
  exists Z0, F = (strip_trailing_zeros F ++ Z0)%list.
Proof.
  induction F as [|c F IH] using rev_ind.
  - exists []. reflexivity.
  - rewrite strip_trailing_zeros_snoc. destruct (Ascii.eqb c (chr "0")).
    + destruct IH as (Z0 & HZ). exists (Z0 ++ [c])%list.
      rewrite app_assoc, <- HZ. reflexivity.
    + exists []. rewrite app_nil_r. reflexivity.
Qed.

Lemma strip_trailing_zeros_last F G l :
  strip_trailing_zeros F = (G ++ [l])%list -> l <> chr "0".
Proof.
  revert G l. induction F as [|c F IH] using rev_ind; intros G l H.
  - destruct G; discriminate.
  - rewrite strip_trailing_zeros_snoc in H.
    destruct (Ascii.eqb_spec c (chr "0")) as [E|N].
    + eapply IH, H.
    + apply app_inj_tail in H. destruct H as [_ <-]. exact N.
Qed.

(** The buffer and pointer once the digits are written and padded:
    sign, then the digits padded with zeros to [digits] places. *)
Lemma emit_number_padded (v : Z) (d : nat) (win : list ascii) :
  let S := if v <? 0 then [chr "-"] else [] in
  let D := to_digits 20 (Z.abs v) [] in
  let P := (repeat (chr "0") (d - List.length D) ++ D)%list in
  (List.length S + List.length P + 2 <= List.length win)%nat ->
  exists R,
    (let '(win1, ptr1) := write_chars win 0 (to_chars v) in
     let writen_digits := ptr1 - (if v <? 0 then 1 else 0) in
     if writen_digits <? Z.of_nat d then
       let remaining_digits := Z.of_nat d - writen_digits in
       let win2 := shift_right (Z.to_nat writen_digits) win1 (ptr1 - 1) remaining_digits in
       let win3 := memset win2 (ptr1 - writen_digits) (chr "0") (Z.to_nat remaining_digits) in
       (win3, ptr1 + remaining_digits)
     else (win1, ptr1))
    = ((S ++ P ++ R)%list, Z.of_nat (List.length S + List.length P))
    /\ (2 <= List.length R)%nat.
Proof.
  intros S D P Hroom.
  assert (HP : List.length P = (d - List.length D + List.length D)%nat).
  { unfold P. rewrite length_app, repeat_length. reflexivity. }
  assert (Hcs : to_chars v = (S ++ D)%list) by reflexivity.
  assert (HS : (if v <? 0 then 1 else 0) = Z.of_nat (List.length S)).
  { unfold S. destruct (v <? 0); reflexivity. }
  pose proof (write_chars_app (S ++ D) [] win) as Hw. cbn [app List.length] in Hw.
  change (Z.of_nat 0) with 0 in Hw. rewrite Hcs, Hw by lens. clear Hw.
  cbv beta iota zeta. rewrite HS. rewrite length_app.
  replace (Z.of_nat (0 + (List.length S + List.length D)) - Z.of_nat (List.length S))
    with (Z.of_nat (List.length D)) by lia.
  set (R0 := skipn (List.length S + List.length D) win).
  assert (HR0 : List.length R0 = (List.length win - (List.length S + List.length D))%nat)
    by (unfold R0; apply length_skipn).
  destruct (Z.ltb_spec (Z.of_nat (List.length D)) (Z.of_nat d)) as [Hlt|Hge].
  - rewrite Nat2Z.id.
    replace (Z.of_nat d - Z.of_nat (List.length D)) with (Z.of_nat (d - List.length D)) by lia.
    rewrite Nat2Z.id.
    replace (Z.of_nat (0 + (List.length S + List.length D)) - 1)
      with (Z.of_nat (List.length S + List.length D) - 1) by lia.
    rewrite <- app_assoc.
    destruct (shift_right_app (List.length D) S D R0 (d - List.length D) eq_refl)
      as (J & HJ & Hsh); [lia|].
    rewrite Hsh.
    replace (Z.of_nat (0 + (List.length S + List.length D)) - Z.of_nat (List.length D))
      with (Z.of_nat (List.length S)) by lia.
    rewrite (memset_app _ S J _ _ HJ).
    exists (skipn (d - List.length D) R0). split.
    + f_equal; [unfold P; rewrite <- !app_assoc; reflexivity|rewrite HP; lia].
    + rewrite length_skipn. lia.
  - exists R0. split.
    + f_equal; [|rewrite HP; lia].
      unfold P. replace (d - List.length D)%nat with O by lia. cbn [repeat app].
      rewrite <- app_assoc. reflexivity.
    + lia.
Qed.

Lemma Forall_digits_firstn n (l : list ascii) :
  Forall (fun c => In c digit_chars) l -> Forall (fun c => In c digit_chars) (firstn n l).
Proof.
  intros H. rewrite <- (firstn_skipn n l) in H. apply Forall_app in H. apply H.
Qed.

Lemma Forall_digits_skipn n (l : list ascii) :
  Forall (fun c => In c digit_chars) l -> Forall (fun c => In c digit_chars) (skipn n l).
Proof.
  intros H. rewrite <- (firstn_skipn n l) in H. apply Forall_app in H. apply H.
Qed.

Lemma padded_digits (v : Z) (d : nat) :
  Forall (fun c => In c digit_chars)
         (repeat (chr "0") (d - List.length (to_digits 20 (Z.abs v) []))
          ++ to_digits 20 (Z.abs v) []).
Proof.
  apply Forall_app. split.
  - apply Forall_forall. intros x Hx. apply repeat_spec in Hx. subst x. simpl. tauto.
  - apply to_digits_digits. constructor.
Qed.

(** [emit_number] leaves the rendered text at the start of the window and
    the pointer just past it. *)
Lemma emit_number_render (v : Z) (d : nat) (win : list ascii) :
  ((if (v <? 0)%Z then 1 else 0)
   + Nat.max d (List.length (to_digits 20 (Z.abs v) [])) + 2 <= List.length win)%nat ->
  exists G, emit_number v d win
            = ((render_number v d ++ G)%list, Z.of_nat (List.length (render_number v d))).
Proof.
  intros Hroom. unfold emit_number, render_number.
  set (S := if v <? 0 then [chr "-"] else []).
  set (D := to_digits 20 (Z.abs v) []).
  set (P := (repeat (chr "0") (d - List.length D) ++ D)%list).
  assert (HPlen : List.length P = Nat.max d (List.length D)).
  { unfold P. rewrite length_app, repeat_length. lia. }
  assert (HSlen : List.length S = if v <? 0 then 1%nat else 0%nat).
  { unfold S. destruct (v <? 0); reflexivity. }
  pose proof (padded_digits v d) as HPd. fold D in HPd. fold P in HPd.
  destruct (emit_number_padded v d win) as (R & Hpad & HR).
  { fold S. fold D. fold P. rewrite HPlen, HSlen. fold D in Hroom. lia. }
  fold S in Hpad. fold D in Hpad. fold P in Hpad.
  destruct (write_chars win 0 (to_chars v)) as [w1 p1].
  cbv beta iota zeta in Hpad |- *. rewrite Hpad. clear Hpad w1 p1.
  set (m := (List.length P - d)%nat).
  set (IP := firstn m P). set (FP := skipn m P).
  assert (HP : P = (IP ++ FP)%list) by (symmetry; apply firstn_skipn).
  assert (HFP : List.length FP = d) by (unfold FP; rewrite length_skipn; unfold m; lia).
  assert (HIPd : Forall (fun c => In c digit_chars) IP) by (apply Forall_digits_firstn, HPd).
  assert (HFPd : Forall (fun c => In c digit_chars) FP) by (apply Forall_digits_skipn, HPd).
  (* the decimal point *)
  destruct (shift_right_app d (S ++ IP) FP R 1 HFP) as (J & HJ & Hsh); [lia|].
  destruct J as [|j [|? ?]]; try discriminate HJ. clear HJ.
  assert (Hptr : Z.of_nat (List.length S + List.length P)
                 = Z.of_nat (List.length (S ++ IP) + d)).
  { rewrite HP, !length_app, HFP. lia. }
  rewrite Hptr.
  replace (S ++ P ++ R)%list with ((S ++ IP) ++ FP ++ R)%list
    by (rewrite HP, <- !app_assoc; reflexivity).
  change (Z.of_nat 1) with 1 in Hsh. rewrite Hsh.
  replace (Z.of_nat (List.length (S ++ IP) + d) - Z.of_nat d)
    with (Z.of_nat (List.length (S ++ IP))) by lia.
  change ((S ++ IP) ++ [j] ++ FP ++ skipn 1 R)%list
    with ((S ++ IP) ++ j :: (FP ++ skipn 1 R))%list.
  rewrite pokeZ_app_at.
  set (R3 := skipn 1 R).
  (* the trimming loop *)
  pose proof (trim_zeros_app FP ((S ++ IP) ++ [chr "."]) R3) as Htrim.
  rewrite HFP in Htrim.
  replace (((S ++ IP) ++ [chr "."]) ++ FP ++ R3)%list
    with ((S ++ IP) ++ chr "." :: FP ++ R3)%list in Htrim
    by assoc.
  replace (Z.of_nat (List.length ((S ++ IP) ++ [chr "."]) + d) - 1)
    with (Z.of_nat (List.length (S ++ IP) + d)) in Htrim by lens.
  rewrite Htrim by lens. clear Htrim.
  destruct (strip_trailing_zeros_prefix FP) as (Z0 & HZ0).
  pose proof (strip_trailing_zeros_last FP) as Hlast.
  remember (strip_trailing_zeros FP) as FPs eqn:Es.
  assert (HFd : Forall (fun c => In c digit_chars) FPs).
  { rewrite HZ0 in HFPd. apply Forall_app in HFPd. apply HFPd. }
  clearbody FP. rewrite HZ0. clear Es.
  destruct FPs as [|f0 F'].
  - (* no fraction digit is left *)
    cbn [app List.length].
    replace (Z.of_nat (List.length ((S ++ IP) ++ [chr "."]) + 0) - 1)
      with (Z.of_nat (List.length (S ++ IP))) by lens.
    rewrite peek_app_at. rewrite Ascii.eqb_refl.
    destruct IP as [|i0 IP'] eqn:EIP.
    + rewrite app_nil_r. unfold S. destruct (v <? 0).
      * cbn. eexists. reflexivity.
      * cbn. eexists. reflexivity.
    + destruct (exists_last (l := i0 :: IP')) as (IP0 & l & Hl); [discriminate|].
      rewrite Hl in *.
      assert (Hld : In l digit_chars).
      { rewrite Forall_forall in HIPd. apply HIPd. apply in_or_app. right. left. reflexivity. }
      destruct (digit_not_point l Hld) as [_ Hminus].
      replace (Z.of_nat (List.length (S ++ IP0 ++ [l])) - 1)
        with (Z.of_nat (List.length (S ++ IP0))) by lens.
      replace (Z.of_nat (List.length (S ++ IP0)) + 1 =? 0) with false
        by (symmetry; apply Z.eqb_neq; lia).
      replace ((S ++ IP0 ++ [l]) ++ chr "." :: Z0 ++ R3)%list
        with ((S ++ IP0) ++ l :: (chr "." :: Z0 ++ R3))%list
        by assoc.
      rewrite peek_app_at.
      replace (Ascii.eqb l (chr "-")) with false
        by (symmetry; apply Ascii.eqb_neq; exact Hminus).
      cbn [orb].
      exists (chr "." :: Z0 ++ R3)%list. f_equal.
      * destruct (IP0 ++ [l])%list eqn:E; [destruct IP0; discriminate|].
        rewrite <- E. rewrite <- !app_assoc. reflexivity.
      * destruct (IP0 ++ [l])%list eqn:E; [destruct IP0; discriminate|].
        rewrite <- E. lens.
  - (* the last fraction digit left is not a zero *)
    destruct (exists_last (l := f0 :: F')) as (F0 & l & Hl); [discriminate|].
    rewrite Hl in *.
    assert (Hld : In l digit_chars).
    { rewrite Forall_forall in HFd. apply HFd. apply in_or_app. right. left. reflexivity. }
    destruct (digit_not_point l Hld) as [Hpoint Hminus].
    replace (Z.of_nat (List.length ((S ++ IP) ++ [chr "."]) + List.length (F0 ++ [l])) - 1)
      with (Z.of_nat (List.length ((S ++ IP) ++ chr "." :: F0))) by lens.
    replace ((S ++ IP) ++ chr "." :: ((F0 ++ [l]) ++ Z0) ++ R3)%list
      with (((S ++ IP) ++ chr "." :: F0) ++ l :: (Z0 ++ R3))%list
      by assoc.
    rewrite peek_app_at.
    replace (Ascii.eqb l (chr ".")) with false
      by (symmetry; apply Ascii.eqb_neq; exact Hpoint).
    rewrite peek_app_at.
    replace (Ascii.eqb l (chr "-")) with false
      by (symmetry; apply Ascii.eqb_neq; exact Hminus).
    replace (Z.of_nat (List.length ((S ++ IP) ++ chr "." :: F0)) + 1 =? 0) with false
      by (symmetry; apply Z.eqb_neq; lia).
    cbn [orb].
    exists (Z0 ++ R3)%list.
    destruct (F0 ++ [l])%list eqn:E; [destruct F0; discriminate|]. rewrite <- E.
    f_equal.
    + assoc.
    + lens.
Qed.

Lemma split_two (b : list ascii) p :
  (p + 2 <= List.length b)%nat ->
  exists A x y R, b = (A ++ x :: y :: R)%list /\ List.length A = p.
Proof.
  intros H. exists (firstn p b).
  destruct (skipn p b) as [|x [|y R]] eqn:Es.
  - apply (f_equal (@List.length ascii)) in Es. rewrite length_skipn in Es. simpl in Es. lia.
  - apply (f_equal (@List.length ascii)) in Es. rewrite length_skipn in Es. simpl in Es. lia.
  - exists x, y, R. split; [rewrite <- Es; symmetry; apply firstn_skipn|].
    apply firstn_length_le. lia.
Qed.

Lemma firstn_two_pokes (b : list ascii) p c1 c2 :
  (p + 2 <= List.length b)%nat ->
  firstn (p + 2) (poke (poke b p c1) (S p) c2) = (firstn p b ++ [c1; c2])%list
  /\ skipn (p + 2) (poke (poke b p c1) (S p) c2) = skipn (p + 2) b.
Proof.
  intros H. destruct (split_two b p H) as (A & x & y & R & -> & <-).
  rewrite poke_app_at.
  replace (A ++ c1 :: y :: R)%list with ((A ++ [c1]) ++ y :: R)%list by assoc.
  replace (S (List.length A)) with (List.length (A ++ [c1])) by lens.
  rewrite poke_app_at.
  replace ((A ++ [c1]) ++ c2 :: R)%list with ((A ++ [c1; c2]) ++ R)%list by assoc.
  replace (List.length A + 2)%nat with (List.length (A ++ [c1; c2])) by lens.
  rewrite firstn_app, Nat.sub_diag, firstn_all. cbn [firstn]. rewrite app_nil_r.
  rewrite skipn_app, Nat.sub_diag, skipn_all. cbn [skipn app].
  replace (List.length (A ++ [c1; c2])) with (List.length A + 2)%nat by lens.
  replace (A ++ x :: y :: R)%list with ((A ++ [x; y]) ++ R)%list by assoc.
  assert (HA : firstn (List.length A) ((A ++ [x; y]) ++ R) = A).
  { rewrite <- app_assoc. rewrite firstn_app, Nat.sub_diag, firstn_all. cbn [firstn].
    apply app_nil_r. }
  rewrite HA. split; [reflexivity|].
  replace (List.length A + 2)%nat with (List.length (A ++ [x; y])) by lens.
  rewrite skipn_app, Nat.sub_diag, skipn_all. reflexivity.
Qed.

Lemma emit_number_length v d win :
  List.length (fst (emit_number v d win)) = List.length win.
Proof.
  unfold emit_number.
  pose proof (write_chars_length (to_chars v) win 0) as H1.
  destruct (write_chars win 0 (to_chars v)) as [w1 p1]. cbn [fst] in H1.
  cbv zeta.
  set (st := if _ <? _ then _ else _).
  assert (H2 : List.length (fst st) = List.length win).
  { subst st. destruct (_ <? _); cbn [fst]; [|exact H1].
    rewrite memset_length, shift_right_length. exact H1. }
  destruct st as [w2 p2]. cbn [fst] in H2.
  destruct (_ || _); cbn [fst];
    rewrite ?pokeZ_length, ?shift_right_length; exact H2.
Qed.

(** [emit_axis] appends a space, the axis letter and the rendered number to
    what the formatter has written, and touches nothing before it. *)
Lemma emit_axis_int_appends (axis : ascii) (v_int : Z) (digits : nat) (f : GCodeFormatter) :
  (digits <= 9)%nat -> - 2 ^ 63 <= v_int < 2 ^ 63 ->
  (ptr f + 26 <= List.length (buf f))%nat ->
  fmt_text (emit_axis_int axis v_int digits f)
  = (fmt_text f ++ chr " " :: axis :: render_number v_int digits)%list
  /\ ptr (emit_axis_int axis v_int digits f)
     = (ptr f + 2 + List.length (render_number v_int digits))%nat
  /\ List.length (buf (emit_axis_int axis v_int digits f)) = List.length (buf f).
Proof.
  intros Hd _ Hroom. unfold fmt_text, emit_axis_int.
  destruct (firstn_two_pokes (buf f) (ptr f) (chr " ") axis) as [Hfirst Hskip]; [lia|].
  replace (S (S (ptr f))) with (ptr f + 2)%nat by lia.
  rewrite Hfirst, Hskip.
  pose proof (to_digits_length 20 (Z.abs v_int) []) as HD. cbn [List.length] in HD.
  destruct (emit_number_render v_int digits (skipn (ptr f + 2) (buf f))) as (G & He).
  { rewrite length_skipn. destruct (v_int <? 0); lia. }
  rewrite He. cbn [buf ptr]. rewrite Nat2Z.id.
  assert (Hl0 : List.length (firstn (ptr f) (buf f)) = ptr f)
    by (apply firstn_length_le; lia).
  split; [|split; [reflexivity|]].
  - replace ((firstn (ptr f) (buf f) ++ [chr " "; axis]) ++ render_number v_int digits ++ G)%list
      with ((firstn (ptr f) (buf f) ++ chr " " :: axis :: render_number v_int digits) ++ G)%list
      by assoc.
    replace (ptr f + 2 + List.length (render_number v_int digits))%nat
      with (List.length (firstn (ptr f) (buf f) ++ chr " " :: axis :: render_number v_int digits))
      by lens.
    rewrite firstn_app, Nat.sub_diag, firstn_all. cbn [firstn]. apply app_nil_r.
  - pose proof (emit_number_length v_int digits (skipn (ptr f + 2) (buf f))) as Hn.
    rewrite He in Hn. cbn [fst] in Hn. rewrite length_skipn in Hn.
    rewrite length_app, Hn, length_app, Hl0. cbn [List.length]. lia.
Qed.

Lemma digit_val_digit_char k : 0 <= k < 10 -> digit_val (digit_char k) = k.
Proof.
  intros H. unfold digit_val, digit_char.
  rewrite nat_ascii_embedding by lia. lia.
Qed.

Lemma read_digits_acc l : forall acc,
  fold_left (fun acc c => acc * 10 + digit_val c) l acc
  = acc * 10 ^ Z.of_nat (List.length l) + read_digits l.
Proof.
  unfold read_digits.
  induction l as [|c l IH]; intros acc; cbn [fold_left List.length].
  - change (10 ^ Z.of_nat 0) with 1. lia.
  - rewrite IH, (IH (0 * 10 + digit_val c)).
    rewrite Nat2Z.inj_succ, Z.pow_succ_r by lia. lia.
Qed.

Lemma read_digits_app a b :
  read_digits (a ++ b) = read_digits a * 10 ^ Z.of_nat (List.length b) + read_digits b.
Proof. unfold read_digits at 1. rewrite fold_left_app, read_digits_acc. reflexivity. Qed.

Lemma to_digits_app fuel : forall n acc,
  to_digits fuel n acc = (to_digits fuel n [] ++ acc)%list.
Proof.
  induction fuel as [|f IH]; intros n acc; cbn [to_digits].
  - reflexivity.
  - destruct (n / 10 =? 0); [reflexivity|].
    rewrite IH, (IH _ [_]), <- app_assoc. reflexivity.
Qed.

Lemma read_to_digits fuel : forall n,
  0 <= n < 10 ^ Z.of_nat (S fuel) -> read_digits (to_digits fuel n []) = n.
Proof.
  induction fuel as [|f IH]; intros n Hn; cbn [to_digits].
  - change (10 ^ Z.of_nat 1) with 10 in Hn.
    unfold read_digits. cbn [fold_left].
    rewrite digit_val_digit_char by (apply Z.mod_pos_bound; lia).
    rewrite Z.mod_small by lia. lia.
  - pose proof (Z.mod_pos_bound n 10 eq_refl) as Hm.
    pose proof (Z.div_mod n 10) as Hd.
    destruct (Z.eqb_spec (n / 10) 0) as [E|N].
    + unfold read_digits. cbn [fold_left].
      rewrite digit_val_digit_char by exact Hm. lia.
    + rewrite to_digits_app, read_digits_app. cbn [List.length].
      change (10 ^ Z.of_nat 1) with 10.
      rewrite IH.
      * unfold read_digits. cbn [fold_left].
        rewrite digit_val_digit_char by exact Hm. lia.
      * rewrite (Nat2Z.inj_succ (S f)), Z.pow_succ_r in Hn by lia.
        split; [apply Z.div_pos; lia|].
        apply Z.div_lt_upper_bound; lia.
Qed.

Lemma read_digits_zeros k : read_digits (repeat (chr "0") k) = 0.
Proof.
  induction k as [|k IH]; [reflexivity|].
  change (repeat (chr "0") (S k)) with ([chr "0"] ++ repeat (chr "0") k)%list.
  rewrite read_digits_app, IH. reflexivity.
Qed.

Lemma strip_trailing_zeros_zeros F :
  exists j, F = (strip_trailing_zeros F ++ repeat (chr "0") j)%list.
Proof.
  induction F as [|c F IH] using rev_ind.
  - exists O. reflexivity.
  - rewrite strip_trailing_zeros_snoc. destruct (Ascii.eqb_spec c (chr "0")) as [E|N].
    + destruct IH as (j & HZ). exists (S j). subst c.
      rewrite HZ at 1. rewrite <- app_assoc. f_equal.
      rewrite <- repeat_cons. reflexivity.
    + exists O. cbn [repeat]. rewrite app_nil_r. reflexivity.
Qed.

Lemma before_point_digits A : forall B,
  Forall (fun c => In c digit_chars) A ->
  before_point (A ++ chr "." :: B) = A /\ after_point (A ++ chr "." :: B) = B.
Proof.
  induction A as [|a A IH]; intros B H.
  - split; reflexivity.
  - inversion H as [|? ? Ha HA]; subst.
    destruct (digit_not_point a Ha) as [Hp _].
    cbn [app before_point after_point].
    destruct (Ascii.eqb_spec a (chr ".")) as [E|_]; [contradiction|].
    destruct (IH B HA) as [-> ->]. split; reflexivity.
Qed.

Lemma before_point_no_point A :
  Forall (fun c => In c digit_chars) A ->
  before_point A = A /\ after_point A = [].
Proof.
  induction A as [|a A IH]; intros H.
  - split; reflexivity.
  - inversion H as [|? ? Ha HA]; subst.
    destruct (digit_not_point a Ha) as [Hp _].
    cbn [before_point after_point].
    destruct (Ascii.eqb_spec a (chr ".")) as [E|_]; [contradiction|].
    destruct (IH HA) as [-> ->]. split; reflexivity.
Qed.

Lemma decimal_sum (a b : Z) (k j : nat) :
  (inject_Z a + Qmake b (Z.to_pos (10 ^ Z.of_nat k))
   == Qmake (a * 10 ^ Z.of_nat (k + j) + b * 10 ^ Z.of_nat j)
            (Z.to_pos (10 ^ Z.of_nat (k + j))))%Q.
Proof.
  assert (Hk : 0 < 10 ^ Z.of_nat k) by (apply Z.pow_pos_nonneg; lia).
  assert (Hj : 0 < 10 ^ Z.of_nat j) by (apply Z.pow_pos_nonneg; lia).
  unfold Qeq, Qplus, inject_Z. cbn [Qnum Qden].
  rewrite Nat2Z.inj_add, Z.pow_add_r by lia.
  rewrite Pos2Z.inj_mul, !Z2Pos.id by lia. ring.
Qed.

Lemma render_number_sign (v : Z) (d : nat) :
  render_number v d
  = ((if v <? 0 then [chr "-"] else []) ++ render_number (Z.abs v) d)%list.
Proof.
  unfold render_number. rewrite Z.abs_idemp.
  assert (E : (Z.abs v <? 0) = false) by (apply Z.ltb_ge, Z.abs_nonneg).
  rewrite E. cbn [app].
  destruct (strip_trailing_zeros _); [destruct (firstn _ _)|]; reflexivity.
Qed.

Lemma render_number_chars (n : Z) (d : nat) :
  0 <= n ->
  Forall (fun c => In c digit_chars \/ c = chr ".") (render_number n d).
Proof.
  intros Hn. unfold render_number.
  assert (E : (n <? 0) = false) by (apply Z.ltb_ge; exact Hn). rewrite E. cbn [app].
  pose proof (padded_digits n d) as HP.
  set (P := (repeat _ _ ++ _)%list) in *.
  pose proof (Forall_digits_firstn (List.length P - d) P HP) as HI.
  pose proof (Forall_digits_skipn (List.length P - d) P HP) as HF.
  destruct (strip_trailing_zeros_zeros (skipn (List.length P - d) P)) as (j & Hj).
  rewrite Hj in HF. apply Forall_app in HF. destruct HF as [HF _].
  assert (W : forall l, Forall (fun c => In c digit_chars) l ->
                        Forall (fun c => In c digit_chars \/ c = chr ".") l).
  { intros l H. eapply Forall_impl; [|exact H]. intros; left; assumption. }
  destruct (strip_trailing_zeros _) eqn:Efp.
  - destruct (firstn _ _) eqn:Eip.
    + constructor; [left; simpl; tauto|constructor].
    + apply W, HI.
  - apply Forall_app. split; [apply W, HI|].
    constructor; [right; reflexivity|apply W, HF].
Qed.

Lemma read_number_unsigned (l : list ascii) :
  Forall (fun c => In c digit_chars \/ c = chr ".") l ->
  (read_number l == read_unsigned l)%Q.
Proof.
  intros H. destruct l as [|c r]; [reflexivity|].
  inversion H as [|? ? Hc _]; subst. cbn [read_number].
  destruct (Ascii.eqb_spec c (chr "-")) as [E|_]; [|reflexivity].
  exfalso. destruct Hc as [Hc| ->]; [|discriminate E].
  apply digit_not_point in Hc. apply Hc, E.
Qed.

Lemma read_unsigned_render (n : Z) (d : nat) :
  0 <= n < 10 ^ 21 ->
  (read_unsigned (render_number n d) == Qmake n (Z.to_pos (10 ^ Z.of_nat d)))%Q.
Proof.
  intros Hn. unfold render_number.
  assert (E : (n <? 0) = false) by (apply Z.ltb_ge; lia). rewrite E. cbn [app].
  rewrite (Z.abs_eq n) by lia.
  pose proof (padded_digits n d) as HP. rewrite (Z.abs_eq n) in HP by lia.
  assert (HR : read_digits (repeat (chr "0") (d - List.length (to_digits 20 n []))
                            ++ to_digits 20 n []) = n).
  { rewrite read_digits_app, read_digits_zeros, read_to_digits; [lia|].
    change (10 ^ Z.of_nat 21) with (10 ^ 21). exact Hn. }
  assert (HL : (d <= List.length (repeat (chr "0") (d - List.length (to_digits 20 n []))
                                  ++ to_digits 20 n []))%nat).
  { rewrite length_app, repeat_length. lia. }
  set (P := (repeat _ _ ++ _)%list) in *. clearbody P.
  pose proof (Forall_digits_firstn (List.length P - d) P HP) as HI.
  pose proof (Forall_digits_skipn (List.length P - d) P HP) as HF.
  assert (HLf : List.length (skipn (List.length P - d) P) = d)
    by (rewrite length_skipn; lia).
  rewrite <- (firstn_skipn (List.length P - d) P) in HR.
  rewrite read_digits_app, HLf in HR.
  set (ip := firstn (List.length P - d) P) in *.
  set (fp0 := skipn (List.length P - d) P) in *.
  clearbody ip fp0. clear HP HL P.
  destruct (strip_trailing_zeros_zeros fp0) as (j & Hj).
  set (fp := strip_trailing_zeros fp0) in *. clearbody fp.
  subst fp0. apply Forall_app in HF. destruct HF as [HF _].
  rewrite read_digits_app, read_digits_zeros, repeat_length in HR.
  rewrite length_app, repeat_length in HLf.
  subst d n.
  destruct fp as [|c fp].
  - destruct ip as [|a ip].
    + unfold read_unsigned. cbn [before_point after_point]. 
      rewrite (decimal_sum _ _ 0 j). reflexivity.
    + unfold read_unsigned.
      destruct (before_point_no_point _ HI) as [-> ->].
      rewrite (decimal_sum _ _ 0 j). reflexivity.
  - unfold read_unsigned.
    destruct (before_point_digits ip (c :: fp) HI) as [-> ->].
    rewrite (decimal_sum _ _ (List.length (c :: fp)) j).
    match goal with
    | |- (Qmake ?x _ == Qmake ?y _)%Q => replace x with y by ring
    end. reflexivity.
Qed.

Lemma read_number_render (v : Z) (d : nat) :
  - 10 ^ 21 < v < 10 ^ 21 ->
  (read_number (render_number v d) == Qmake v (Z.to_pos (10 ^ Z.of_nat d)))%Q.
Proof.
  intros Hv. rewrite render_number_sign.
  destruct (Z.ltb_spec v 0) as [Hneg|Hpos]; cbn [app].
  - cbn [read_number]. change (Ascii.eqb (chr "-") (chr "-")) with true. cbv iota.
    rewrite read_unsigned_render by lia.
    unfold Qeq, Qopp. cbn [Qnum Qden]. lia.
  - rewrite read_number_unsigned by (apply render_number_chars; lia).
    rewrite Z.abs_eq by lia. apply read_unsigned_render. lia.
Qed.

Lemma render_number_length (v : Z) (d : nat) :
  (1 <= List.length (render_number v d)
     <= (if (v <? 0)%Z then 1 else 0)
        + Nat.max d (List.length (to_digits 20 (Z.abs v) [])) + 1)%nat.
Proof.
  unfold render_number.
  set (sg := if v <? 0 then [chr "-"] else []).
  assert (Hs : List.length sg = if (v <? 0)%Z then 1%nat else 0%nat)
    by (subst sg; destruct (v <? 0); reflexivity).
  pose proof (to_digits_length 20 (Z.abs v) []) as Hds.
  change (List.length (@nil ascii)) with O in Hds.
  set (ds := to_digits 20 (Z.abs v) []) in *. clearbody ds.
  assert (HL : List.length (repeat (chr "0") (d - List.length ds) ++ ds)
               = Nat.max d (List.length ds)).
  { rewrite length_app, repeat_length. lia. }
  set (P := (repeat _ _ ++ ds)%list) in *. clearbody P.
  pose proof (firstn_skipn (List.length P - d) P) as HP.
  apply (f_equal (@List.length ascii)) in HP. rewrite length_app in HP.
  destruct (strip_trailing_zeros_zeros (skipn (List.length P - d) P)) as (j & Hj).
  apply (f_equal (@List.length ascii)) in Hj. rewrite length_app, repeat_length in Hj.
  destruct (strip_trailing_zeros _) as [|c fp].
  - destruct (firstn _ _) as [|a ip]; rewrite length_app; cbn [List.length] in *; lia.
  - rewrite !length_app. cbn [List.length] in *. lia.
Qed.

Lemma mantissa_render (v : Z) (d : nat) (win : list ascii) :
  (d <= 9)%nat -> (24 <= List.length win)%nat ->
  mantissa v d win = string_of_list_ascii (render_number v d).
Proof.
  intros Hd Hwin. unfold mantissa.
  pose proof (to_digits_length 20 (Z.abs v) []) as Hds.
  change (List.length (@nil ascii)) with O in Hds.
  destruct (emit_number_render v d win) as (G & ->).
  { destruct (v <? 0); lia. }
  rewrite Nat2Z.id, firstn_app, Nat.sub_diag, firstn_all. cbn [firstn].
  rewrite app_nil_r. reflexivity.
Qed.

Lemma number_text_render axis (v : Z) (d : nat) (f : GCodeFormatter) :
  (d <= 9)%nat -> (ptr f + 26 <= List.length (buf f))%nat ->
  list_ascii_of_string (number_text f (emit_axis_int axis v d f)) = render_number v d.
Proof.
  intros Hd Hroom. rewrite number_text_mantissa by lia.
  rewrite mantissa_render.
  - apply list_ascii_of_string_of_list_ascii.
  - exact Hd.
  - rewrite length_skipn, !poke_length. lia.
Qed.

Lemma round_half_away_close (x : Q) :
  (Qabs (inject_Z (round_half_away x) - x) <= 1 # 2)%Q.
Proof.
  unfold round_half_away. apply Qabs_Qle_condition.
  destruct (Qle_bool 0 x).
  - pose proof (Qfloor_le (x + (1 # 2))) as H1.
    pose proof (Qlt_floor (x + (1 # 2))) as H2.
    rewrite inject_Z_plus in H2. change (inject_Z 1) with 1%Q in H2.
    split; lra.
  - pose proof (Qfloor_le (- x + (1 # 2))) as H1.
    pose proof (Qlt_floor (- x + (1 # 2))) as H2.
    rewrite inject_Z_plus in H2. change (inject_Z 1) with 1%Q in H2.
    rewrite inject_Z_opp. split; lra.
Qed.

Lemma Qmake_pow_10 (r : Z) (d : nat) :
  (Qmake r (Z.to_pos (pow_10 d)) * inject_Z (pow_10 d) == inject_Z r)%Q.
Proof.
  assert (H : 0 < pow_10 d) by (apply Z.pow_pos_nonneg; lia).
  unfold Qeq, Qmult, inject_Z. cbn [Qnum Qden].
  rewrite Pos.mul_1_r, Z2Pos.id by lia. ring.
Qed.

(** X1: [emit_axis] keeps the text before the pointer, appends a space, the
    axis letter and the number, leaves the size of the buffer as it is and
    the pointer inside it: a formatter with 26 bytes of room cannot overrun
    its buffer. *)
Theorem emit_axis_appends (axis : ascii) (v : Q) (digits : nat) (f : GCodeFormatter) :
  (digits <= 9)%nat ->
  - 2 ^ 63 <= round_half_away (v * inject_Z (pow_10 digits)) < 2 ^ 63 ->
  (ptr f + 26 <= List.length (buf f))%nat ->
  let f' := emit_axis axis v digits f in
  fmt_text f' = (fmt_text f ++ chr " " :: axis :: list_ascii_of_string (number_text f f'))%list
  /\ List.length (buf f') = List.length (buf f)
  /\ (ptr f + 3 <= ptr f' < List.length (buf f'))%nat.
Proof.
  intros Hd Hr Hroom f'. subst f'. unfold emit_axis.
  set (r := round_half_away _) in *. clearbody r.
  rewrite number_text_render by assumption.
  destruct (emit_axis_int_appends axis r digits f Hd Hr Hroom) as (Ht & Hp & Hl).
  split; [exact Ht|]. split; [exact Hl|].
  rewrite Hp, Hl.
  pose proof (render_number_length r digits) as HL.
  pose proof (to_digits_length 20 (Z.abs r) []) as Hds.
  change (List.length (@nil ascii)) with O in Hds.
  destruct (r <? 0); lia.
Qed.


(** X3: the written number is the scaled value rounded to the nearest
    integer.  For the product [q] of the value and [10^digits], as
    [std::round] receives it, the number read back and scaled by
    [10^digits] is within one half of [q]; hence when [q] is within [delta]
    of the exact product of a value [v], the number read back is within
    [1/2 + delta] units of the last decimal of [v].  The disabled check at
    the end of [emit_axis] asserts the bound 0.50001. *)
Theorem emit_axis_precision (axis : ascii) (q : Q) (digits : nat) (f : GCodeFormatter) :
  (digits <= 9)%nat ->
  - 2 ^ 63 <= round_half_away q < 2 ^ 63 ->
  (ptr f + 26 <= List.length (buf f))%nat ->
  let read := read_number (list_ascii_of_string
                (number_text f (emit_axis_int axis (round_half_away q) digits f))) in
  (Qabs (read * inject_Z (pow_10 digits) - q) <= 1 # 2)%Q
  /\ forall v delta : Q,
       (Qabs (q - v * inject_Z (pow_10 digits)) <= delta)%Q ->
       (Qabs (read - v) * inject_Z (pow_10 digits) <= (1 # 2) + delta)%Q.
Proof.
  intros Hd Hr Hroom read. subst read.
  rewrite number_text_render by assumption.
  set (r := round_half_away q) in *.
  assert (Eread : (read_number (render_number r digits)
                   == Qmake r (Z.to_pos (pow_10 digits)))%Q)
    by (apply read_number_render; lia).
  assert (Hp : (0 <= inject_Z (pow_10 digits))%Q).
  { change 0%Q with (inject_Z 0). rewrite <- Zle_Qle. apply Z.pow_nonneg. lia. }
  assert (E : (read_number (render_number r digits) * inject_Z (pow_10 digits)
               == inject_Z r)%Q).
  { rewrite Eread, <- (Qmake_pow_10 r digits). ring. }
  assert (Hq : (Qabs (inject_Z r - q) <= 1 # 2)%Q) by apply round_half_away_close.
  split.
  - rewrite E. exact Hq.
  - intros v delta Hv.
    rewrite <- (Qabs_pos (inject_Z (pow_10 digits))) at 1 by exact Hp.
    rewrite <- Qabs_Qmult.
    assert (E' : ((read_number (render_number r digits) - v) * inject_Z (pow_10 digits)
                  == (inject_Z r - q) + (q - v * inject_Z (pow_10 digits)))%Q).
    { rewrite <- E. ring. }
    rewrite E'.
    eapply Qle_trans; [apply Qabs_triangle|].
    apply Qplus_le_compat; assumption.
Qed.

Lemma render_number_last (r : Z) (d : nat) :
  exists body c,
    render_number r d = (body ++ [c])%list
    /\ c <> chr "." /\ (In (chr ".") body -> c <> chr "0").
Proof.
  rewrite render_number_sign.
  set (sg := if r <? 0 then [chr "-"] else []).
  assert (Hsg : ~ In (chr ".") sg).
  { subst sg. destruct (r <? 0); simpl; [intros [H|[]]; discriminate H|tauto]. }
  unfold render_number. rewrite Z.abs_idemp.
  assert (E : (Z.abs r <? 0) = false) by (apply Z.ltb_ge, Z.abs_nonneg).
  rewrite E. cbn [app].
  pose proof (padded_digits r d) as HP.
  set (P := (repeat _ _ ++ _)%list) in *. clearbody P.
  pose proof (Forall_digits_firstn (List.length P - d) P HP) as HI.
  pose proof (Forall_digits_skipn (List.length P - d) P HP) as HF.
  set (ip := firstn _ P) in *. set (fp0 := skipn _ P) in *. clearbody ip fp0.
  destruct (strip_trailing_zeros_zeros fp0) as (j & Hj).
  pose proof (strip_trailing_zeros_last fp0) as Hlast.
  set (fp := strip_trailing_zeros fp0) in *. clearbody fp.
  rewrite Hj in HF. apply Forall_app in HF. destruct HF as [HF _].
  assert (Hno : forall l, Forall (fun c => In c digit_chars) l -> ~ In (chr ".") l).
  { intros l Hl Hin. rewrite Forall_forall in Hl. apply Hl in Hin.
    apply digit_not_point in Hin. apply (proj1 Hin). reflexivity. }
  destruct fp as [|c0 fp].
  - destruct ip as [|a0 ip].
    + exists sg, (chr "0"). split; [reflexivity|]. split; [discriminate|].
      intros H. contradiction.
    + destruct (@exists_last _ (a0 :: ip)) as (ip' & a & Ex); [discriminate|].
      rewrite Ex in *. clear Ex.
      exists (sg ++ ip')%list, a. split; [apply app_assoc|].
      apply Forall_app in HI. destruct HI as [HI Ha]. inversion Ha as [|? ? Ha' _]; subst.
      split; [apply (digit_not_point a Ha')|].
      intros H. apply in_app_or in H. destruct H as [H|H]; [contradiction|].
      exfalso. apply (Hno ip' HI H).
  - destruct (@exists_last _ (c0 :: fp)) as (fp' & c & Ex); [discriminate|].
    rewrite Ex in *. clear Ex.
    exists (sg ++ ip ++ chr "." :: fp')%list, c. split.
    + rewrite <- !app_assoc. reflexivity.
    + apply Forall_app in HF. destruct HF as [_ Hc]. inversion Hc as [|? ? Hc' _]; subst.
      split; [apply (digit_not_point c Hc')|].
      intros _. eapply Hlast. reflexivity.
Qed.

Lemma digit_char_nonzero k : 0 < k < 10 -> digit_char k <> chr "0".
Proof.
  intros H E. apply (f_equal digit_val) in E.
  rewrite digit_val_digit_char in E by lia. vm_compute in E. lia.
Qed.

Lemma to_digits_head fuel : forall n acc,
  0 < n < 10 ^ Z.of_nat (S fuel) ->
  exists c r, to_digits fuel n acc = c :: r /\ c <> chr "0".
Proof.
  induction fuel as [|f IH]; intros n acc Hn; cbn [to_digits].
  - change (10 ^ Z.of_nat 1) with 10 in Hn.
    eexists _, _. split; [reflexivity|].
    rewrite Z.mod_small by lia. apply digit_char_nonzero. lia.
  - destruct (Z.eqb_spec (n / 10) 0) as [E|N].
    + eexists _, _. split; [reflexivity|].
      assert (n < 10).
      { pose proof (Z.div_mod n 10). pose proof (Z.mod_pos_bound n 10). lia. }
      rewrite Z.mod_small by lia. apply digit_char_nonzero. lia.
    + apply IH.
      rewrite (Nat2Z.inj_succ (S f)), Z.pow_succ_r in Hn by lia.
      split.
      * pose proof (Z.div_pos n 10). lia.
      * apply Z.div_lt_upper_bound; lia.
Qed.

Lemma render_number_no_leading_zero (n : Z) (d : nat) :
  0 <= n < 10 ^ 21 ->
  render_number n d = [chr "0"] \/ forall r, render_number n d <> chr "0" :: r.
Proof.
  intros Hn. unfold render_number.
  assert (E : (n <? 0) = false) by (apply Z.ltb_ge; lia). rewrite E. cbn [app].
  rewrite (Z.abs_eq n) by lia.
  assert (Hds : n = 0 /\ to_digits 20 n [] = [chr "0"]
                \/ exists c r, to_digits 20 n [] = c :: r /\ c <> chr "0").
  { destruct (Z.eq_dec n 0) as [->|Hnz]; [left; split; reflexivity|].
    right. apply to_digits_head. change (10 ^ Z.of_nat 21) with (10 ^ 21). lia. }
  pose proof (strip_trailing_zeros_zeros
                (skipn (List.length (repeat (chr "0") (d - List.length (to_digits 20 n []))
                                     ++ to_digits 20 n []) - d)
                       (repeat (chr "0") (d - List.length (to_digits 20 n []))
                        ++ to_digits 20 n []))) as (j & Hj).
  set (ds := to_digits 20 n []) in *. clearbody ds.
  set (P := (repeat (chr "0") (d - List.length ds) ++ ds)%list) in *.
  assert (HL : List.length P = Nat.max d (List.length ds)).
  { subst P. rewrite length_app, repeat_length. lia. }
  destruct (strip_trailing_zeros (skipn (List.length P - d) P)) as [|c fp] eqn:Efp.
  - destruct (firstn (List.length P - d) P) as [|a ip] eqn:Eip; [left; reflexivity|].
    assert (Hlen : (d < List.length ds)%nat).
    { apply (f_equal (@List.length ascii)) in Eip. rewrite length_firstn in Eip.
      cbn [List.length] in Eip. lia. }
    assert (HP : P = ds).
    { subst P. replace (d - List.length ds)%nat with O by lia. reflexivity. }
    rewrite HP in *.
    destruct Hds as [[-> Hz]|(c & r & Hc & Hne)].
    + rewrite Hz in *. cbn [List.length] in *.
      assert (d = O) by lia. subst d. cbn in Eip. injection Eip as Ha Hip.
      subst a ip. left. reflexivity.
    + right. intros r' Hr'. injection Hr' as -> _.
      rewrite Hc in Eip. cbn [List.length] in Eip.
      destruct (S (List.length r) - d)%nat eqn:Ek.
      * rewrite Hc in Hlen. cbn [List.length] in Hlen. lia.
      * cbn [firstn] in Eip. injection Eip as Hc0 _. apply Hne. exact Hc0.
  - destruct (firstn (List.length P - d) P) as [|a ip] eqn:Eip.
    + right. intros r Hr. discriminate Hr.
    + assert (Hlen : (d < List.length ds)%nat).
      { apply (f_equal (@List.length ascii)) in Eip. rewrite length_firstn in Eip.
        cbn [List.length] in Eip. lia. }
      assert (HP : P = ds).
      { subst P. replace (d - List.length ds)%nat with O by lia. reflexivity. }
      rewrite HP in *.
      destruct Hds as [[-> Hz]|(c0 & r & Hc & Hne)].
      * rewrite Hz in *. cbn [List.length] in *.
        assert (d = O) by lia. subst d. cbn in Hj. destruct j; discriminate Hj.
      * right. intros r' Hr'. cbn [app] in Hr'. injection Hr' as -> _.
        rewrite Hc in Eip. cbn [List.length] in Eip.
        destruct (S (List.length r) - d)%nat eqn:Ek.
        -- rewrite Hc in Hlen. cbn [List.length] in Hlen. lia.
        -- cbn [firstn] in Eip. injection Eip as Hc0 _. apply Hne. exact Hc0.
Qed.

Lemma render_number_unsigned (n : Z) (d : nat) :
  0 <= n -> after_sign (render_number n d) = render_number n d.
Proof.
  intros Hn. pose proof (render_number_chars n d Hn) as H.
  destruct (render_number n d) as [|c t]; [reflexivity|].
  inversion H as [|? ? Hc _]; subst. cbn [after_sign].
  destruct Hc as [Hc| ->]; [|reflexivity].
  cbn [digit_chars map In] in Hc.
  repeat (destruct Hc as [<-|Hc]; [reflexivity|]). contradiction.
Qed.

Lemma after_sign_render_number (r : Z) (d : nat) :
  after_sign (render_number r d) = render_number (Z.abs r) d.
Proof.
  rewrite render_number_sign. destruct (r <? 0).
  - reflexivity.
  - cbn [app]. apply render_number_unsigned, Z.abs_nonneg.
Qed.

(** X4: the written number is in its shortest form: it does not end in a
    point, when it has a point it does not end in a zero, and what follows
    the minus sign of a negative number, or the whole of any other number,
    does not begin with a zero unless it is the single character zero. *)
Theorem emit_axis_trimmed (axis : ascii) (v : Q) (digits : nat) (f : GCodeFormatter) :
  (digits <= 9)%nat ->
  - 2 ^ 63 <= round_half_away (v * inject_Z (pow_10 digits)) < 2 ^ 63 ->
  (ptr f + 26 <= List.length (buf f))%nat ->
  let text := list_ascii_of_string (number_text f (emit_axis axis v digits f)) in
  (exists body c,
      text = (body ++ [c])%list
      /\ c <> chr "." /\ (In (chr ".") body -> c <> chr "0"))
  /\ (after_sign text = [chr "0"] \/ forall r, after_sign text <> chr "0" :: r).
Proof.
  intros Hd Hr Hroom text. subst text. unfold emit_axis.
  rewrite number_text_render by assumption.
  set (r := round_half_away _) in *. clearbody r.
  split; [apply render_number_last|].
  rewrite after_sign_render_number.
  apply render_number_no_leading_zero. lia.
Qed.

Lemma emit_axis_appends_witness :
  fmt_text (emit_axis (chr "Z") (-5 # 1000) 3 GCodeG1Formatter)
  = (fmt_text GCodeG1Formatter
     ++ chr " " :: chr "Z"
        :: list_ascii_of_string
             (number_text GCodeG1Formatter
                (emit_axis (chr "Z") (-5 # 1000) 3 GCodeG1Formatter)))%list.
Proof.
  destruct (emit_axis_appends (chr "Z") (-5 # 1000) 3 GCodeG1Formatter) as (H & _ & _).
  - lia.
  - vm_compute. split; [discriminate|reflexivity].
  - vm_compute. lia.
  - exact H.
Defined.


(** The double 1.0005 times 1000 is the double 1000.5, written as 1.001. *)
Lemma emit_axis_precision_witness :
  (binary64 (binary64 (10005 # 10000) * 1000) == 2001 # 2)%Q
  /\ (Qabs (read_number (list_ascii_of_string
                           (number_text GCodeG1Formatter
                              (emit_axis_int (chr "Z") (round_half_away (2001 # 2)) 3
                                 GCodeG1Formatter)))
            - binary64 (10005 # 10000))
      * inject_Z (pow_10 3) <= (1 # 2) + (1 # 100000))%Q.
Proof.
  split; [vm_compute; reflexivity|].
  assert (Hd : (3 <= 9)%nat) by lia.
  assert (Hr : - 2 ^ 63 <= round_half_away (2001 # 2) < 2 ^ 63)
    by (vm_compute; split; [discriminate|reflexivity]).
  assert (Hroom : (ptr GCodeG1Formatter + 26 <= List.length (buf GCodeG1Formatter))%nat)
    by (vm_compute; lia).
  destruct (emit_axis_precision (chr "Z") (2001 # 2) 3 GCodeG1Formatter Hd Hr Hroom)
    as [_ H].
  apply H. vm_compute. discriminate.
Defined.

(** Minus one two-hundredth at three decimals is written as "-.005". *)
Lemma emit_axis_trimmed_witness :
  after_sign (list_ascii_of_string
                (number_text GCodeG1Formatter
                   (emit_axis (chr "F") (- (1 # 200)) 3 GCodeG1Formatter)))
  = [chr "0"]
  \/ forall r,
       after_sign (list_ascii_of_string
                     (number_text GCodeG1Formatter
                        (emit_axis (chr "F") (- (1 # 200)) 3 GCodeG1Formatter)))
       <> chr "0" :: r.
Proof.
  assert (Hd : (3 <= 9)%nat) by lia.
  assert (Hr : - 2 ^ 63 <= round_half_away (- (1 # 200) * inject_Z (pow_10 3)) < 2 ^ 63)
    by (vm_compute; split; [discriminate|reflexivity]).
  assert (Hroom : (ptr GCodeG1Formatter + 26 <= List.length (buf GCodeG1Formatter))%nat)
    by (vm_compute; lia).
  destruct (emit_axis_trimmed (chr "F") (- (1 # 200)) 3 GCodeG1Formatter Hd Hr Hroom)
    as [_ H].
  exact H.
Defined.

(* ------------------------------------------------------------------ *)
(** ** Nominal height *)

Local Open Scope Q_scope.

Ltac fields :=
  cbn [m_pos m_lifted m_to_lift m_to_lift_type m_is_current_position_clear
       is_current_position_clear
       set_pos set_pos_xy set_pos_z set_lifted set_to_lift set_to_lift_type
       set_current_position_clear set_motion store set_filament_extruders
       set_last_acceleration set_current set_last_bed set_m_acceleration
       x3 y3 z3 fst snd] in *.

Ltac views :=
  repeat match goal with
  | H : set_travel_acceleration _ = Some _ |- _ => apply set_travel_acceleration_view in H
  | H : _travel_to_z _ _ _ _ = Some _ |- _ => apply _travel_to_z_view in H
  | H : _spiral_travel_to_z _ _ _ _ _ = Some _ |- _ => apply _spiral_travel_to_z_view in H
  | H : reset_e _ _ = Some _ |- _ => apply reset_e_view in H
  | H : extrude_current _ _ _ = Some _ |- _ => apply extrude_current_view in H
  end;
  unfold lift_view in *; fields.

Section Heights.
Context {libm : Libm}.

Lemma view_nominal w w' : lift_view w' = lift_view w -> nominal_z w' = nominal_z w.
Proof. unfold lift_view, nominal_z. intros H. injection H as Hp Hl _ _ _. rewrite Hp, Hl. reflexivity. Qed.

Lemma set_extruder_view t w s w' : set_extruder t w = Some (s, w') -> lift_view w' = lift_view w.
Proof.
  unfold set_extruder. intros H. binds. destruct (need_toolchange _ _); binds; [|reflexivity].
  eapply toolchange_view; eassumption.
Qed.

Lemma set_bed_temperature_view t wt w : lift_view (snd (set_bed_temperature t wt w)) = lift_view w.
Proof.
  unfold set_bed_temperature. destruct (_ && _); [reflexivity|]. destruct wt; reflexivity.
Qed.

Lemma lazy_lift_height ty sv tc w s w' :
  lazy_lift ty sv tc w = Some (s, w') -> nominal_z w' == nominal_z w.
Proof.
  unfold lazy_lift, nominal_z. intros H. binds.
  destruct (_ && _) eqn:Ec; [|binds; reflexivity].
  qprops. destruct sv; binds; [|fields; reflexivity].
  views.
  match goal with H : _ = (_, _, _, _, _) |- _ => injection H as Hp Hl _ _ _ end.
  rewrite Hp, Hl. fields. lra.
Qed.

Lemma eager_lift_height ty tc w s w' :
  eager_lift ty tc w = Some (s, w') -> nominal_z w' == nominal_z w.
Proof.
  unfold eager_lift, nominal_z. intros H.
  destruct (target_lift tc w) as [t|] eqn:Et; [|discriminate H]. cbv zeta in H.
  destruct (Qlt_bool (t - m_lifted w) EPSILON) eqn:Ee; [binds; reflexivity|].
  apply Qlt_bool_false in Ee. unfold EPSILON in Ee.
  destruct (Qlt_bool 0 (t - m_lifted w)) eqn:Ep;
    [|apply Qlt_bool_false in Ep; exfalso; lra].
  destruct (LiftType_eqb ty SpiralLift && is_current_position_clear w);
    binds; views;
    match goal with H : _ = (_, _, _, _, _) |- _ => injection H as Hp _ _ _ _ end;
    rewrite Hp; fields; lra.
Qed.

Lemma unlift_height w s w' :
  unlift w = Some (s, w') ->
  nominal_z w' == nominal_z w
  /\ m_to_lift w' = 0
  /\ ((0 < m_lifted w /\ m_lifted w' = 0) \/ (m_lifted w <= 0 /\ m_lifted w' = m_lifted w)).
Proof.
  unfold unlift, nominal_z. intros H. binds.
  destruct (Qlt_bool 0 (m_lifted w)) eqn:El; binds; qprops.
  - views.
    match goal with H : _ = (_, _, _, _, _) |- _ => injection H as Hp _ _ _ _ end.
    rewrite Hp. fields. split; [lra|]. split; [reflexivity|]. left. split; [assumption|reflexivity].
  - fields. split; [reflexivity|]. split; [reflexivity|]. right. split; [assumption|reflexivity].
Qed.

Lemma extrude_to_xy_height p dE c f w s w' :
  extrude_to_xy p dE c f w = Some (s, w') -> nominal_z w' == nominal_z w.
Proof.
  unfold extrude_to_xy, nominal_z. intros H. binds.
  match goal with H : set_extrude_acceleration ?x = _ |- _ =>
    pose proof (set_extrude_acceleration_view x) as V; rewrite H in V end.
  views.
  injection V as Hp Hl _ _ _. rewrite Hp, Hl.
  match goal with H : _ = (_, _, _, _, _) |- _ => injection H as Hp' Hl' _ _ _ end.
  rewrite Hp', Hl'. fields. reflexivity.
Qed.

Lemma extrude_arc_to_xy_height p o dE ccw c f w s w' :
  extrude_arc_to_xy p o dE ccw c f w = Some (s, w') -> nominal_z w' == nominal_z w.
Proof.
  unfold extrude_arc_to_xy, nominal_z. intros H. binds.
  match goal with H : set_extrude_acceleration ?x = _ |- _ =>
    pose proof (set_extrude_acceleration_view x) as V; rewrite H in V end.
  views.
  injection V as Hp Hl _ _ _. rewrite Hp, Hl.
  match goal with H : _ = (_, _, _, _, _) |- _ => injection H as Hp' Hl' _ _ _ end.
  rewrite Hp', Hl'. fields. reflexivity.
Qed.

Lemma step_height o w s w' :
  step o w = Some (s, w') -> target_height o = None -> nominal_z w' == nominal_z w.
Proof.
  intros H Hc.
  destruct o; try discriminate Hc; cbn [step] in H.
  - eapply lazy_lift_height, H.
  - eapply eager_lift_height, H.
  - apply travel_to_xy_view in H. destruct H as (Hl & _ & Hz).
    unfold nominal_z. rewrite Hl, Hz. reflexivity.
  - eapply extrude_to_xy_height, H.
  - eapply extrude_arc_to_xy_height, H.
  - apply unlift_height in H. apply H.
  - unfold retract in H. binds.
    match goal with H : _retract _ _ _ _ = _ |- _ => apply _retract_view in H end.
    erewrite view_nominal by eassumption. reflexivity.
  - unfold retract_for_toolchange in H. binds.
    match goal with H : _retract _ _ _ _ = _ |- _ => apply _retract_view in H end.
    erewrite view_nominal by eassumption. reflexivity.
  - apply unretract_view in H. erewrite view_nominal by eassumption. reflexivity.
  - apply toolchange_view in H. erewrite view_nominal by eassumption. reflexivity.
  - apply set_extruder_view in H. erewrite view_nominal by eassumption. reflexivity.
  - apply reset_e_view in H. erewrite view_nominal by eassumption. reflexivity.
  - binds. reflexivity.
  - binds. reflexivity.
  - injection H as H. pose proof (set_bed_temperature_view temperature wait w) as V.
    rewrite H in V. cbn [snd] in V. erewrite view_nominal by exact V. reflexivity.
  - unfold set_chamber_temperature in H. destruct wait; binds; reflexivity.
Qed.





Lemma set_travel_acceleration_tool w s w' :
  set_travel_acceleration w = Some (s, w') -> tool_view w' = tool_view w.
Proof.
  unfold set_travel_acceleration. intros H.
  destruct (if m_is_first_layer w then _ else _); [binds; reflexivity|].
  destruct (filament w); [|binds; reflexivity].
  binds.
  match goal with
  | H : set_acceleration_impl ?a ?w0 = _ |- _ =>
      pose proof (set_acceleration_impl_tool a w0) as V; rewrite H in V; exact V
  end.
Qed.

Lemma _travel_to_z_tool z c tc w s w' :
  _travel_to_z z c tc w = Some (s, w') -> tool_view w' = tool_view w.
Proof.
  unfold _travel_to_z. intros H. binds.
  match goal with H : set_travel_acceleration _ = _ |- _ =>
    apply set_travel_acceleration_tool in H; exact H end.
Qed.

Lemma _spiral_travel_to_z_tool z ij c tc w s w' :
  _spiral_travel_to_z z ij c tc w = Some (s, w') -> tool_view w' = tool_view w.
Proof.
  unfold _spiral_travel_to_z. intros H. binds.
  match goal with H : set_travel_acceleration _ = _ |- _ =>
    apply set_travel_acceleration_tool in H; exact H end.
Qed.

Lemma _travel_to_z_text z c tc w s w' :
  _travel_to_z z c tc w = Some (s, w') -> s <> ""%string.
Proof.
  unfold _travel_to_z. intros H. binds.
  apply append_nonempty_r. apply (z_move_line_nonempty z _ c).
Qed.

(** The lift asked for at another height with the same tool is the same or
    zero, unless the first height was outside the window. *)
Lemma target_lift_again tc w w' t :
  target_lift tc w = Some t -> tool_view w' = tool_view w ->
  exists t', target_lift tc w' = Some t' /\ (t' = 0 \/ t' = t \/ t = 0).
Proof.
  unfold target_lift. intros H Hv. rewrite (tool_view_deref _ _ Hv).
  unfold tool_view in Hv. injection Hv as Hc _ _ _ _ _ _. rewrite Hc.
  destruct (deref w (filament w)) as [[i e]|]; [|discriminate H]. cbv zeta in *.
  destruct (Qle_bool _ (z3 (m_pos w')) && _).
  - destruct (Qle_bool _ (z3 (m_pos w)) && _).
    + destruct (_ && _); eexists; (split; [reflexivity|]); right; left; congruence.
    + injection H as <-.
      destruct (_ && _); eexists; (split; [reflexivity|]); right; right; reflexivity.
  - eexists. split; [reflexivity|]. left. reflexivity.
Qed.

Lemma lazy_lift_again ty sv tc w s w' :
  lazy_lift ty sv tc w = Some (s, w') -> lazy_lift ty sv tc w' = Some (""%string, w').
Proof.
  unfold lazy_lift. intros H.
  destruct (target_lift tc w) as [t|] eqn:Et; [|discriminate H].
  destruct (Qeq_bool (m_lifted w) 0 && Qeq_bool (m_to_lift w) 0 && Qlt_bool 0 t) eqn:Ec.
  - qprops. destruct sv.
    + pose proof (_travel_to_z_tool _ _ _ _ _ _ H) as Hv.
      apply _travel_to_z_view in H. unfold lift_view in H. fields.
      injection H as _ Hl _ _ _.
      destruct (target_lift_again tc w w' t Et Hv) as (t' & -> & _).
      assert (El : Qeq_bool (m_lifted w') 0 = false).
      { apply Qeq_bool_false. rewrite Hl. lra. }
      rewrite El. reflexivity.
    + injection H as _ <-.
      assert (Hv : tool_view (set_to_lift_type ty (set_to_lift t w)) = tool_view w)
        by reflexivity.
      destruct (target_lift_again tc w _ t Et Hv) as (t' & -> & _). fields.
      assert (El : Qeq_bool t 0 = false) by (apply Qeq_bool_false; lra).
      rewrite El, andb_false_r. reflexivity.
  - injection H as _ <-. rewrite Et, Ec. reflexivity.
Qed.

Lemma eager_lift_again ty tc w s w' :
  0 <= m_lifted w ->
  eager_lift ty tc w = Some (s, w') -> eager_lift ty tc w' = Some (""%string, w').
Proof.
  unfold eager_lift. intros Hl H.
  destruct (target_lift tc w) as [t|] eqn:Et; [|discriminate H]. cbv zeta in H.
  destruct (Qlt_bool (t - m_lifted w) EPSILON) eqn:Ee.
  - injection H as _ <-. rewrite Et. cbv zeta. rewrite Ee. reflexivity.
  - apply Qlt_bool_false in Ee. unfold EPSILON in Ee.
    destruct (Qlt_bool 0 (t - m_lifted w)) eqn:Ep;
      [|apply Qlt_bool_false in Ep; exfalso; lra].
    assert (Hfin : forall w2, tool_view w2 = tool_view w ->
              exists t', target_lift tc (set_to_lift 0 (set_lifted t w2)) = Some t'
                         /\ Qlt_bool (t' - t) EPSILON = true).
    { intros w2 Hw2.
      destruct (target_lift_again tc w (set_to_lift 0 (set_lifted t w2)) t Et Hw2)
        as (t' & Ht & Ht').
      exists t'. split; [exact Ht|].
      apply Qlt_bool_iff. unfold EPSILON.
      destruct Ht' as [-> |[-> | ->]]; lra. }
    destruct (LiftType_eqb ty SpiralLift && is_current_position_clear w).
    + destruct (_spiral_travel_to_z _ _ _ _ _) as [[m w2]|] eqn:Em; [|discriminate H].
      injection H as _ <-. apply _spiral_travel_to_z_tool in Em.
      destruct (Hfin w2 Em) as (t' & -> & El). cbv zeta. fields.
      rewrite El. reflexivity.
    + destruct (_travel_to_z _ _ _ _) as [[m w2]|] eqn:Em; [|discriminate H].
      injection H as _ <-. apply _travel_to_z_tool in Em.
      destruct (Hfin w2 Em) as (t' & -> & El). cbv zeta. fields.
      rewrite El. reflexivity.
Qed.

End Heights.

Lemma run_height {libm : Libm} (os : list op) (w : GCodeWriter)
  (ss : list string) (w' : GCodeWriter) :
  run os w = Some (ss, w') -> Forall (fun o => target_height o = None) os ->
  nominal_z w' == nominal_z w.
Proof.
  revert w ss w'.
  induction os as [|o os IH]; intros w ss w' H Hk; cbn [run] in H.
  - injection H as _ <-. reflexivity.
  - inversion Hk as [|? ? Ho Hos]; subst.
    destruct (step o w) as [[s w1]|] eqn:Es; [|discriminate H].
    destruct (run os w1) as [[ss1 w2]|] eqn:Er; [|discriminate H].
    injection H as _ <-.
    rewrite (IH _ _ _ Er Hos). eapply step_height; eassumption.
Qed.

(** X5: along any sequence of operations that name no target height
    (lifts, unlift, travels and extrusions in the plane, retractions, tool
    changes, resets, temperature and acceleration requests) the nominal height,
    the current height less the applied lift, stays within EPSILON of what
    it was.  (With exact sums and differences it stays the same; the code
    rounds the sum of a lift and the difference of an unlift.) *)
Theorem nominal_height_kept (libm : Libm) (os : list op) (w : GCodeWriter)
  (ss : list string) (w' : GCodeWriter) :
  run os w = Some (ss, w') -> Forall (fun o => target_height o = None) os ->
  Qabs (nominal_z w' - nominal_z w) < EPSILON.
Proof.
  intros H Hk. rewrite (run_height os w ss w' H Hk).
  setoid_replace (nominal_z w - nominal_z w) with 0 by ring.
  reflexivity.
Qed.

Lemma nominal_height_kept_witness :
  Qabs (nominal_z (after [OpTravelToXY {| x2 := 10; y2 := 5 |} ""; OpRetract false;
                          OpEagerLift NormalLift true; OpUnlift] lifted_writer)
        - nominal_z lifted_writer) < EPSILON.
Proof.
  apply (nominal_height_kept sample_libm
           [OpTravelToXY {| x2 := 10; y2 := 5 |} ""; OpRetract false;
            OpEagerLift NormalLift true; OpUnlift]
           lifted_writer
           (texts [OpTravelToXY {| x2 := 10; y2 := 5 |} ""; OpRetract false;
                   OpEagerLift NormalLift true; OpUnlift] lifted_writer)).
  - vm_compute. reflexivity.
  - repeat constructor.
Defined.



(** X7: on a writer whose applied lift is not negative, [unlift] brings the
    nozzle to the nominal height and leaves no lift applied or pending; it
    returns text exactly when a lift was applied, and a second [unlift]
    returns the empty string and changes nothing. *)
Theorem unlift_restores_height (libm : Libm) (w : GCodeWriter) (s : string)
  (w' : GCodeWriter) :
  0 <= m_lifted w -> unlift w = Some (s, w') ->
  z3 (m_pos w') == nominal_z w /\ m_lifted w' == 0 /\ m_to_lift w' == 0
  /\ (s = ""%string <-> m_lifted w == 0)
  /\ unlift w' = Some (""%string, w').
Proof.
  intros Hl H. pose proof (unlift_height w s w' H) as (Hn & Ht & Hc).
  unfold nominal_z in *.
  assert (Hz : m_lifted w' == 0).
  { destruct Hc as [[_ ->]|[Hle ->]]; [reflexivity|lra]. }
  split; [rewrite <- Hn, Hz; ring|]. split; [exact Hz|]. split; [rewrite Ht; reflexivity|].
  unfold unlift in *.
  destruct (Qlt_bool 0 (m_lifted w)) eqn:El.
  - destruct (_travel_to_z _ _ _ _) as [[m w2]|] eqn:Em; [|discriminate H].
    injection H as <- <-. apply _travel_to_z_text in Em. qprops.
    split; [split; [contradiction|intros; lra]|]. reflexivity.
  - injection H as <- <-. split.
    + apply Qlt_bool_false in El. split; [intros; lra|reflexivity].
    + fields. rewrite El. reflexivity.
Qed.

Lemma unlift_restores_height_witness :
  z3 (m_pos (after [OpUnlift] lifted_writer)) == nominal_z lifted_writer.
Proof.
  apply (unlift_restores_height sample_libm lifted_writer
           (hd ""%string (texts [OpUnlift] lifted_writer))).
  - vm_compute. discriminate.
  - vm_compute. reflexivity.
Defined.

(** X8: a lift request repeated at once does nothing: the second of two equal
    [lazy_lift] calls, and on a writer whose applied lift is not negative
    the second of two equal [eager_lift] calls, returns the empty string and
    leaves the writer as it is. *)
Theorem lift_requests_idempotent (libm : Libm) (ty : LiftType) (sv tc : bool)
  (w : GCodeWriter) (s : string) (w' : GCodeWriter) :
  (lazy_lift ty sv tc w = Some (s, w') -> lazy_lift ty sv tc w' = Some (""%string, w'))
  /\ (0 <= m_lifted w -> eager_lift ty tc w = Some (s, w') ->
      eager_lift ty tc w' = Some (""%string, w')).
Proof.
  split; [apply lazy_lift_again|apply eager_lift_again].
Qed.

Lemma lift_requests_idempotent_witness :
  @lazy_lift sample_libm SpiralLift true false
    (after [OpLazyLift SpiralLift true false] marlin_writer)
  = Some (""%string, after [OpLazyLift SpiralLift true false] marlin_writer)
  /\ @eager_lift sample_libm NormalLift false
       (after [OpEagerLift NormalLift false] marlin_writer)
     = Some (""%string, after [OpEagerLift NormalLift false] marlin_writer).
Proof.
  split.
  - apply (proj1 (lift_requests_idempotent sample_libm SpiralLift true false marlin_writer
                    (hd ""%string (texts [OpLazyLift SpiralLift true false] marlin_writer))
                    (after [OpLazyLift SpiralLift true false] marlin_writer))).
    vm_compute. reflexivity.
  - apply (proj2 (lift_requests_idempotent sample_libm NormalLift false false marlin_writer
                    (hd ""%string (texts [OpEagerLift NormalLift false] marlin_writer))
                    (after [OpEagerLift NormalLift false] marlin_writer))).
    + vm_compute. discriminate.
    + vm_compute. reflexivity.
Defined.



(* ------------------------------------------------------------------ *)
(** ** Configuring the tools *)

Local Open Scope string_scope.

Lemma insert_sorted_perm x l : Permutation (insert_sorted x l) (x :: l).
Proof.
  induction l as [|a l IH]; cbn [insert_sorted]; [reflexivity|].
  destruct (x <=? a)%nat; [reflexivity|].
  rewrite IH. apply perm_swap.
Qed.

Lemma std_sort_perm l : Permutation (std_sort l) l.
Proof.
  induction l as [|x l IH]; cbn [std_sort fold_right]; [reflexivity|].
  fold (std_sort l). rewrite insert_sorted_perm, IH. reflexivity.
Qed.

Lemma fold_left_max_spec r : forall x,
  (x <= fold_left Nat.max r x)%nat
  /\ Forall (fun y => (y <= fold_left Nat.max r x)%nat) r
  /\ (fold_left Nat.max r x = x \/ In (fold_left Nat.max r x) r).
Proof.
  induction r as [|a r IH]; intros x; cbn [fold_left].
  - split; [lia|]. split; [constructor|]. left. reflexivity.
  - destruct (IH (Nat.max x a)) as (H1 & H2 & H3).
    split; [lia|]. split; [constructor; [lia|exact H2]|].
    destruct H3 as [H3|H3].
    + rewrite H3. destruct (Nat.max_spec x a) as [[_ ->]|[_ ->]].
      * right. left. reflexivity.
      * left. reflexivity.
    + right. right. exact H3.
Qed.

Lemma max_element_positive l m :
  max_element l = Some m -> ((0 <? m)%nat = true <-> exists t, In t l /\ (0 < t)%nat).
Proof.
  destruct l as [|x r]; [discriminate|]. cbn [max_element]. intros H. injection H as <-.
  destruct (fold_left_max_spec r x) as (H1 & H2 & H3).
  rewrite Nat.ltb_lt. split.
  - intros Hm. exists (fold_left Nat.max r x). split; [|exact Hm].
    destruct H3 as [->|H3]; [left; reflexivity|right; exact H3].
  - intros (t & [<-|Ht] & Hpos); [lia|].
    rewrite Forall_forall in H2. specialize (H2 t Ht). lia.
Qed.

Lemma set_extruders_ids ids w w' :
  set_extruders ids w = Some w' -> tool_ids w' = std_sort ids.
Proof.
  unfold set_extruders, tool_ids. intros H.
  destruct (max_element _); [|discriminate]. injection H as <-.
  cbn [m_filament_extruders set_multiple_extruders set_filament_extruders].
  rewrite map_map. cbn [id new_Extruder]. apply map_id.
Qed.

Lemma set_extruders_undefined ids w : set_extruders ids w = None <-> ids = [].
Proof.
  unfold set_extruders. split.
  - intros H. destruct (std_sort ids) as [|x r] eqn:Es; [|discriminate H].
    apply Permutation_nil. rewrite <- Es. apply std_sort_perm.
  - intros ->. reflexivity.
Qed.

Lemma toolchange_first {libm : Libm} t w :
  sorted_by_id (m_filament_extruders w) -> accel_tables_cover w -> In t (tool_ids w) ->
  exists s w', toolchange t w = Some (s, w')
               /\ well_formed w' /\ tool_ids w' = tool_ids w.
Proof.
  intros Hs Hc Hin.
  destruct (lower_bound_finds _ t Hs Hin) as (e & Hnth & Hid).
  unfold toolchange. unfold deref at 1. rewrite Hnth.
  set (r := lower_bound_by_predicate _ _) in *.
  set (w1 := set_current _ _ w).
  assert (Hw1 : well_formed w1).
  { split; [exact Hs|]. split; [|exact Hc].
    exists r, e. unfold w1. rewrite filament_set_current. unfold deref.
    cbn [m_filament_extruders set_current]. rewrite Hnth. reflexivity. }
  change (multiple_extruders w1) with (multiple_extruders w).
  destruct (multiple_extruders w).
  - destruct (reset_e_total true w1 Hw1) as (s & w2 & He & Hw2 & Hi2).
    rewrite He. eexists _, _. split; [reflexivity|]. split; [exact Hw2|exact Hi2].
  - eexists _, _. split; [reflexivity|]. split; [exact Hw1|reflexivity].
Qed.

(** X10: [set_extruders] is undefined exactly for an empty list of ids (it
    dereferences the end iterator [std::max_element] returns).  Otherwise the
    tool vector holds the ids given, each as often as it was given, in
    ascending order, and [multiple_extruders] is set exactly when some id is
    greater than zero. *)
Theorem set_extruders_tools (ids : list nat) (w : GCodeWriter) :
  (set_extruders ids w = None <-> ids = [])
  /\ forall w', set_extruders ids w = Some w' ->
       Permutation (tool_ids w') ids
       /\ StronglySorted le (tool_ids w')
       /\ (multiple_extruders w' = true <-> exists t, In t ids /\ (0 < t)%nat).
Proof.
  split; [apply set_extruders_undefined|].
  intros w' H. rewrite (set_extruders_ids _ _ _ H).
  split; [apply std_sort_perm|]. split; [apply std_sort_sorted|].
  unfold set_extruders in H.
  destruct (max_element (std_sort ids)) as [m|] eqn:Em; [|discriminate H].
  injection H as <-. cbn [multiple_extruders set_multiple_extruders].
  rewrite (max_element_positive _ _ Em).
  split; intros (t & Hin & Hpos); exists t; (split; [|exact Hpos]).
  - eapply Permutation_in; [apply std_sort_perm|exact Hin].
  - eapply Permutation_in; [symmetry; apply std_sort_perm|exact Hin].
Qed.

Lemma set_extruders_tools_witness :
  Permutation (tool_ids (sample_writer gcfMarlinFirmware false [2; 0; 2; 1]%nat))
              [2; 0; 2; 1]%nat
  /\ multiple_extruders (sample_writer gcfMarlinFirmware false [2; 0; 2; 1]%nat) = true.
Proof.
  destruct (proj2 (set_extruders_tools [2; 0; 2; 1]%nat
                     (new_GCodeWriter (sample_config gcfMarlinFirmware false)))
                  (sample_writer gcfMarlinFirmware false [2; 0; 2; 1]%nat))
    as (Hp & _ & Hm).
  - vm_compute. reflexivity.
  - split; [exact Hp|]. apply Hm. exists 2%nat. split; [left; reflexivity|lia].
Defined.

(** X11: on a writer with no tool selected, a tool vector sorted by id and a
    configured tool t, [init_extruder t] selects t; a [set_extruder t] that
    follows returns the empty string and changes nothing, and so does every
    later [init_extruder]. *)
Theorem init_extruder_selects (w : GCodeWriter) (t : nat) :
  sorted_by_id (m_filament_extruders w) -> In t (tool_ids w) ->
  N.of_nat t <> 4294967295%N -> m_curr_extruder_id w = (-1)%Z ->
  exists w', init_extruder t w = Some w'
             /\ current_tool w' = Some t
             /\ set_extruder t w' = Some ("", w')
             /\ forall t', init_extruder t' w' = Some w'.
Proof.
  intros Hs Hin Hmax Hcur.
  destruct (lower_bound_finds _ t Hs Hin) as (e & Hnth & Hid).
  unfold init_extruder. rewrite Hcur. cbn [Z.eqb andb].
  destruct (N.eqb_spec (N.of_nat t) 4294967295) as [E|_]; [contradiction|]. cbn [negb].
  unfold deref at 1. rewrite Hnth.
  set (r := lower_bound_by_predicate _ _) in *.
  set (w1 := set_current _ _ w).
  assert (Hf1 : filament w1 = Some r) by apply filament_set_current.
  assert (Hd1 : deref w1 (Some r) = Some (r, e)).
  { unfold deref. cbn [m_filament_extruders w1 set_current]. rewrite Hnth. reflexivity. }
  exists w1. split; [reflexivity|]. split; [|split].
  - unfold current_tool. rewrite Hf1, Hd1, Hid. reflexivity.
  - unfold set_extruder.
    change (m_filament_extruders w1) with (m_filament_extruders w). fold r.
    rewrite Hd1. unfold need_toolchange. rewrite Hf1, Hd1, Hid, Nat.eqb_refl. reflexivity.
  - intros t'. unfold init_extruder.
    cbn [m_curr_extruder_id w1 set_current].
    destruct (Z.eqb_spec (Z.of_nat (extruder_id (config w) e)) (-1)) as [E|_]; [lia|].
    reflexivity.
Qed.

Lemma init_extruder_selects_witness :
  exists w', init_extruder 1 (sample_writer gcfMarlinFirmware false [1; 0]%nat) = Some w'
             /\ set_extruder 1 w' = Some ("", w').
Proof.
  destruct (init_extruder_selects (sample_writer gcfMarlinFirmware false [1; 0]%nat) 1%nat)
    as (w' & Hi & _ & Hs & _).
  - apply sample_writer_sorted.
  - vm_compute. right. left. reflexivity.
  - vm_compute. discriminate.
  - vm_compute. reflexivity.
  - exists w'. split; assumption.
Defined.

(** X12: a writer with no tool selected and no travel acceleration tables,
    given a list of tool ids by [set_extruders] and one of them by
    [set_extruder], runs every sequence of operations that names only those
    tools to its end: no call dereferences a null [filament()] or indexes a
    vector out of range. *)
Theorem configured_writer_runs (libm : Libm) (ids : list nat) (t : nat) (os : list op)
  (w0 : GCodeWriter) :
  In t ids -> m_curr_extruder_id w0 = (-1)%Z ->
  m_travel_accelerations w0 = [] -> m_first_layer_travel_accelerations w0 = [] ->
  Forall (op_present ids) os ->
  exists w1 s w2 ss w3,
    set_extruders ids w0 = Some w1 /\ set_extruder t w1 = Some (s, w2)
    /\ run os w2 = Some (ss, w3) /\ well_formed w3.
Proof.
  intros Hin Hcur Ha Hfa Hos.
  destruct (set_extruders ids w0) as [w1|] eqn:E1.
  2:{ apply set_extruders_undefined in E1. subst ids. contradiction. }
  pose proof (set_extruders_sorted _ _ _ E1) as Hs.
  pose proof (set_extruders_ids _ _ _ E1) as Hids.
  assert (Hmem : forall x, In x ids <-> In x (tool_ids w1)).
  { intros x. rewrite Hids. split; apply Permutation_in;
      [symmetry|]; apply std_sort_perm. }
  assert (Hw1 : m_curr_extruder_id w1 = (-1)%Z /\ accel_tables_cover w1).
  { unfold set_extruders in E1. destruct (max_element _); [|discriminate E1].
    injection E1 as <-. split; [exact Hcur|].
    intros e _. cbn [m_travel_accelerations m_first_layer_travel_accelerations
                     set_multiple_extruders set_filament_extruders].
    rewrite Ha, Hfa. auto. }
  destruct Hw1 as [Hcur1 Hcov1].
  destruct (lower_bound_finds _ t Hs (proj1 (Hmem t) Hin)) as (e & Hnth & Hid).
  destruct (toolchange_first t w1 Hs Hcov1 (proj1 (Hmem t) Hin)) as (s & w2 & Ht & Hw2 & Hi2).
  assert (E2 : set_extruder t w1 = Some (s, w2)).
  { unfold set_extruder. unfold deref at 1. rewrite Hnth.
    unfold need_toolchange, filament. rewrite Hcur1. cbn [Z.eqb deref]. exact Ht. }
  assert (Hos2 : Forall (op_present (tool_ids w2)) os).
  { eapply Forall_impl; [|exact Hos]. intros o Ho. rewrite Hi2.
    destruct o; cbn [op_present] in *; try exact I; apply Hmem, Ho. }
  destruct (run_defined os w2 Hw2 Hos2) as (ss & w3 & Hr & Hw3).
  exists w1, s, w2, ss, w3. auto.
Qed.

Lemma configured_writer_runs_witness :
  exists w1 s w2 ss w3,
    set_extruders [1; 0]%nat (new_GCodeWriter (sample_config gcfKlipper false)) = Some w1
    /\ set_extruder 1 w1 = Some (s, w2)
    /\ @run sample_libm
         [OpLazyLift SlopeLift false false;
          OpTravelToXYZ {| x3 := 10; y3 := 5; z3 := 1 # 5 |} "";
          OpToolchange 0; OpUnretract; OpExtrudeToXY {| x2 := 20; y2 := 5 |} 1 "" false;
          OpRetract true; OpUnlift]
         w2 = Some (ss, w3)
    /\ well_formed w3.
Proof.
  apply (configured_writer_runs sample_libm [1; 0]%nat 1%nat).
  - left. reflexivity.
  - reflexivity.
  - reflexivity.
  - reflexivity.
  - repeat (apply Forall_cons; [cbn [op_present In]; auto|]). apply Forall_nil.
Defined.

(* ------------------------------------------------------------------ *)
(** ** Progress, auxiliary fan and object labels *)

Lemma Qfloor_div_pos (a b : Z) :
  (0 < b)%Z -> Qfloor (inject_Z a / inject_Z b)%Q = (a / b)%Z.
Proof.
  intros Hb. unfold Qdiv, Qinv, inject_Z. cbn [Qnum Qden].
  destruct b as [|p|p]; try lia. cbn [Qmult Qnum Qden Qfloor].
  rewrite Z.mul_1_r, Pos.mul_1_l. reflexivity.
Qed.

(** The percentage as integer arithmetic. *)
Lemma percent_floor (num tot : N) :
  (0 < tot)%N ->
  Qfloor (100 * inject_Z (Z.of_N num) / inject_Z (Z.of_N tot) + (1 # 2))%Q
  = ((200 * Z.of_N num + Z.of_N tot) / (2 * Z.of_N tot))%Z.
Proof.
  intros Ht.
  rewrite <- (Qfloor_div_pos (200 * Z.of_N num + Z.of_N tot) (2 * Z.of_N tot)) by lia.
  apply Qfloor_comp.
  rewrite inject_Z_plus, !inject_Z_mult.
  assert (H : ~ (inject_Z (Z.of_N tot) == 0)%Q).
  { unfold Qeq, inject_Z. cbn [Qnum Qden]. lia. }
  change (inject_Z 200) with 200%Q. change (inject_Z 2) with 2%Q.
  field. exact H.
Qed.

Lemma percent_bounds (n t : Z) :
  (0 < t -> 0 <= n <= t ->
   0 <= (200 * n + t) / (2 * t) <= 100
   /\ ((200 * n + t) / (2 * t) = 100 <-> 199 * t <= 200 * n))%Z.
Proof.
  intros Ht Hn.
  assert (H0 : (0 <= (200 * n + t) / (2 * t))%Z) by (apply Z.div_pos; lia).
  assert (H1 : ((200 * n + t) / (2 * t) < 101)%Z)
    by (apply Z.div_lt_upper_bound; clear H0; lia).
  assert (H2 : (199 * t <= 200 * n -> 100 <= (200 * n + t) / (2 * t))%Z)
    by (intros H; apply Z.div_le_lower_bound; clear H0 H1; lia).
  pose proof (Z.mul_div_le (200 * n + t) (2 * t)) as Hm.
  generalize dependent ((200 * n + t) / (2 * t))%Z. intros q H0 H1 H2 Hm.
  split; [lia|]. split; intros H; lia.
Qed.

Lemma progress_percent_spec (num tot : N) (allow_100 : bool) :
  (0 < tot)%N -> (num <= tot)%N ->
  exists p, progress_percent num tot allow_100 = Some p
            /\ (0 <= p <= if allow_100 then 100 else 99)%Z
            /\ (p = 100%Z <-> allow_100 = true /\ (199 * tot <= 200 * num)%N).
Proof.
  intros Ht Hn. unfold progress_percent.
  destruct (N.eqb_spec tot 0) as [E|_]; [lia|]. cbv zeta.
  rewrite percent_floor by exact Ht.
  destruct (percent_bounds (Z.of_N num) (Z.of_N tot)) as ([Hp0 Hp1] & H100); [lia|lia|].
  generalize dependent ((200 * Z.of_N num + Z.of_N tot) / (2 * Z.of_N tot))%Z.
  intros p Hp0 Hp1 H100.
  destruct (Z.ltb_spec 4294967295 p) as [Hbig|_]; [lia|].
  destruct allow_100.
  - exists p. split; [reflexivity|]. split; [lia|]. rewrite H100. split.
    + intros H. split; [reflexivity|lia].
    + intros [_ H]. lia.
  - exists (Z.min p 99). split; [reflexivity|]. split; [lia|].
    split; [lia|intros [H _]; discriminate H].
Qed.

Lemma progress_percent_mono (num num' tot : N) (allow_100 : bool) p p' :
  (num <= num')%N ->
  progress_percent num tot allow_100 = Some p ->
  progress_percent num' tot allow_100 = Some p' -> (p <= p')%Z.
Proof.
  intros Hn. unfold progress_percent.
  destruct (N.eqb_spec tot 0) as [E|Ht]; [discriminate|]. cbv zeta.
  rewrite !percent_floor by lia.
  assert (Hm : ((200 * Z.of_N num + Z.of_N tot) / (2 * Z.of_N tot)
                <= (200 * Z.of_N num' + Z.of_N tot) / (2 * Z.of_N tot))%Z).
  { apply Z.div_le_mono; lia. }
  generalize dependent ((200 * Z.of_N num' + Z.of_N tot) / (2 * Z.of_N tot))%Z.
  generalize dependent ((200 * Z.of_N num + Z.of_N tot) / (2 * Z.of_N tot))%Z.
  intros q q' Hm.
  destruct (_ <? _)%Z; [discriminate|]. destruct (_ <? _)%Z; [discriminate|].
  intros H H'. injection H as <-. injection H' as <-.
  destruct allow_100; lia.
Qed.

Lemma fan_duty_floor (speed : N) :
  Qfloor (255 * inject_Z (Z.of_N speed) / 100)%Q = (255 * Z.of_N speed / 100)%Z.
Proof.
  rewrite <- (Qfloor_div_pos (255 * Z.of_N speed) 100) by lia.
  apply Qfloor_comp. rewrite inject_Z_mult. reflexivity.
Qed.

Lemma fan_duty_spec (speed : N) :
  (speed <= 100 ->
   exists d, fan_duty speed = Some d /\ (0 <= d <= 255)%Z
             /\ (d = 0%Z <-> speed = 0) /\ (d = 255%Z <-> speed = 100))%N
  /\ (100 < speed -> forall d, fan_duty speed = Some d -> (255 < d)%Z)%N.
Proof.
  unfold fan_duty. cbv zeta. rewrite fan_duty_floor.
  set (d := (255 * Z.of_N speed / 100)%Z).
  pose proof (Z.mul_div_le (255 * Z.of_N speed) 100 eq_refl) as H1.
  pose proof (Z.mul_succ_div_gt (255 * Z.of_N speed) 100 eq_refl) as H2.
  fold d in H1, H2. clearbody d.
  split.
  - intros Hs. assert (Hd : (0 <= d <= 255)%Z) by lia.
    destruct (Z.ltb_spec 2147483647 d) as [Hbig|_]; [lia|].
    exists d. split; [reflexivity|]. split; [exact Hd|]. split; split; intros H; lia.
  - intros Hs d' H. destruct (_ <? _)%Z; [discriminate|]. injection H as <-. lia.
Qed.

Lemma append_empty_r (s : string) : s ++ "" = s.
Proof. induction s as [|c s IH]; cbn [append]; [reflexivity|]. rewrite IH. reflexivity. Qed.

(** X13: for a total above zero and a count up to it, the percentage
    [update_progress] computes lies between 0 and 100, stays at 99 or below
    unless [allow_100] is set, and reaches 100 exactly when [allow_100] is set
    and the count is at least 99.5 percent of the total; it does not
    decrease when the count grows.  The text is the M73 command with that
    percentage under the MakerWare and Sailfish flavors and empty under
    every other flavor. *)
Theorem update_progress_bounded (w : GCodeWriter) (num tot : N) (allow_100 : bool) :
  (0 < tot)%N -> (num <= tot)%N ->
  exists p, progress_percent num tot allow_100 = Some p
            /\ (0 <= p <= if allow_100 then 100 else 99)%Z
            /\ (p = 100%Z <-> allow_100 = true /\ (199 * tot <= 200 * num)%N)
            /\ update_progress num tot allow_100 w
               = Some (if FLAVOR_IS w gcfMakerWare || FLAVOR_IS w gcfSailfish
                       then "M73 P" ++ show_Z p ++ nl else "")
            /\ forall num' p', (num <= num')%N ->
                 progress_percent num' tot allow_100 = Some p' -> (p <= p')%Z.
Proof.
  intros Ht Hn.
  destruct (progress_percent_spec num tot allow_100 Ht Hn) as (p & Hp & Hb & H100).
  exists p. split; [exact Hp|]. split; [exact Hb|]. split; [exact H100|]. split.
  - unfold update_progress, FLAVOR_IS_NOT, FLAVOR_IS. rewrite Hp.
    destruct (flavor_eqb _ gcfMakerWare), (flavor_eqb _ gcfSailfish); reflexivity.
  - intros num' p' Hle Hp'. eapply progress_percent_mono; eassumption.
Qed.

Lemma update_progress_bounded_witness :
  exists p, progress_percent 199 200 false = Some p /\ (0 <= p <= 99)%Z.
Proof.
  destruct (update_progress_bounded makerware_writer 199 200 false) as (p & Hp & Hb & _).
  - reflexivity.
  - vm_compute. discriminate.
  - exists p. split; [exact Hp|exact Hb].
Defined.

(** X14: for a speed of 0 to 100 percent [set_additional_fan] writes a duty
    between 0 and 255, 0 only for speed 0 and 255 only for speed 100; a
    speed above 100 is not clamped and gives a duty above 255. *)
Theorem additional_fan_duty (speed : N) :
  ((speed <= 100)%N ->
   exists d, set_additional_fan speed = Some ("M106 P2 S" ++ show_Z d ++ nl)
             /\ (0 <= d <= 255)%Z
             /\ (d = 0%Z <-> speed = 0%N) /\ (d = 255%Z <-> speed = 100%N))
  /\ ((100 < speed)%N -> forall d, fan_duty speed = Some d -> (255 < d)%Z).
Proof.
  destruct (fan_duty_spec speed) as [H1 H2]. split; [|exact H2].
  intros Hs. destruct (H1 Hs) as (d & Hd & Hb & H0 & H255).
  exists d. unfold set_additional_fan. rewrite Hd.
  split; [reflexivity|]. split; [exact Hb|]. split; assumption.
Qed.

Lemma additional_fan_duty_witness :
  (exists d, set_additional_fan 70 = Some ("M106 P2 S" ++ show_Z d ++ nl)
             /\ (0 <= d <= 255)%Z)
  /\ forall d, fan_duty 120 = Some d -> (255 < d)%Z.
Proof.
  split.
  - destruct (proj1 (additional_fan_duty 70)) as (d & Hs & Hb & _).
    + vm_compute. discriminate.
    + exists d. split; assumption.
  - apply (proj2 (additional_fan_duty 120)). reflexivity.
Defined.

(** X15: [add_object_change_labels] appends the waiting end label, then the
    waiting start label, to the G-code and leaves none waiting; called again
    it appends nothing, so no label is written twice. *)
Theorem object_labels_written_once (gcode : string) (l : ObjectLabels) :
  let g1 := fst (add_object_change_labels gcode l) in
  let l1 := snd (add_object_change_labels gcode l) in
  g1 = gcode ++ m_gcode_label_objects_end l ++ m_gcode_label_objects_start l
  /\ l1 = {| m_gcode_label_objects_start := ""; m_gcode_label_objects_end := "" |}
  /\ add_object_change_labels g1 l1 = (g1, l1).
Proof.
  destruct l as [s e]. unfold add_object_change_labels, add_object_end_labels,
    add_object_start_labels. cbn [m_gcode_label_objects_start m_gcode_label_objects_end].
  destruct (String.eqb_spec e "") as [->|Ne], (String.eqb_spec s "") as [->|Ns];
    cbn [negb fst snd m_gcode_label_objects_start m_gcode_label_objects_end];
    rewrite ?(proj2 (String.eqb_neq _ _) Ns);
    cbn [negb fst snd m_gcode_label_objects_start m_gcode_label_objects_end String.eqb];
    rewrite ?append_empty_r; cbn [append];
    rewrite ?append_assoc_string; repeat split; reflexivity.
Qed.

(* ------------------------------------------------------------------ *)
(** ** TransformationType *)

Section Transformation.
Import TransformationType.

Lemma has_bit (k m : N) : has (2 ^ k) m = N.testbit m k.
Proof.
  unfold has.
  assert (H : N.land m (2 ^ k) = if N.testbit m k then (2 ^ k)%N else 0%N).
  { apply N.bits_inj. intros i. rewrite N.land_spec, N.pow2_bits_eqb.
    destruct (N.eqb_spec k i) as [<-|Hne].
    - destruct (N.testbit m k) eqn:E.
      + rewrite N.pow2_bits_true. reflexivity.
      + rewrite N.bits_0. reflexivity.
    - rewrite andb_false_r. destruct (N.testbit m k).
      + rewrite N.pow2_bits_false by exact Hne. reflexivity.
      + rewrite N.bits_0. reflexivity. }
  rewrite H. destruct (N.testbit m k).
  - destruct (N.eqb_spec (2 ^ k) 0) as [E|_]; [|reflexivity].
    exfalso. apply (N.pow_nonzero 2 k); [discriminate|exact E].
  - reflexivity.
Qed.

Lemma add_bit (k m i : N) : N.testbit (add (2 ^ k) m) i = N.testbit m i || (k =? i)%N.
Proof. unfold add. rewrite N.lor_spec, N.pow2_bits_eqb. reflexivity. Qed.

Lemma remove_bit (k m i : N) :
  (k < 32)%N -> (i < 32)%N ->
  N.testbit (remove (2 ^ k) m) i = N.testbit m i && negb (k =? i)%N.
Proof.
  intros Hk Hi. unfold remove.
  rewrite N.land_spec, N.lxor_spec, N.pow2_bits_eqb, N.ones_spec_low by exact Hi.
  destruct (k =? i)%N; reflexivity.
Qed.

(** X16: whatever value a [TransformationType] holds, [set_world],
    [set_instance] and [set_local] leave exactly the coordinate system they
    name and keep the relative and independent flags; [set_absolute],
    [set_relative], [set_joint] and [set_independent] set their flag and keep
    the coordinate system and the other flag. *)
Theorem transformation_type_setters (m : N) :
  coordinates (set_world m) = (true, false, false)
  /\ coordinates (set_instance m) = (false, true, false)
  /\ coordinates (set_local m) = (false, false, true)
  /\ modes (set_world m) = modes m
  /\ modes (set_instance m) = modes m
  /\ modes (set_local m) = modes m
  /\ modes (set_absolute m) = (false, independent m)
  /\ modes (set_relative m) = (true, independent m)
  /\ modes (set_joint m) = (relative m, false)
  /\ modes (set_independent m) = (relative m, true)
  /\ coordinates (set_absolute m) = coordinates m
  /\ coordinates (set_relative m) = coordinates m
  /\ coordinates (set_joint m) = coordinates m
  /\ coordinates (set_independent m) = coordinates m.
Proof.
  unfold coordinates, modes, world, instance, local, absolute, relative, joint, independent,
         set_world, set_instance, set_local, set_absolute, set_relative, set_joint,
         set_independent.
  change Instance with (2 ^ 0)%N. change Local with (2 ^ 1)%N.
  change Relative with (2 ^ 2)%N. change Independent with (2 ^ 3)%N.
  rewrite !has_bit.
  repeat (rewrite ?add_bit, ?remove_bit by reflexivity).
  cbn [N.eqb Pos.eqb negb orb andb].
  rewrite ?andb_true_r, ?andb_false_r, ?orb_true_r, ?orb_false_r.
  cbn [negb andb].
  repeat split; destruct (N.testbit m 0), (N.testbit m 1); reflexivity.
Qed.

End Transformation.
